(** * RiseUp backend: Cloud Functions over a document store

    A shallow embedding of [functions/index.js] (the four Cloud Functions
    [checkFollowerReward], [sendMessageNotification], [deleteUserAccount],
    [updateFollowerCounts] and the helper [sendPushNotification]), of the
    client follow flow [handleFollow] of [OtherProfileScreen.js], and of the
    part of [firebase.rules] that governs the writes of that flow.

    Every [await] of the source is one node of a program tree [Prog]; the
    tree is run either to completion ([exec], one invocation at a time) or
    one request at a time under a schedule ([interleave], overlapping
    invocations). *)

From Stdlib Require Import ZArith String Ascii.
From stdpp Require Import gmap strings list pretty.

Open Scope Z_scope.

(** ** Strings

    Identifiers (document ids, tokens, paths) are only compared and
    concatenated: they are [string]s.  Text whose length the code measures
    is a JavaScript string, that is a sequence of UTF-16 code units. *)

Definition jsstring := list N.

(** An ASCII literal as a JavaScript string. *)
Definition utf16 (s : string) : jsstring :=
  N_of_ascii <$> list_ascii_of_string s.

(** [s.length] and [s.substring(a, b)] for [0 <= a <= b]. *)
Definition js_length (s : jsstring) : Z := Z.of_nat (length s).
Definition substring (a b : nat) (s : jsstring) : jsstring :=
  take (b - a) (drop a s).

(** ** Numbers in template literals

    A numeric field is read as a JavaScript Number; the model keeps the
    integers among them (integers with more than 53 significant bits that
    no Number holds do not occur).  [Number::toString] prints the shortest
    digits that round to the number, nearest first: every digit of an
    integer below [2^53], zeros after the significant digits up to 21
    digits, the exponent form [d.ddde+n] beyond. *)

(** Whether the real [v] rounds to the Number [x] (to nearest, ties to
    the even mantissa), for an integer [x >= 2^53]; all values doubled. *)
Definition rounds_to (x v : Z) : bool :=
  let e := Z.log2 x - 52 in
  let m := x / 2 ^ e in
  let hi := 2 * x + 2 ^ e in
  let lo := if m =? 2 ^ 52 then 2 * x - 2 ^ (e - 1) else 2 * x - 2 ^ e in
  if Z.even m then (lo <=? 2 * v) && (2 * v <=? hi)
  else (lo <? 2 * v) && (2 * v <? hi).

(** The multiple of the largest power of ten that rounds to [x], the
    nearest to [x] when there are two; [p] is the power to try first. *)
Fixpoint shortest (fuel : nat) (p x : Z) : Z :=
  match fuel with
  | O => x
  | S fuel' =>
      let a := x / p * p in
      let b := a + p in
      match rounds_to x a, rounds_to x b with
      | true, true => if x - a <=? b - x then a else b
      | true, false => a
      | false, true => b
      | false, false => shortest fuel' (p / 10) x
      end
  end.

Fixpoint strip_zeros (fuel : nat) (s : Z) : Z :=
  match fuel with
  | O => s
  | S fuel' =>
      if (s mod 10 =? 0) && negb (s =? 0) then strip_zeros fuel' (s / 10) else s
  end.

Definition number_to_string_pos (x : Z) : string :=
  let digits := String.length (pretty x) in
  let v := if x <? 2 ^ 53 then x
           else shortest digits (10 ^ (Z.of_nat digits - 1)) x in
  let n := String.length (pretty v) in
  if (n <=? 21)%nat then pretty v
  else
    match pretty (strip_zeros n v) with
    | String c EmptyString => String c ("e+" +:+ pretty (Z.of_nat n - 1))
    | String c rest => String c ("." +:+ rest +:+ "e+" +:+ pretty (Z.of_nat n - 1))
    | EmptyString => EmptyString
    end.

Definition number_to_string (n : Z) : string :=
  if n <? 0 then "-" +:+ number_to_string_pos (- n) else number_to_string_pos n.

(** [`${n}`] for a number [n]. *)
Definition num_to_string (n : Z) : jsstring := utf16 (number_to_string n).

(** Truthiness of an optional string field: [undefined] and the empty
    string are falsy. *)
Definition truthy_id (s : option string) : bool :=
  match s with
  | Some s' => negb (String.eqb s' EmptyString)
  | None => false
  end.

Definition truthy_text (s : option jsstring) : bool :=
  match s with
  | Some (_ :: _) => true
  | _ => false
  end.

(** ** Documents *)

(** The fields of [users/{uid}] the functions read or write.  A numeric
    field is [None] when the document does not have it; a flag is the
    truthiness of its field.  [profile] stands for every other field
    (username, displayName, bio, avatar, postsCount, ...). *)
Record UserDoc := mkUser {
  followersCount : option Z;
  followingCount : option Z;
  wallet_balance : option Z;
  rewardClaimed : bool;
  pushToken : option string;
  settings_notifications : bool;
  profile : list (string * jsstring)
}.

(** [settings/rewardRule]. *)
Record RewardRule := mkRule {
  followerThreshold : option Z;
  rule_rewardAmount : option Z
}.

Inductive Timestamp := ServerTimestamp | ClientDate.

Record Transaction := mkTx {
  tx_type : string;
  tx_amount : Z;
  tx_description : jsstring;
  tx_createdAt : Timestamp
}.

Record Post := mkPost { post_userId : string; post_caption : jsstring }.
Record Comment := mkComment { comment_userId : string; comment_text : jsstring }.
Record Chat := mkChat { participants : list string; lastMessage : jsstring }.
Record Message := mkMessage {
  senderId : string;
  senderName : option jsstring;
  text : jsstring
}.

(** ** Push messages *)

Inductive PushData :=
  | RewardData (amount : Z)
  | MessageData (chatId sender : string).

Record PushMessage := mkPush {
  to : string;
  sound : string;
  title : jsstring;
  body : jsstring;
  data : PushData
}.

(** What the push gateway does with a request. *)
Inductive GatewayOutcome :=
  | NetworkFailure      (* [fetch] rejects *)
  | NonJsonResponse     (* [response.json()] rejects *)
  | ReceiptOk
  | ReceiptError.

(** ** Errors *)

Inductive HttpsCode := unauthenticated | internal.

Inductive JsError :=
  | NotFound                 (* update of a document that does not exist *)
  | PermissionDenied         (* a client request refused by the rules *)
  | Unavailable              (* a request that failed in transit *)
  | AuthUserNotFound         (* no credential for the uid *)
  | FetchFailed
  | JsonSyntaxError
  | HttpsError (code : HttpsCode) (msg : string).

Inductive LogEntry :=
  | LogInfo (what : string)
  | LogError (where_ : string) (e : JsError).

(** ** The world: Firestore, Storage, Auth, the gateway and the console *)

Record World := mkWorld {
  users : gmap string UserDoc;
  (** [users/{owner}/following/{target}] as the pair [(owner, target)]. *)
  following : gset (string * string);
  (** [users/{userId}/followers/{followerId}] as [(userId, followerId)]. *)
  followers : gset (string * string);
  (** [users/{uid}/transactions/{auto id}]. *)
  transactions : gmap (string * nat) Transaction;
  rewardRule : option RewardRule;
  posts : gmap string Post;
  (** [posts/{postId}/comments/{commentId}]. *)
  comments : gmap (string * string) Comment;
  chats : gmap string Chat;
  (** [chats/{chatId}/messages/{auto id}]. *)
  messages : gmap (string * nat) Message;
  (** Object names of the default Storage bucket. *)
  bucket : gset string;
  (** Uids that hold an authentication credential. *)
  credentials : gset string;
  (** Requests posted to the push gateway, oldest first. *)
  outbox : list PushMessage;
  console : list LogEntry;
  gateway : GatewayOutcome
}.

Definition set_users (f : gmap string UserDoc → gmap string UserDoc) (w : World) : World :=
  mkWorld (f (users w)) (following w) (followers w) (transactions w) (rewardRule w)
    (posts w) (comments w) (chats w) (messages w) (bucket w) (credentials w)
    (outbox w) (console w) (gateway w).
Definition set_following (f : gset (string * string) → gset (string * string)) (w : World) : World :=
  mkWorld (users w) (f (following w)) (followers w) (transactions w) (rewardRule w)
    (posts w) (comments w) (chats w) (messages w) (bucket w) (credentials w)
    (outbox w) (console w) (gateway w).
Definition set_followers (f : gset (string * string) → gset (string * string)) (w : World) : World :=
  mkWorld (users w) (following w) (f (followers w)) (transactions w) (rewardRule w)
    (posts w) (comments w) (chats w) (messages w) (bucket w) (credentials w)
    (outbox w) (console w) (gateway w).
Definition set_transactions
    (f : gmap (string * nat) Transaction → gmap (string * nat) Transaction) (w : World) : World :=
  mkWorld (users w) (following w) (followers w) (f (transactions w)) (rewardRule w)
    (posts w) (comments w) (chats w) (messages w) (bucket w) (credentials w)
    (outbox w) (console w) (gateway w).
Definition set_posts (f : gmap string Post → gmap string Post) (w : World) : World :=
  mkWorld (users w) (following w) (followers w) (transactions w) (rewardRule w)
    (f (posts w)) (comments w) (chats w) (messages w) (bucket w) (credentials w)
    (outbox w) (console w) (gateway w).
Definition set_comments
    (f : gmap (string * string) Comment → gmap (string * string) Comment) (w : World) : World :=
  mkWorld (users w) (following w) (followers w) (transactions w) (rewardRule w)
    (posts w) (f (comments w)) (chats w) (messages w) (bucket w) (credentials w)
    (outbox w) (console w) (gateway w).
Definition set_chats (f : gmap string Chat → gmap string Chat) (w : World) : World :=
  mkWorld (users w) (following w) (followers w) (transactions w) (rewardRule w)
    (posts w) (comments w) (f (chats w)) (messages w) (bucket w) (credentials w)
    (outbox w) (console w) (gateway w).
Definition set_bucket (f : gset string → gset string) (w : World) : World :=
  mkWorld (users w) (following w) (followers w) (transactions w) (rewardRule w)
    (posts w) (comments w) (chats w) (messages w) (f (bucket w)) (credentials w)
    (outbox w) (console w) (gateway w).
Definition set_credentials (f : gset string → gset string) (w : World) : World :=
  mkWorld (users w) (following w) (followers w) (transactions w) (rewardRule w)
    (posts w) (comments w) (chats w) (messages w) (bucket w) (f (credentials w))
    (outbox w) (console w) (gateway w).
Definition post_request (m : PushMessage) (w : World) : World :=
  mkWorld (users w) (following w) (followers w) (transactions w) (rewardRule w)
    (posts w) (comments w) (chats w) (messages w) (bucket w) (credentials w)
    (outbox w ++ [m]) (console w) (gateway w).
Definition log (l : LogEntry) (w : World) : World :=
  mkWorld (users w) (following w) (followers w) (transactions w) (rewardRule w)
    (posts w) (comments w) (chats w) (messages w) (bucket w) (credentials w)
    (outbox w) (console w ++ [l]) (gateway w).

(** ** Programs

    [Await io k] is one request to a backend service: [io] is what the
    service does with the world and what it answers, [k] is the rest of
    the function.  [Log] is [console.log]/[console.error], which does
    not suspend.  [Throw] is a pending exception. *)

Definition Res (X : Type) : Type := X + JsError.

Inductive Prog (A : Type) : Type :=
  | Ret (a : A)
  | Throw (e : JsError)
  | Log (l : LogEntry) (k : Prog A)
  | Await {X : Type} (io : World → Res X * World) (k : Res X → Prog A).
Arguments Ret {A} a.
Arguments Throw {A} e.
Arguments Log {A} l k.
Arguments Await {A X} io k.

Fixpoint bind {A B} (p : Prog A) (f : A → Prog B) : Prog B :=
  match p with
  | Ret a => f a
  | Throw e => Throw e
  | Log l k => Log l (bind k f)
  | Await io k => Await io (λ r, bind (k r) f)
  end.

(** [try { p } catch (error) { h error }]. *)
Fixpoint try_catch {A} (p : Prog A) (h : JsError → Prog A) : Prog A :=
  match p with
  | Ret a => Ret a
  | Throw e => h e
  | Log l k => Log l (try_catch k h)
  | Await io k => Await io (λ r, try_catch (k r) h)
  end.

(** [await io]: the answer, or the rejection rethrown. *)
Definition await {X} (io : World → Res X * World) : Prog X :=
  Await io (λ r, match r with inl x => Ret x | inr e => Throw e end).

Definition console_log (s : string) : Prog unit := Log (LogInfo s) (Ret tt).
Definition console_error (s : string) (e : JsError) : Prog unit :=
  Log (LogError s e) (Ret tt).

#[global] Instance prog_ret : MRet Prog := λ A a, Ret a.
#[global] Instance prog_bind : MBind Prog := λ A B f p, bind p f.

(** One invocation run to completion.  [faults] says, request by
    request, whether the request fails in transit ([true]); a failed
    request leaves the world as it was and rejects with [Unavailable].
    Past the end of [faults] no request fails. *)
Fixpoint exec {A} (faults : list bool) (p : Prog A) (w : World) : Res A * World :=
  match p with
  | Ret a => (inl a, w)
  | Throw e => (inr e, w)
  | Log l k => exec faults k (log l w)
  | Await io k =>
      match faults with
      | true :: fs => exec fs (k (inr Unavailable)) w
      | _ => let '(r, w') := io w in exec (tail faults) (k r) w'
      end
  end.

(** Overlapping invocations: [step] runs a program up to and including
    its next request; [interleave] lets the invocation named by each
    entry of the schedule take one step. *)
Fixpoint step {A} (p : Prog A) (w : World) : Prog A * World :=
  match p with
  | Ret a => (Ret a, w)
  | Throw e => (Throw e, w)
  | Log l k => step k (log l w)
  | Await io k => let '(r, w') := io w in (k r, w')
  end.

Fixpoint interleave {A} (schedule : list nat) (pool : list (Prog A)) (w : World)
    : list (Prog A) * World :=
  match schedule with
  | [] => (pool, w)
  | i :: rest =>
      match pool !! i with
      | Some p => let '(p', w') := step p w in interleave rest (<[i := p']> pool) w'
      | None => interleave rest pool w
      end
  end.

(** A program that has ended with the given result. *)
Definition ended {A} (r : Res A) : Prog A :=
  match r with
  | inl a => Ret a
  | inr e => Throw e
  end.

(** ** Firestore requests of the Admin SDK (no security rules apply) *)

Inductive NumField := FollowersCount | FollowingCount | WalletBalance.

#[global] Instance NumField_eq_dec : EqDecision NumField.
Proof. solve_decision. Defined.

(** One key of an [update] payload. *)
Inductive UserUpdate :=
  | Increment (f : NumField) (n : Z)    (* [f: FieldValue.increment(n)] *)
  | SetRewardClaimed (b : bool).        (* [rewardClaimed: b] *)

(** [x || 0], and the value [FieldValue.increment] starts from. *)
Definition js_num (o : option Z) : Z := default 0 o.

Definition apply_update (u : UserUpdate) (d : UserDoc) : UserDoc :=
  match u with
  | Increment FollowersCount n =>
      mkUser (Some (js_num (followersCount d) + n)) (followingCount d) (wallet_balance d)
        (rewardClaimed d) (pushToken d) (settings_notifications d) (profile d)
  | Increment FollowingCount n =>
      mkUser (followersCount d) (Some (js_num (followingCount d) + n)) (wallet_balance d)
        (rewardClaimed d) (pushToken d) (settings_notifications d) (profile d)
  | Increment WalletBalance n =>
      mkUser (followersCount d) (followingCount d) (Some (js_num (wallet_balance d) + n))
        (rewardClaimed d) (pushToken d) (settings_notifications d) (profile d)
  | SetRewardClaimed b =>
      mkUser (followersCount d) (followingCount d) (wallet_balance d)
        b (pushToken d) (settings_notifications d) (profile d)
  end.

Definition apply_updates (us : list UserUpdate) (d : UserDoc) : UserDoc :=
  foldl (λ d' u, apply_update u d') d us.

(** [db.collection('users').doc(uid).get()]: [None] is [!doc.exists]. *)
Definition get_user (uid : string) (w : World) : Res (option UserDoc) * World :=
  (inl (users w !! uid), w).

(** [db.collection('settings').doc('rewardRule').get()]. *)
Definition get_rewardRule (w : World) : Res (option RewardRule) * World :=
  (inl (rewardRule w), w).

(** [userRef.update(payload)]: rejects when the document does not exist. *)
Definition update_user (uid : string) (us : list UserUpdate) (w : World) : Res unit * World :=
  match users w !! uid with
  | Some d => (inl tt, set_users (<[uid := apply_updates us d]>) w)
  | None => (inr NotFound, w)
  end.

(** The auto id of a new document: one no transaction carries. *)
Definition auto_id (w : World) : nat :=
  fresh (set_map snd (dom (transactions w)) : gset nat).

(** [db.collection('users').doc(uid).collection('transactions').add(tx)]. *)
Definition add_transaction (uid : string) (tx : Transaction) (w : World) : Res unit * World :=
  (inl tt, set_transactions (<[(uid, auto_id w) := tx]>) w).

(** [db.collection('chats').doc(chatId).get()]. *)
Definition get_chat (chatId : string) (w : World) : Res (option Chat) * World :=
  (inl (chats w !! chatId), w).

(** ** The push gateway *)

Inductive Response := JsonBody (receipt_ok : bool) | OtherBody.

(** [fetch('https://exp.host/--/api/v2/push/send', {method: 'POST', ...})]. *)
Definition gateway_fetch (m : PushMessage) (w : World) : Res Response * World :=
  match gateway w with
  | NetworkFailure => (inr FetchFailed, post_request m w)
  | NonJsonResponse => (inl OtherBody, post_request m w)
  | ReceiptOk => (inl (JsonBody true), post_request m w)
  | ReceiptError => (inl (JsonBody false), post_request m w)
  end.

(** [response.json()]. *)
Definition response_json (r : Response) (w : World) : Res bool * World :=
  match r with
  | JsonBody ok => (inl ok, w)
  | OtherBody => (inr JsonSyntaxError, w)
  end.

(** [sendPushNotification(message)]. *)
Definition sendPushNotification (message : PushMessage) : Prog unit :=
  try_catch
    (response ← await (gateway_fetch message);
     _ ← await (response_json response);
     console_log "Push notification sent:")
    (λ error, console_error "Error sending push notification:" error).

(** ** checkFollowerReward *)

(** [a >= b] where [b] may be [undefined]: then the comparison is false. *)
Definition js_ge (a : Z) (b : option Z) : bool :=
  match b with
  | Some t => bool_decide (t ≤ a)
  | None => false
  end.

(** [`${threshold}`]. *)
Definition template_num (o : option Z) : jsstring :=
  match o with
  | Some n => num_to_string n
  | None => utf16 "undefined"
  end.

Definition rupee : jsstring := [8377%N].
Definition party_popper : jsstring := [55356%N; 57225%N].

Definition reward_description (threshold : option Z) : jsstring :=
  utf16 "Milestone reward for reaching " ++ template_num threshold ++ utf16 " followers".

Definition reward_message (token : string) (rewardAmount : Z) (threshold : option Z)
    : PushMessage :=
  {| to := token;
     sound := "default";
     title := utf16 "Congratulations! " ++ party_popper;
     body := utf16 "You've earned " ++ rupee ++ num_to_string rewardAmount
             ++ utf16 " for reaching " ++ template_num threshold ++ utf16 " followers!";
     data := RewardData rewardAmount |}.

(** The [onCreate] handler of [users/{userId}/followers/{followerId}]. *)
Definition checkFollowerReward (userId : string) : Prog unit :=
  try_catch
    (userDoc ← await (get_user userId);
     match userDoc with
     | None => console_log "User not found:"
     | Some userData =>
         let currentFollowers := js_num (followersCount userData) in
         settingsDoc ← await get_rewardRule;
         let threshold :=
           match settingsDoc with
           | Some s => followerThreshold s
           | None => Some 5000
           end in
         if js_ge currentFollowers threshold && negb (rewardClaimed userData) then
           let rewardAmount := 1000 in
           _ ← await (update_user userId
                        [Increment WalletBalance rewardAmount; SetRewardClaimed true]);
           _ ← await (add_transaction userId
                        {| tx_type := "reward";
                           tx_amount := rewardAmount;
                           tx_description := reward_description threshold;
                           tx_createdAt := ServerTimestamp |});
           _ ← (if truthy_id (pushToken userData) then
                  sendPushNotification
                    (reward_message (default "" (pushToken userData)) rewardAmount threshold)
                else Ret tt);
           console_log "Reward awarded to user"
         else Ret tt
     end)
    (λ error, console_error "Error in checkFollowerReward:" error).

(** ** sendMessageNotification *)

(** [text.length > 50 ? text.substring(0, 50) + '...' : text]. *)
Definition preview (t : jsstring) : jsstring :=
  if bool_decide (50 < js_length t) then substring 0 50 t ++ utf16 "..." else t.

Definition message_notification (token chatId : string) (messageData : Message)
    : PushMessage :=
  {| to := token;
     sound := "default";
     title := if truthy_text (senderName messageData)
              then default [] (senderName messageData)
              else utf16 "New Message";
     body := preview (text messageData);
     data := MessageData chatId (senderId messageData) |}.

(** The [onCreate] handler of [chats/{chatId}/messages/{messageId}];
    [messageData] is [snap.data()]. *)
Definition sendMessageNotification (chatId : string) (messageData : Message) : Prog unit :=
  try_catch
    (chatDoc ← await (get_chat chatId);
     match chatDoc with
     | None => Ret tt
     | Some chatData =>
         let recipientId :=
           find (λ id, negb (String.eqb id (senderId messageData))) (participants chatData) in
         if negb (truthy_id recipientId) then Ret tt
         else
           recipientDoc ← await (get_user (default "" recipientId));
           match recipientDoc with
           | None => Ret tt
           | Some recipientData =>
               if negb (truthy_id (pushToken recipientData))
                  || negb (settings_notifications recipientData)
               then Ret tt
               else
                 sendPushNotification
                   (message_notification (default "" (pushToken recipientData))
                      chatId messageData)
           end
     end)
    (λ error, console_error "Error in sendMessageNotification:" error).

(** ** Batched writes *)

Inductive DocRef :=
  | UserRef (uid : string)
  | PostRef (postId : string)
  | CommentRef (postId commentId : string)
  | ChatRef (chatId : string)
  | FollowingRef (owner target : string)
  | FollowersRef (userId followerId : string)
  | TransactionRef (uid : string) (id : nat).

Inductive BatchWrite :=
  | BDelete (ref : DocRef)                               (* [batch.delete(ref)] *)
  | BUpdateUser (uid : string) (us : list UserUpdate)    (* [batch.update(userRef, ...)] *)
  | BArrayRemove (chatId : string) (uid : string).
      (* [batch.update(chatRef, {participants: FieldValue.arrayRemove(uid)})] *)

Definition delete_doc (r : DocRef) (w : World) : World :=
  match r with
  | UserRef uid => set_users (delete uid) w
  | PostRef p => set_posts (delete p) w
  | CommentRef p c => set_comments (delete (p, c)) w
  | ChatRef c => set_chats (delete c) w
  | FollowingRef o t => set_following (λ s, s ∖ {[(o, t)]}) w
  | FollowersRef u f => set_followers (λ s, s ∖ {[(u, f)]}) w
  | TransactionRef u i => set_transactions (delete (u, i)) w
  end.

(** [FieldValue.arrayRemove(x)] removes every occurrence of [x]. *)
Definition arrayRemove (x : string) (l : list string) : list string :=
  filter (λ y, y ≠ x) l.

(** One write of a batch; [None] when its precondition fails (an update
    of a document that does not exist). *)
Definition apply_write (b : BatchWrite) (w : World) : option World :=
  match b with
  | BDelete r => Some (delete_doc r w)
  | BUpdateUser uid us =>
      d ← users w !! uid;
      Some (set_users (<[uid := apply_updates us d]>) w)
  | BArrayRemove c uid =>
      ch ← chats w !! c;
      Some (set_chats (<[c := mkChat (arrayRemove uid (participants ch)) (lastMessage ch)]>) w)
  end.

Fixpoint apply_batch (bs : list BatchWrite) (w : World) : option World :=
  match bs with
  | [] => Some w
  | b :: rest => w' ← apply_write b w; apply_batch rest w'
  end.

(** [batch.commit()]: every write or none. *)
Definition commit (batch : list BatchWrite) (w : World) : Res unit * World :=
  match apply_batch batch w with
  | Some w' => (inl tt, w')
  | None => (inr NotFound, w)
  end.

(** ** updateFollowerCounts *)

Record Change := mkChange { before_exists : bool; after_exists : bool }.

(** The batch the handler builds before committing. *)
Definition follower_count_batch (change : Change) (userId followerId : string)
    : list BatchWrite :=
  if after_exists change && negb (before_exists change) then
    [BUpdateUser userId [Increment FollowersCount 1];
     BUpdateUser followerId [Increment FollowingCount 1]]
  else if negb (after_exists change) && before_exists change then
    [BUpdateUser userId [Increment FollowersCount (-1)];
     BUpdateUser followerId [Increment FollowingCount (-1)]]
  else [].

(** The [onWrite] handler of [users/{userId}/followers/{followerId}]. *)
Definition updateFollowerCounts (change : Change) (userId followerId : string) : Prog unit :=
  try_catch
    (await (commit (follower_count_batch change userId followerId)))
    (λ error, console_error "Error updating follower counts:" error).

(** ** deleteUserAccount *)

(** What each query of the purge finds in a world. *)
Definition posts_by (userId : string) (w : World) : list string :=
  (map_to_list (filter (λ kv, post_userId kv.2 = userId) (posts w))).*1.
Definition comments_by (userId : string) (w : World) : list (string * string) :=
  (map_to_list (filter (λ kv, comment_userId kv.2 = userId) (comments w))).*1.
Definition chats_with (userId : string) (w : World) : list (string * Chat) :=
  map_to_list (filter (λ kv, userId ∈ participants kv.2) (chats w)).
Definition following_of (userId : string) (w : World) : list (string * string) :=
  elements (filter (λ e, e.1 = userId) (following w)).
Definition followers_of (userId : string) (w : World) : list (string * string) :=
  elements (filter (λ e, e.1 = userId) (followers w)).
Definition transaction_ids_of (userId : string) (w : World) : list (string * nat) :=
  (map_to_list (filter (λ kv, kv.1.1 = userId) (transactions w))).*1.

(** [db.collection('posts').where('userId', '==', userId).get()]. *)
Definition query_posts (userId : string) (w : World) : Res (list string) * World :=
  (inl (posts_by userId w), w).

(** [db.collectionGroup('comments').where('userId', '==', userId).get()]. *)
Definition query_comments (userId : string) (w : World)
    : Res (list (string * string)) * World :=
  (inl (comments_by userId w), w).

(** [db.collection('chats').where('participants', 'array-contains', userId).get()]. *)
Definition query_chats (userId : string) (w : World)
    : Res (list (string * Chat)) * World :=
  (inl (chats_with userId w), w).

(** [.collection('following').get()], [.collection('followers').get()] and
    [.collection('transactions').get()] under [users/{userId}]. *)
Definition list_following (userId : string) (w : World)
    : Res (list (string * string)) * World :=
  (inl (following_of userId w), w).

Definition list_followers (userId : string) (w : World)
    : Res (list (string * string)) * World :=
  (inl (followers_of userId w), w).

Definition list_transactions (userId : string) (w : World)
    : Res (list (string * nat)) * World :=
  (inl (transaction_ids_of userId w), w).

(** [bucket.deleteFiles({prefix})] is not one request: the client
    library lists the objects under the prefix and sends one delete per
    object, several at a time.  An object whose delete fails stays, the
    others go, and the call rejects with the first error. *)

(** The listing: the names under the prefix. *)
Definition list_objects (pre : string) (w : World) : Res (list string) * World :=
  (inl (elements (filter (λ name, String.prefix pre name = true) (bucket w))), w).

(** [file.delete()]. *)
Definition delete_object (name : string) (w : World) : Res unit * World :=
  (inl tt, set_bucket (λ b, b ∖ {[name]}) w).

(** The deletes; [error] is the first rejection met so far. *)
Fixpoint delete_each (names : list string) (error : option JsError) : Prog unit :=
  match names with
  | [] =>
      match error with
      | Some e => Throw e
      | None => Ret tt
      end
  | name :: names' =>
      Await (delete_object name)
        (λ r, delete_each names'
                match error, r with
                | None, inr e => Some e
                | _, _ => error
                end)
  end.

Definition deleteFiles (pre : string) : Prog unit :=
  names ← await (list_objects pre);
  delete_each names None.

(** [admin.auth().deleteUser(uid)]: rejects when there is no such user. *)
Definition deleteUser (uid : string) (w : World) : Res unit * World :=
  if bool_decide (uid ∈ credentials w)
  then (inl tt, set_credentials (λ s, s ∖ {[uid]}) w)
  else (inr AuthUserNotFound, w).

Record PurgeResult := mkResult { success : bool }.

(** The writes the loop over [chatsSnapshot.docs] adds to the batch. *)
Definition chat_writes (userId : string) (chatsSnapshot : list (string * Chat))
    : list BatchWrite :=
  (λ chatDoc,
     if bool_decide (length (participants chatDoc.2) = 1%nat)
     then BDelete (ChatRef chatDoc.1)
     else BArrayRemove chatDoc.1 userId) <$> chatsSnapshot.

(** The callable; [auth] is [context.auth] reduced to its [uid], [data]
    is the request payload. *)
Definition deleteUserAccount (data : list (string * jsstring)) (auth : option string)
    : Prog PurgeResult :=
  match auth with
  | None => Throw (HttpsError unauthenticated "User must be authenticated")
  | Some userId =>
      try_catch
        (let batch := [BDelete (UserRef userId)] in
         postsSnapshot ← await (query_posts userId);
         let batch := batch ++ (BDelete ∘ PostRef <$> postsSnapshot) in
         commentsQuery ← await (query_comments userId);
         let batch := batch ++ ((λ k, BDelete (CommentRef k.1 k.2)) <$> commentsQuery) in
         chatsSnapshot ← await (query_chats userId);
         let batch := batch ++ chat_writes userId chatsSnapshot in
         followingSnapshot ← await (list_following userId);
         let batch := batch ++ ((λ e, BDelete (FollowingRef e.1 e.2)) <$> followingSnapshot) in
         followersSnapshot ← await (list_followers userId);
         let batch := batch ++ ((λ e, BDelete (FollowersRef e.1 e.2)) <$> followersSnapshot) in
         transactionsSnapshot ← await (list_transactions userId);
         let batch :=
           batch ++ ((λ k, BDelete (TransactionRef k.1 k.2)) <$> transactionsSnapshot) in
         _ ← await (commit batch);
         _ ← deleteFiles ("users/" +:+ userId +:+ "/")%string;
         _ ← await (deleteUser userId);
         _ ← console_log "User account successfully deleted";
         Ret {| success := true |})
        (λ error,
           _ ← console_error "Error deleting user account:" error;
           Throw (HttpsError internal "Failed to delete user account"))
  end.

(** ** The client follow flow ([OtherProfileScreen.js]) under [firebase.rules]

    Client requests carry the uid the app is signed in with. *)

(** [match /users/{userId}]: [request.auth.uid == userId]. *)
Definition rule_user (caller userId : string) : bool := String.eqb caller userId.
(** [match /following/{followId}]: [request.auth.uid == userId]. *)
Definition rule_following (caller owner : string) : bool := String.eqb caller owner.
(** [match /followers/{followerId}]: [request.auth != null]. *)
Definition rule_followers (caller userId : string) : bool := true.

Definition guarded {X} (allowed : bool) (io : World → Res X * World) (w : World)
    : Res X * World :=
  if allowed then io w else (inr PermissionDenied, w).

(** [setDoc]/[deleteDoc] on the two edge documents, [updateDoc] and
    [getDoc] on a user document. *)
Definition client_set_following (caller owner target : string) :=
  guarded (rule_following caller owner)
    (λ w, (inl tt, set_following (λ s, s ∪ {[(owner, target)]}) w)).
Definition client_delete_following (caller owner target : string) :=
  guarded (rule_following caller owner)
    (λ w, (inl tt, set_following (λ s, s ∖ {[(owner, target)]}) w)).
Definition client_set_followers (caller userId followerId : string) :=
  guarded (rule_followers caller userId)
    (λ w, (inl tt, set_followers (λ s, s ∪ {[(userId, followerId)]}) w)).
Definition client_delete_followers (caller userId followerId : string) :=
  guarded (rule_followers caller userId)
    (λ w, (inl tt, set_followers (λ s, s ∖ {[(userId, followerId)]}) w)).
Definition client_update_user (caller uid : string) (us : list UserUpdate) :=
  guarded (rule_user caller uid) (update_user uid us).
Definition client_get_user (caller uid : string) :=
  guarded (rule_user caller uid) (get_user uid).

(** [loadUserProfile]: the result only feeds the screen. *)
Definition loadUserProfile (me userId : string) : Prog unit :=
  try_catch
    (_ ← await (client_get_user me userId); Ret tt)
    (λ error, console_error "Error loading user profile:" error).

(** [handleFollow], for the signed-in user [me] on the profile of
    [userId]; the result is the [isFollowing] state it leaves. *)
Definition handleFollow (me userId : string) (isFollowing followLoading : bool)
    : Prog bool :=
  if followLoading then Ret isFollowing
  else
    try_catch
      (if isFollowing then
         _ ← await (client_delete_following me me userId);
         _ ← await (client_delete_followers me userId me);
         _ ← await (client_update_user me me [Increment FollowingCount (-1)]);
         _ ← await (client_update_user me userId [Increment FollowersCount (-1)]);
         _ ← loadUserProfile me userId;
         Ret false
       else
         _ ← await (client_set_following me me userId);
         _ ← await (client_set_followers me userId me);
         _ ← await (client_update_user me me [Increment FollowingCount 1]);
         _ ← await (client_update_user me userId [Increment FollowersCount 1]);
         _ ← loadUserProfile me userId;
         Ret true)
      (λ error,
         _ ← console_error "Error updating follow status:" error;
         Ret isFollowing).

(** One tap on the follow button and the triggers the platform then
    delivers, each once, for the write to
    [users/{userId}/followers/{me}]: [updateFollowerCounts] with the
    change, and [checkFollowerReward] when the document was created. *)
Definition follow_and_settle (me userId : string) (isFollowing : bool) (w : World)
    : bool * World :=
  let '(r, w1) := exec [] (handleFollow me userId isFollowing false) w in
  let change :=
    {| before_exists := bool_decide ((userId, me) ∈ followers w);
       after_exists := bool_decide ((userId, me) ∈ followers w1) |} in
  let w2 := (exec [] (updateFollowerCounts change userId me) w1).2 in
  let w3 :=
    if after_exists change && negb (before_exists change)
    then (exec [] (checkFollowerReward userId) w2).2
    else w2 in
  (match r with inl b => b | inr _ => isFollowing end, w3).

(** The counters against the edge documents. *)
Definition count_followers (userId : string) (w : World) : Z :=
  Z.of_nat (size (filter (λ e, e.1 = userId) (followers w))).
Definition count_following (owner : string) (w : World) : Z :=
  Z.of_nat (size (filter (λ e, e.1 = owner) (following w))).

(** ** Observations used by the theorems *)

Definition set_gateway (g : GatewayOutcome) (w : World) : World :=
  mkWorld (users w) (following w) (followers w) (transactions w) (rewardRule w)
    (posts w) (comments w) (chats w) (messages w) (bucket w) (credentials w)
    (outbox w) (console w) g.

(** [wallet.balance] of a user, [0] when the user or the field is missing. *)
Definition wallet_of (uid : string) (w : World) : Z :=
  js_num (users w !! uid ≫= wallet_balance).

Definition claimed_of (uid : string) (w : World) : bool :=
  default false (rewardClaimed <$> users w !! uid).

(** The documents of [users/{uid}/transactions]. *)
Definition transactions_of (uid : string) (w : World) : gmap (string * nat) Transaction :=
  filter (λ kv, kv.1.1 = uid) (transactions w).

(** How many of them have type ['reward']. *)
Definition reward_transactions (uid : string) (w : World) : nat :=
  size (filter (λ kv, tx_type kv.2 = "reward") (transactions_of uid w)).

(** The threshold [checkFollowerReward] compares with. *)
Definition threshold_of (w : World) : option Z :=
  match rewardRule w with
  | Some s => followerThreshold s
  | None => Some 5000
  end.

(** The user document after the reward update, and the record added. *)
Definition credited (amount : Z) (d : UserDoc) : UserDoc :=
  mkUser (followersCount d) (followingCount d) (Some (js_num (wallet_balance d) + amount))
    true (pushToken d) (settings_notifications d) (profile d).

Definition reward_tx (amount : Z) (threshold : option Z) : Transaction :=
  {| tx_type := "reward";
     tx_amount := amount;
     tx_description := reward_description threshold;
     tx_createdAt := ServerTimestamp |}.

(** Deliveries of the two follower-edge triggers, each run to completion
    before the next starts, with the faults its requests meet. *)
Inductive Delivery :=
  | RewardCheck (userId : string) (faults : list bool)
  | CountUpdate (change : Change) (userId followerId : string) (faults : list bool).

Definition deliver (d : Delivery) (w : World) : World :=
  match d with
  | RewardCheck u fs => (exec fs (checkFollowerReward u) w).2
  | CountUpdate c u f fs => (exec fs (updateFollowerCounts c u f) w).2
  end.

Definition deliver_all (ds : list Delivery) (w : World) : World :=
  foldl (λ w' d, deliver d w') w ds.

(** The batch [deleteUserAccount] has built when it commits, for the
    world its queries read. *)
Definition purge_batch (userId : string) (w : World) : list BatchWrite :=
  (((((([BDelete (UserRef userId)]
        ++ (BDelete ∘ PostRef <$> posts_by userId w))
       ++ ((λ k, BDelete (CommentRef k.1 k.2)) <$> comments_by userId w))
      ++ chat_writes userId (chats_with userId w))
     ++ ((λ e, BDelete (FollowingRef e.1 e.2)) <$> following_of userId w))
    ++ ((λ e, BDelete (FollowersRef e.1 e.2)) <$> followers_of userId w))
   ++ ((λ k, BDelete (TransactionRef k.1 k.2)) <$> transaction_ids_of userId w)).

(** A uniform view of the documents a batch can write. *)
Inductive Doc :=
  | DUser (d : UserDoc)
  | DPost (p : Post)
  | DComment (c : Comment)
  | DChat (c : Chat)
  | DEdge
  | DTransaction (t : Transaction).

Definition doc_at (r : DocRef) (w : World) : option Doc :=
  match r with
  | UserRef uid => DUser <$> users w !! uid
  | PostRef p => DPost <$> posts w !! p
  | CommentRef p c => DComment <$> comments w !! (p, c)
  | ChatRef c => DChat <$> chats w !! c
  | FollowingRef o t => if decide ((o, t) ∈ following w) then Some DEdge else None
  | FollowersRef u f => if decide ((u, f) ∈ followers w) then Some DEdge else None
  | TransactionRef u i => DTransaction <$> transactions w !! (u, i)
  end.

(** The document a write is addressed to, and what it makes of it. *)
Definition touches (b : BatchWrite) : DocRef :=
  match b with
  | BDelete r => r
  | BUpdateUser uid _ => UserRef uid
  | BArrayRemove c _ => ChatRef c
  end.

Definition effect (b : BatchWrite) (o : option Doc) : option Doc :=
  match b, o with
  | BDelete _, _ => None
  | BUpdateUser _ us, Some (DUser d) => Some (DUser (apply_updates us d))
  | BArrayRemove _ uid, Some (DChat ch) =>
      Some (DChat (mkChat (arrayRemove uid (participants ch)) (lastMessage ch)))
  | _, _ => o
  end.

#[global] Instance DocRef_eq_dec : EqDecision DocRef.
Proof. solve_decision. Defined.

Definition doc_step (r : DocRef) (o : option Doc) (b : BatchWrite) : option Doc :=
  if decide (touches b = r) then effect b o else o.

(** The documents the purge of [userId] is entitled to write: the
    user's own, and the chats the user takes part in. *)
Definition owned_by (userId : string) (w : World) (r : DocRef) : Prop :=
  match r with
  | UserRef uid => uid = userId
  | PostRef p => post_userId <$> posts w !! p = Some userId
  | CommentRef p c => comment_userId <$> comments w !! (p, c) = Some userId
  | ChatRef c => ∃ ch, chats w !! c = Some ch ∧ userId ∈ participants ch
  | FollowingRef o _ => o = userId
  | FollowersRef u _ => u = userId
  | TransactionRef u _ => u = userId
  end.

(** The error every failure of the purge is turned into. *)
Definition purge_failed : JsError :=
  HttpsError internal "Failed to delete user account".

(** The storage namespace of a user. *)
Definition user_prefix (userId : string) : string := "users/" +:+ userId +:+ "/".

(** Two worlds with the same Firestore, Storage and Auth content; they
    may differ in the console, the gateway and its requests. *)
Definition same_rest (w w' : World) : Prop :=
  following w' = following w ∧ followers w' = followers w ∧
  rewardRule w' = rewardRule w ∧ posts w' = posts w ∧ comments w' = comments w ∧
  chats w' = chats w ∧ messages w' = messages w ∧ bucket w' = bucket w ∧
  credentials w' = credentials w.

Definition same_store (w w' : World) : Prop :=
  users w' = users w ∧ transactions w' = transactions w ∧ same_rest w w'.

(** ** Sample worlds *)

(** [bea] has reached the default threshold and has a push token; [ann]
    is a new account. *)
Definition bea : UserDoc :=
  mkUser (Some 5000) (Some 3) (Some 20) false (Some "ExponentPushToken[bea]") true
    [("username", utf16 "bea")].
Definition ann : UserDoc :=
  mkUser (Some 0) (Some 0) (Some 0) false None true [("username", utf16 "ann")].

Definition empty_world : World :=
  mkWorld ∅ ∅ ∅ ∅ None ∅ ∅ ∅ ∅ ∅ ∅ [] [] ReceiptOk.

(** Two signed-up users, no edges, no [settings/rewardRule]. *)
Definition two_users : World :=
  set_credentials (λ _, {["ann"; "bea"]})
    (set_users (λ _, {[ "ann" := ann; "bea" := bea ]}) empty_world).

(** The same with [settings/rewardRule = {followerThreshold: 5000,
    rewardAmount: 250}]. *)
Definition two_users_rule_250 : World :=
  mkWorld (users two_users) ∅ ∅ ∅ (Some (mkRule (Some 5000) (Some 250)))
    ∅ ∅ ∅ ∅ ∅ (credentials two_users) [] [] ReceiptOk.

(** [ann] and [bea] follow each other; [ann] has a post, a comment
    under a post of [bea], a reward record, a chat with herself alone (a
    chat whose other participant was purged), a chat with [bea] and files
    in Storage. *)
Definition social_world : World :=
  mkWorld
    {[ "ann" := ann; "bea" := bea ]}
    {[ ("ann", "bea"); ("bea", "ann") ]}
    {[ ("ann", "bea"); ("bea", "ann") ]}
    {[ ("ann", 0%nat) := mkTx "reward" 1000 (utf16 "Milestone reward") ServerTimestamp;
       ("bea", 0%nat) := mkTx "reward" 1000 (utf16 "Milestone reward") ServerTimestamp ]}
    None
    {[ "p1" := mkPost "ann" (utf16 "sunrise"); "p2" := mkPost "bea" (utf16 "sunset") ]}
    {[ ("p2", "c1") := mkComment "ann" (utf16 "nice"); ("p1", "c2") := mkComment "bea" (utf16 "wow") ]}
    {[ "ann_zoe" := mkChat ["ann"] (utf16 "bye"); "ann_bea" := mkChat ["ann"; "bea"] (utf16 "hi") ]}
    {[ ("ann_bea", 0%nat) := mkMessage "bea" (Some (utf16 "Bea")) (utf16 "hi");
       ("ann_zoe", 0%nat) := mkMessage "zoe" None (utf16 "bye") ]}
    {[ "users/ann/avatar.jpg"; "users/bea/avatar.jpg"; "posts/p1.jpg" ]}
    {[ "ann"; "bea" ]}
    [] [] ReceiptOk.

(** [cy] is one follower short of the default threshold; [ann] is
    about to follow. *)
Definition almost_there : World :=
  set_credentials (λ _, {["ann"; "cy"]})
    (set_users
       (λ _, {[ "ann" := ann;
                "cy" := mkUser (Some 4999) (Some 0) (Some 0) false None true
                          [("username", utf16 "cy")] ]})
       empty_world).

(** Two new accounts: no edges, every counter 0. *)
Definition newcomers : World :=
  set_credentials (λ _, {["ann"; "cy"]})
    (set_users (λ _, {[ "ann" := ann; "cy" := ann ]}) empty_world).

(** ** The rest of the profile screen ([OtherProfileScreen.js]) *)


(** [getDoc(doc(db, 'users', owner, 'following', target)).exists()]. *)
Definition client_get_following (caller owner target : string) :=
  guarded (rule_following caller owner)
    (λ w, (inl (bool_decide ((owner, target) ∈ following w)), w)).

(** [checkFollowStatus]: the [isFollowing] state it leaves. *)
Definition checkFollowStatus (me userId : string) (isFollowing : bool) : Prog bool :=
  try_catch
    (followDoc ← await (client_get_following me me userId); Ret followDoc)
    (λ error,
       _ ← console_error "Error checking follow status:" error;
       Ret isFollowing).

(** [[a, b].sort()]: the default order of [sort] compares the strings
    code unit by code unit; ids are ASCII, where this is the order of
    [String.ltb]. *)
Definition sort2 (a b : string) : list string :=
  if String.ltb b a then [b; a] else [a; b].

(** [[user.uid, userId].sort().join('_')]. *)
Definition chat_id (me userId : string) : string :=
  String.concat "_" (sort2 me userId).

(** An id without the separator of [chat_id]; the uids the
    authentication service issues are alphanumeric. *)
Fixpoint no_separator (s : string) : bool :=
  match s with
  | EmptyString => true
  | String c s' => negb (Ascii.eqb c "_") && no_separator s'
  end.





(** ** The reward progress of the wallet screen ([WalletScreen.js]) *)

(** [rewardThreshold] after [loadRewardSettings]: the state starts at
    5000 and is set to [followerThreshold || 5000] when the settings
    document exists. *)
Definition screen_threshold (settingsDoc : option RewardRule) : Z :=
  match settingsDoc with
  | Some s =>
      match followerThreshold s with
      | Some 0 | None => 5000
      | Some t => t
      end
  | None => 5000
  end.

(** [Math.max(rewardThreshold - progressToReward, 0)] with
    [progressToReward = userProfile?.followersCount || 0]. *)
Definition remainingFollowers (settingsDoc : option RewardRule) (count : option Z) : Z :=
  Z.max (screen_threshold settingsDoc - js_num count) 0.

(** ** Further observations *)

(** The test of [checkFollowerReward] on what the store holds. *)
Definition reward_due (uid : string) (w : World) : bool :=
  match users w !! uid with
  | Some d => js_ge (js_num (followersCount d)) (threshold_of w) && negb (rewardClaimed d)
  | None => false
  end.

(** No Firestore document of the user is left, and no seat in a chat. *)
Definition documents_purged (U : string) (w : World) : Prop :=
  users w !! U = None ∧
  (∀ p post, posts w !! p = Some post → post_userId post ≠ U) ∧
  (∀ k c, comments w !! k = Some c → comment_userId c ≠ U) ∧
  (∀ c ch, chats w !! c = Some ch → U ∉ participants ch) ∧
  (∀ t, (U, t) ∉ following w) ∧
  (∀ f, (U, f) ∉ followers w) ∧
  (∀ i, transactions w !! (U, i) = None).

(** No stored object under [users/U/] is left. *)
Definition files_purged (U : string) (w : World) : Prop :=
  ∀ name, name ∈ bucket w → String.prefix (user_prefix U) name = false.

(** Nothing of the user is left. *)
Definition purged (U : string) (w : World) : Prop :=
  documents_purged U w ∧ files_purged U w ∧ U ∉ credentials w.

(** What a write of a batch needs to find: an update needs its document. *)
Definition ready (b : BatchWrite) (w : World) : Prop :=
  match b with
  | BDelete _ => True
  | _ => is_Some (doc_at (touches b) w)
  end.

(** * Theorems *)

(** ** Running programs *)

Lemma exec_await_split {A X} (P : Res A * World → Prop) fs
    (io : World → Res X * World) (k : Res X → Prog A) w :
  (∀ fs', P (exec fs' (k (inr Unavailable)) w)) →
  (∀ fs', P (exec fs' (k (io w).1) (io w).2)) →
  P (exec fs (Await io k) w).
Proof.
  intros Hfault Hok. simpl.
  destruct fs as [|[] fs]; [ | apply Hfault | ];
    destruct (io w) as [r w'] eqn:E;
    specialize (Hok (tail (A:=bool) [])) as Hnil;
    rewrite ?E in *; simpl in *; first [ exact Hnil | apply (Hok fs) ].
Qed.

Lemma same_rest_refl w : same_rest w w.
Proof. by repeat split. Qed.

Lemma same_store_refl w : same_store w w.
Proof. by repeat split. Qed.

Lemma same_rest_trans w1 w2 w3 : same_rest w1 w2 → same_rest w2 w3 → same_rest w1 w3.
Proof. unfold same_rest. intros H1 H2. destruct_and!. repeat split; congruence. Qed.

Lemma same_store_trans w1 w2 w3 : same_store w1 w2 → same_store w2 w3 → same_store w1 w3.
Proof.
  intros (?&?&?) (?&?&?). repeat split; try congruence.
  all: eapply same_rest_trans; eauto.
Qed.

Lemma same_store_log l w : same_store w (log l w).
Proof. by repeat split. Qed.

Lemma same_store_post m w : same_store w (post_request m w).
Proof. by repeat split. Qed.

Create HintDb store.
#[local] Hint Resolve same_rest_refl same_store_refl same_store_log same_store_post : store.

Lemma exec_ret {A} fs (a : A) w : exec fs (Ret a) w = (inl a, w).
Proof. reflexivity. Qed.
Lemma exec_throw {A} fs e w : exec fs (Throw e : Prog A) w = (inr e, w).
Proof. reflexivity. Qed.
Lemma exec_log {A} fs l (k : Prog A) w : exec fs (Log l k) w = exec fs k (log l w).
Proof. reflexivity. Qed.

(** An invocation scheduled alone, for long enough, is the run to
    completion in which no request fails. *)
Lemma interleave_alone {A} (p : Prog A) w :
  ∃ n, ∀ m, (n ≤ m)%nat →
    interleave (replicate m 0%nat) [p] w = ([ended (exec [] p w).1], (exec [] p w).2).
Proof.
  revert w. induction p as [a|e|l k IH|X io k IH]; intros w.
  - exists 0%nat. intros m _. induction m as [|m IHm]; [done|]. cbn. apply IHm.
  - exists 0%nat. intros m _. induction m as [|m IHm]; [done|]. cbn. apply IHm.
  - destruct (IH (log l w)) as [n Hn]. exists (S n). intros [|m] Hm; [lia|].
    specialize (Hn (S m) ltac:(lia)). cbn in *. exact Hn.
  - destruct (io w) as [r w1] eqn:E. destruct (IH r w1) as [n Hn].
    exists (S n). intros [|m] Hm; [lia|].
    cbn. rewrite E. cbn. apply Hn. lia.
Qed.

(** Unfold the monad operations and compute the program tree up to its
    next request. *)
Ltac prog_simpl :=
  unfold mbind, prog_bind, mret, prog_ret, await, console_log, console_error in *;
  repeat (progress (cbn [bind try_catch fst snd] in *;
                    rewrite ?exec_log, ?exec_ret, ?exec_throw in * )).

(** Split on whether the next request fails in transit. *)
Ltac next_request :=
  apply exec_await_split; intros ?; prog_simpl.

(** ** The push helper *)

Ltac push_cases w :=
  unfold sendPushNotification; prog_simpl; next_request;
  [ eexists _, _; split; [|reflexivity]; auto with store
  | unfold gateway_fetch; destruct (gateway w); prog_simpl;
    [ | next_request | next_request | next_request ];
    (eexists _, _; (split; [|reflexivity]));
    repeat (eapply same_store_trans; [|apply same_store_log]);
    cbn [response_json snd]; auto with store ].

(** Whatever follows a call of [sendPushNotification] runs, on a world
    with the same documents. *)
Lemma push_then {B} fs message (k : unit → Prog B) w :
  ∃ fs' w', same_store w w' ∧
    exec fs (sendPushNotification message ≫= k) w = exec fs' (k tt) w'.
Proof. push_cases w. Qed.

(** The same inside the [try] block of the caller. *)
Lemma push_then_try {B} fs message (k : unit → Prog B) h w :
  ∃ fs' w', same_store w w' ∧
    exec fs (try_catch (bind (sendPushNotification message) k) h) w
    = exec fs' (try_catch (k tt) h) w'.
Proof. push_cases w. Qed.

Lemma exec_bind_ret {A} (p : Prog A) fs w : exec fs (p ≫= Ret) w = exec fs p w.
Proof.
  change (exec fs (bind p Ret) w = exec fs p w).
  revert fs w. induction p as [| | l k IH | X io k IH]; intros fs w; simpl; try done.
  destruct fs as [|[] fs]; [|done|]; destruct (io w); apply IH.
Qed.

(** C10: [sendPushNotification] returns normally for every message,
    every outcome of the gateway request (network failure, a body that is
    not JSON, an error receipt, a good receipt) and every request lost in
    transit; it leaves every document, stored object and credential as it
    was; and whatever the caller does after the call is run. *)
Theorem sendPushNotification_never_throws :
  ∀ (fs : list bool) (message : PushMessage) (g : GatewayOutcome) (w : World),
    let r := exec fs (sendPushNotification message) (set_gateway g w) in
    r.1 = inl tt ∧ same_store w r.2 ∧
    ∀ (B : Type) (k : unit → Prog B),
      ∃ fs' w', same_store w w' ∧
        exec fs (sendPushNotification message ≫= k) (set_gateway g w) = exec fs' (k tt) w'.
Proof.
  intros fs message g w r.
  assert (Hs : same_store w (set_gateway g w)) by by repeat split.
  destruct (push_then fs message Ret (set_gateway g w)) as (fs' & w' & Hw' & E).
  rewrite exec_bind_ret in E. subst r. rewrite E. prog_simpl.
  split; [done|]. split; [by eapply same_store_trans|].
  intros B k.
  destruct (push_then fs message k (set_gateway g w)) as (fs2 & w2 & Hw2 & E2).
  exists fs2, w2. split; [by eapply same_store_trans|done].
Qed.

(** ** The reward check *)

(** Every run of [checkFollowerReward] returns normally and either
    leaves users and transactions as they were, or credits a user whose
    flag was unset and adds at most the one record. *)
Lemma reward_run fs uid w :
  ∃ w', exec fs (checkFollowerReward uid) w = (inl tt, w') ∧ same_rest w w' ∧
    ((users w' = users w ∧ transactions w' = transactions w)
     ∨ ∃ d, users w !! uid = Some d ∧ rewardClaimed d = false ∧
         js_ge (js_num (followersCount d)) (threshold_of w) = true ∧
         users w' = <[uid := credited 1000 d]> (users w) ∧
         (transactions w' = transactions w
          ∨ transactions w' = <[(uid, auto_id w) := reward_tx 1000 (threshold_of w)]>
                                (transactions w))).
Proof.
  unfold checkFollowerReward. prog_simpl. next_request.
  { eexists. split; [done|]. split; [done|]. by left. }
  unfold get_user. cbn [fst snd].
  destruct (users w !! uid) as [d|] eqn:Hd; prog_simpl.
  2: { eexists. split; [done|]. split; [done|]. by left. }
  next_request.
  { eexists. split; [done|]. split; [done|]. by left. }
  unfold get_rewardRule. prog_simpl.
  match goal with |- context [js_ge _ ?b] => change b with (threshold_of w) end.
  destruct (js_ge (js_num (followersCount d)) (threshold_of w)) eqn:Hge; cbn [andb]; prog_simpl.
  2: { eexists. split; [done|]. split; [done|]. by left. }
  destruct (rewardClaimed d) eqn:Hc; cbn [negb]; prog_simpl.
  { eexists. split; [done|]. split; [done|]. by left. }
  next_request.
  { eexists. split; [done|]. split; [done|]. by left. }
  unfold update_user. rewrite Hd. prog_simpl.
  assert (Hcred : apply_updates [Increment WalletBalance 1000; SetRewardClaimed true] d
                  = credited 1000 d) by done.
  rewrite Hcred.
  next_request.
  { eexists. split; [done|]. split; [done|]. right. exists d. repeat split; auto. }
  unfold add_transaction. cbn [fst snd].
  destruct (truthy_id (pushToken d)); prog_simpl.
  - match goal with |- context [exec ?f (try_catch (bind (sendPushNotification ?m) ?k) ?h) ?w0] =>
      destruct (push_then_try f m k h w0) as (fs2 & w2 & (Hu & Ht & Hr) & ->) end.
    prog_simpl. eexists. split; [done|]. split.
    { eapply same_rest_trans; [|eapply same_rest_trans; [apply Hr|]]; by repeat split. }
    right. exists d. repeat split; auto.
  - eexists. split; [done|]. split; [done|]. right. exists d. repeat split; auto.
Qed.

Lemma auto_id_fresh uid w : transactions w !! (uid, auto_id w) = None.
Proof.
  apply not_elem_of_dom. intros Hin.
  apply (is_fresh (set_map snd (dom (transactions w)) : gset nat)).
  apply elem_of_map. by exists (uid, auto_id w).
Qed.

(** The run in which no request fails. *)
Lemma reward_success_run uid w d :
  users w !! uid = Some d →
  js_ge (js_num (followersCount d)) (threshold_of w) = true →
  rewardClaimed d = false →
  ∃ w', exec [] (checkFollowerReward uid) w = (inl tt, w') ∧
    users w' = <[uid := credited 1000 d]> (users w) ∧
    transactions w' = <[(uid, auto_id w) := reward_tx 1000 (threshold_of w)]> (transactions w) ∧
    outbox w' = outbox w ++
      (if truthy_id (pushToken d)
       then [reward_message (default "" (pushToken d)) 1000 (threshold_of w)]
       else []) ∧
    same_rest w w'.
Proof.
  intros Hd Hge Hc.
  unfold checkFollowerReward. prog_simpl. cbn [exec tail].
  unfold get_user at 1. rewrite Hd. prog_simpl. cbn [exec tail get_rewardRule].
  prog_simpl.
  match goal with |- context [js_ge _ ?b] => change b with (threshold_of w) end.
  rewrite Hge, Hc. cbn [andb negb]. prog_simpl. cbn [exec tail].
  unfold update_user at 1. cbn [get_user snd users]. rewrite Hd. prog_simpl.
  cbn [exec tail add_transaction]. prog_simpl.
  destruct (truthy_id (pushToken d)); prog_simpl.
  - unfold sendPushNotification. prog_simpl. cbn [exec tail].
    unfold gateway_fetch. cbn [gateway set_transactions set_users].
    destruct (gateway w); prog_simpl; cbn [exec tail response_json]; prog_simpl.
    all: eexists; split; [reflexivity|]; cbn; repeat split; by rewrite ?app_nil_r.
  - eexists; split; [reflexivity|]; cbn; repeat split; by rewrite ?app_nil_r.
Qed.

(** ** The counters *)

(** A counter update changes one counter of one document. *)
Lemma bump_user (u : string) (f : NumField) (n : Z) (d : UserDoc) (m : gmap string UserDoc) (v : string) :
  f ≠ WalletBalance →
  m !! u = Some d →
  (∃ d0 d', m !! v = Some d0 ∧ <[u := apply_updates [Increment f n] d]> m !! v = Some d' ∧
    wallet_balance d' = wallet_balance d0 ∧ rewardClaimed d' = rewardClaimed d0 ∧
    pushToken d' = pushToken d0 ∧ settings_notifications d' = settings_notifications d0 ∧
    profile d' = profile d0 ∧
    (followersCount d' =
       if decide (v = u ∧ f = FollowersCount) then Some (js_num (followersCount d0) + n)
       else followersCount d0) ∧
    (followingCount d' =
       if decide (v = u ∧ f = FollowingCount) then Some (js_num (followingCount d0) + n)
       else followingCount d0))
  ∨ (m !! v = None ∧ <[u := apply_updates [Increment f n] d]> m !! v = None).
Proof.
  intros Hf Hu. destruct (decide (v = u)) as [->|Hne].
  - left. exists d, (apply_updates [Increment f n] d).
    rewrite lookup_insert_eq. split; [done|]. split; [done|].
    destruct f; try done; cbn; repeat split; repeat (destruct (decide _) as [?|?]); intuition congruence.
  - rewrite lookup_insert_ne by done.
    destruct (m !! v) as [d0|] eqn:Hv; [left|by right].
    exists d0, d0. repeat split; try done; destruct (decide _) as [?|?]; intuition congruence.
Qed.

(** [batch.commit()] writes everything or nothing. *)
Lemma commit_all_or_nothing batch w :
  (∃ w', apply_batch batch w = Some w' ∧ commit batch w = (inl tt, w'))
  ∨ (apply_batch batch w = None ∧ commit batch w = (inr NotFound, w)).
Proof. unfold commit. destruct (apply_batch batch w); eauto. Qed.

(** The two-write batch of a creation or of a deletion, when both user
    documents exist. *)
Lemma count_batch_applies userId followerId δ w du df :
  users w !! userId = Some du →
  users w !! followerId = Some df →
  ∃ df1,
    <[userId := apply_updates [Increment FollowersCount δ] du]> (users w) !! followerId
      = Some df1 ∧
    apply_batch
      [BUpdateUser userId [Increment FollowersCount δ];
       BUpdateUser followerId [Increment FollowingCount δ]] w
    = Some (set_users
              (λ m, <[followerId := apply_updates [Increment FollowingCount δ] df1]>
                      (<[userId := apply_updates [Increment FollowersCount δ] du]> m)) w).
Proof.
  intros Hu Hf. cbn [apply_batch apply_write]. rewrite Hu. cbn [mbind option_bind].
  cbn [users set_users].
  destruct (bump_user userId FollowersCount δ du (users w) followerId)
    as [(d0 & df1 & _ & E & _)|[E _]]; try done; [|congruence].
  exists df1. split; [done|]. rewrite E. done.
Qed.

Lemma count_batch_inv userId followerId δ w wb :
  apply_batch
    [BUpdateUser userId [Increment FollowersCount δ];
     BUpdateUser followerId [Increment FollowingCount δ]] w = Some wb →
  ∃ du df1,
    users w !! userId = Some du ∧
    <[userId := apply_updates [Increment FollowersCount δ] du]> (users w) !! followerId
      = Some df1 ∧
    wb = set_users
           (λ m, <[followerId := apply_updates [Increment FollowingCount δ] df1]>
                   (<[userId := apply_updates [Increment FollowersCount δ] du]> m)) w.
Proof.
  cbn [apply_batch apply_write]. intros H.
  destruct (users w !! userId) as [du|] eqn:Hu; [|done].
  cbn [mbind option_bind users set_users] in H.
  destruct (<[userId := _]> (users w) !! followerId) as [df1|] eqn:Hf; [|done].
  cbn in H. injection H as <-. by exists du, df1.
Qed.

(** What a committed counter batch leaves of a user document. *)
Lemma count_batch_fields userId followerId δ w wb v :
  apply_batch
    [BUpdateUser userId [Increment FollowersCount δ];
     BUpdateUser followerId [Increment FollowingCount δ]] w = Some wb →
  (∃ d d', users w !! v = Some d ∧ users wb !! v = Some d' ∧
     wallet_balance d' = wallet_balance d ∧ rewardClaimed d' = rewardClaimed d ∧
     pushToken d' = pushToken d ∧ settings_notifications d' = settings_notifications d ∧
     profile d' = profile d ∧
     followersCount d' =
       (if decide (v = userId) then Some (js_num (followersCount d) + δ)
        else followersCount d) ∧
     followingCount d' =
       (if decide (v = followerId) then Some (js_num (followingCount d) + δ)
        else followingCount d))
  ∨ (users w !! v = None ∧ users wb !! v = None).
Proof.
  intros H. destruct (count_batch_inv _ _ _ _ _ H) as (du & df1 & Hu & Hf & ->).
  cbn [users set_users].
  destruct (bump_user userId FollowersCount δ du (users w) v)
    as [(d0 & d1 & H0 & H1 & Hw1 & Hc1 & Hp1 & Hs1 & Hpr1 & Hfc1 & Hfg1)|[H0 H1]];
    [done|done| |].
  - destruct (bump_user followerId FollowingCount δ df1
                (<[userId := apply_updates [Increment FollowersCount δ] du]> (users w)) v)
      as [(d1' & d2 & H1' & H2 & Hw2 & Hc2 & Hp2 & Hs2 & Hpr2 & Hfc2 & Hfg2)|[H1' _]];
      [done|done| |congruence].
    assert (d1' = d1) as -> by congruence.
    left. exists d0, d2. split; [done|]. split; [done|].
    repeat split; try congruence.
    + rewrite Hfc2, Hfc1. repeat (destruct (decide _) as [?|?]); intuition congruence.
    + rewrite Hfg2, Hfg1. repeat (destruct (decide _) as [?|?]); intuition congruence.
  - destruct (bump_user followerId FollowingCount δ df1
                (<[userId := apply_updates [Increment FollowersCount δ] du]> (users w)) v)
      as [(d1' & d2 & H1' & _)|[_ H2]]; [done|done|congruence|].
    by right.
Qed.

(** Every run of [updateFollowerCounts] returns normally; it writes no
    field but the two counters. *)
Lemma counts_run fs c userId followerId w :
  ∃ w', exec fs (updateFollowerCounts c userId followerId) w = (inl tt, w') ∧
    same_rest w w' ∧ transactions w' = transactions w ∧ outbox w' = outbox w ∧
    ∀ v, (wallet_balance <$> users w' !! v) = (wallet_balance <$> users w !! v) ∧
         (rewardClaimed <$> users w' !! v) = (rewardClaimed <$> users w !! v).
Proof.
  unfold updateFollowerCounts. prog_simpl. next_request.
  { eexists. split; [done|]. by repeat split. }
  destruct (commit_all_or_nothing (follower_count_batch c userId followerId) w)
    as [(wb & Hb & ->)|[_ ->]]; prog_simpl.
  2: { eexists. split; [done|]. by repeat split. }
  eexists. split; [done|].
  unfold follower_count_batch in Hb.
  destruct (after_exists c), (before_exists c); cbn [andb negb] in Hb.
  1,4: injection Hb as <-; by repeat split.
  all: pose proof (count_batch_inv _ _ _ _ _ Hb) as (du & df1 & _ & _ & Hwb).
  all: split; [subst wb; by repeat split|].
  all: split; [by subst wb|]; split; [by subst wb|]; intros v.
  all: destruct (count_batch_fields _ _ _ _ _ v Hb)
         as [(d & d' & E & E' & Hw & Hc & _)|[E E']]; rewrite E, E'; cbn; [|done].
  all: by rewrite Hw, Hc.
Qed.

(** The run of the reconciler for a creation ([created = true]) or a
    deletion in which the commit succeeds. *)
Lemma counts_success_run (created : bool) (userId followerId : string) (w : World)
    (du df : UserDoc) :
  users w !! userId = Some du →
  users w !! followerId = Some df →
  let change := if created then mkChange false true else mkChange true false in
  let δ := if created then 1 else -1 in
  ∃ w', exec [] (updateFollowerCounts change userId followerId) w = (inl tt, w') ∧
    (∃ du', users w' !! userId = Some du' ∧
            followersCount du' = Some (js_num (followersCount du) + δ)) ∧
    (∃ df', users w' !! followerId = Some df' ∧
            followingCount df' = Some (js_num (followingCount df) + δ)) ∧
    (∀ v, (users w !! v = None ∧ users w' !! v = None)
          ∨ ∃ d d', users w !! v = Some d ∧ users w' !! v = Some d' ∧
              wallet_balance d' = wallet_balance d ∧
              rewardClaimed d' = rewardClaimed d ∧
              pushToken d' = pushToken d ∧
              settings_notifications d' = settings_notifications d ∧
              profile d' = profile d ∧
              (v ≠ userId → followersCount d' = followersCount d) ∧
              (v ≠ followerId → followingCount d' = followingCount d)) ∧
    transactions w' = transactions w ∧ same_rest w w' ∧
    outbox w' = outbox w ∧ console w' = console w.
Proof.
  intros Hu Hf change δ.
  assert (Hbatch : follower_count_batch change userId followerId
                   = [BUpdateUser userId [Increment FollowersCount δ];
                      BUpdateUser followerId [Increment FollowingCount δ]])
    by by destruct created.
  destruct (count_batch_applies userId followerId δ w du df Hu Hf) as (df1 & Hf1 & Hb).
  unfold updateFollowerCounts. rewrite Hbatch. prog_simpl. cbn [exec tail].
  unfold commit. rewrite Hb. prog_simpl.
  eexists. split; [reflexivity|].
  split.
  { destruct (count_batch_fields _ _ _ _ _ userId Hb)
      as [(d & d' & E & E' & _ & _ & _ & _ & _ & Hfc & _)|[E _]]; [|congruence].
    exists d'. split; [done|]. rewrite Hfc, decide_True by done. congruence. }
  split.
  { destruct (count_batch_fields _ _ _ _ _ followerId Hb)
      as [(d & d' & E & E' & _ & _ & _ & _ & _ & _ & Hfg)|[E _]]; [|congruence].
    exists d'. split; [done|]. rewrite Hfg, decide_True by done. congruence. }
  split; [|by repeat split].
  intros v.
  destruct (count_batch_fields _ _ _ _ _ v Hb)
    as [(d & d' & E & E' & Hw & Hc & Hp & Hs & Hpr & Hfc & Hfg)|[E E']]; [right|by left].
  exists d, d'. repeat split; try done.
  - intros Hne. by rewrite Hfc, decide_False.
  - intros Hne. by rewrite Hfg, decide_False.
Qed.

(** Every run of the reconciler for a creation or a deletion writes what
    the run without failure writes, or nothing. *)
Lemma counts_all_or_nothing fs (created : bool) (userId followerId : string) (w : World) :
  let change := if created then mkChange false true else mkChange true false in
  let w' := (exec fs (updateFollowerCounts change userId followerId) w).2 in
  same_store w w'
  ∨ (is_Some (users w !! userId) ∧ is_Some (users w !! followerId) ∧
     same_store (exec [] (updateFollowerCounts change userId followerId) w).2 w').
Proof.
  intros change w'. subst w'.
  assert (Hbatch : ∃ δ, follower_count_batch change userId followerId
                        = [BUpdateUser userId [Increment FollowersCount δ];
                           BUpdateUser followerId [Increment FollowingCount δ]])
    by (destruct created; eauto).
  destruct Hbatch as [δ Hbatch].
  unfold updateFollowerCounts. rewrite Hbatch. prog_simpl.
  cbn [exec tail].
  apply (exec_await_split
           (λ res, same_store w res.2 ∨ (is_Some (users w !! userId) ∧ _ ∧ same_store _ res.2)));
    intros fs'; prog_simpl.
  { left. apply same_store_log. }
  destruct (commit_all_or_nothing
              [BUpdateUser userId [Increment FollowersCount δ];
               BUpdateUser followerId [Increment FollowingCount δ]] w)
    as [(wb & Hb & ->)|[_ ->]]; prog_simpl.
  2: { left. apply same_store_log. }
  right. destruct (count_batch_inv _ _ _ _ _ Hb) as (du & df1 & Hu & Hf & _).
  split; [by rewrite Hu|]. split; [|apply same_store_refl].
  destruct (decide (followerId = userId)) as [->|Hne]; [by rewrite Hu|].
  rewrite lookup_insert_ne in Hf by done. by rewrite Hf.
Qed.

(** C3 as stated fails: the claim speaks of every invocation, and an
    invocation whose batch is not applied moves no counter.  [ann] deletes
    her account, which deletes [users/ann/followers/bea]; on that deletion
    event the reconciler cannot update the document of [ann], the batch
    is rejected as a whole and [followingCount] of [bea] stays 3.  And
    when [ann] follows [bea] and the commit fails in transit, both
    documents being there, [followersCount] of [bea] stays 5000. *)
Lemma counters_not_moved_when_the_batch_is_not_applied :
  let w := (exec [] (deleteUserAccount [] (Some "ann")) social_world).2 in
  let res := exec [] (updateFollowerCounts (mkChange true false) "ann" "bea") w in
  let lost := exec [true] (updateFollowerCounts (mkChange false true) "bea" "ann")
                two_users in
  (("ann", "bea") ∈ followers social_world ∧ (("ann", "bea") ∉ followers w) ∧
   users w !! "ann" = None ∧
   (users w !! "bea" ≫= followingCount) = Some 3 ∧
   res.1 = inl tt ∧
   (users res.2 !! "bea" ≫= followingCount) = Some 3 ∧
   console res.2 = console w ++ [LogError "Error updating follower counts:" NotFound]) ∧
  (lost.1 = inl tt ∧ users lost.2 = users two_users ∧
   (users two_users !! "bea" ≫= followersCount) = Some 5000 ∧
   console lost.2 = [LogError "Error updating follower counts:" Unavailable]).
Proof. vm_compute. repeat split. intros H. discriminate H. Qed.

(** C3, as amended: for every creation event for
    [followers/{userId}/{followerId}] whose two user documents exist the
    reconciler adds 1 to [followersCount] of [userId] and 1 to
    [followingCount] of [followerId]; for every such deletion event it
    subtracts 1 from both.  Its only request is the commit of one batch
    holding the two updates: every run, failing requests included, leaves
    the store with both updates or as it was.  No other field of any user
    document, and no other document, changes.  (A counter the document
    lacks counts as 0.) *)
Theorem updateFollowerCounts_moves_both_counters :
  ∀ (created : bool) (userId followerId : string) (w : World) (du df : UserDoc),
    users w !! userId = Some du →
    users w !! followerId = Some df →
    let change := if created then mkChange false true else mkChange true false in
    let δ := if created then 1 else -1 in
    updateFollowerCounts change userId followerId
    = try_catch
        (await (commit [BUpdateUser userId [Increment FollowersCount δ];
                        BUpdateUser followerId [Increment FollowingCount δ]]))
        (λ error, console_error "Error updating follower counts:" error)
    ∧ ∃ w', exec [] (updateFollowerCounts change userId followerId) w = (inl tt, w') ∧
        (∃ du', users w' !! userId = Some du' ∧
                followersCount du' = Some (js_num (followersCount du) + δ)) ∧
        (∃ df', users w' !! followerId = Some df' ∧
                followingCount df' = Some (js_num (followingCount df) + δ)) ∧
        (∀ v, (users w !! v = None ∧ users w' !! v = None)
              ∨ ∃ d d', users w !! v = Some d ∧ users w' !! v = Some d' ∧
                  wallet_balance d' = wallet_balance d ∧
                  rewardClaimed d' = rewardClaimed d ∧
                  pushToken d' = pushToken d ∧
                  settings_notifications d' = settings_notifications d ∧
                  profile d' = profile d ∧
                  (v ≠ userId → followersCount d' = followersCount d) ∧
                  (v ≠ followerId → followingCount d' = followingCount d)) ∧
        transactions w' = transactions w ∧ same_rest w w' ∧
        outbox w' = outbox w ∧ console w' = console w ∧
        ∀ fs, let w'' := (exec fs (updateFollowerCounts change userId followerId) w).2 in
              same_store w w'' ∨ same_store w' w''.
Proof.
  intros created userId followerId w du df Hu Hf change δ.
  split; [by destruct created|].
  destruct (counts_success_run created userId followerId w du df Hu Hf)
    as (w' & E & H1 & H2 & H3 & H4 & H5 & H6 & H7).
  exists w'. repeat (split; [done|]).
  intros fs w''. subst w''.
  destruct (counts_all_or_nothing fs created userId followerId w) as [H|(_ & _ & H)];
    [by left|right].
  subst change. by rewrite E in H.
Qed.

(** An instance: [ann] starts to follow [bea]. *)
Lemma updateFollowerCounts_moves_both_counters_witness :
  let du := mkUser (Some 7) None (Some 20) false (Some "tok") true [] in
  let df := mkUser None (Some 2) None false None true [] in
  let w := mkWorld {[ "bea" := du; "ann" := df ]} ∅ {[("bea", "ann")]} ∅ None
             ∅ ∅ ∅ ∅ ∅ ∅ [] [] ReceiptOk in
  ∃ w', exec [] (updateFollowerCounts (mkChange false true) "bea" "ann") w = (inl tt, w') ∧
    (followersCount <$> users w' !! "bea") = Some (Some 8) ∧
    (followingCount <$> users w' !! "ann") = Some (Some 3).
Proof.
  intros du df w.
  destruct (updateFollowerCounts_moves_both_counters true "bea" "ann" w du df)
    as (_ & w' & E & (du' & Hu & Hfc) & (df' & Hf & Hfg) & _).
  - reflexivity.
  - reflexivity.
  - exists w'. split; [exact E|]. rewrite Hu, Hf. cbn. rewrite Hfc, Hfg. done.
Defined.

(** ** What a credit does to the observations *)

Lemma wallet_of_credited uid d n w w' :
  users w !! uid = Some d →
  users w' = <[uid := credited n d]> (users w) →
  wallet_of uid w' = wallet_of uid w + n ∧ claimed_of uid w' = true.
Proof.
  intros Hd Hu. unfold wallet_of, claimed_of.
  by rewrite Hu, lookup_insert_eq, Hd.
Qed.

Lemma credited_other uid v d n w w' :
  v ≠ uid →
  users w' = <[uid := credited n d]> (users w) →
  users w' !! v = users w !! v.
Proof. intros Hne ->. by rewrite lookup_insert_ne. Qed.

Lemma transactions_of_insert uid i tx w w' :
  transactions w' = <[(uid, i) := tx]> (transactions w) →
  transactions_of uid w' = <[(uid, i) := tx]> (transactions_of uid w).
Proof.
  intros Ht. unfold transactions_of. rewrite Ht.
  by rewrite map_filter_insert_True.
Qed.

Lemma transactions_of_insert_other uid v i tx w w' :
  v ≠ uid →
  transactions w' = <[(v, i) := tx]> (transactions w) →
  transactions w !! (v, i) = None →
  transactions_of uid w' = transactions_of uid w.
Proof.
  intros Hne Ht Hfresh. unfold transactions_of. rewrite Ht.
  rewrite map_filter_insert_False by (cbn; congruence).
  by rewrite delete_id.
Qed.

Lemma reward_transactions_insert uid i tx w w' :
  transactions w !! (uid, i) = None →
  transactions w' = <[(uid, i) := tx]> (transactions w) →
  reward_transactions uid w' =
    if decide (tx_type tx = "reward") then S (reward_transactions uid w)
    else reward_transactions uid w.
Proof.
  intros Hfresh Ht. unfold reward_transactions.
  rewrite (transactions_of_insert _ _ _ _ _ Ht).
  assert (Hnone : transactions_of uid w !! (uid, i) = None).
  { unfold transactions_of. apply map_lookup_filter_None. by left. }
  case_decide.
  - rewrite map_filter_insert_True by done.
    apply map_size_insert_None, map_lookup_filter_None. by left.
  - rewrite map_filter_insert_False by done. by rewrite delete_id.
Qed.

(** The reward when every request succeeds: when the handler runs for
    an existing user whose
    [followersCount] is at least the threshold and whose [rewardClaimed]
    is false, and every request of the run succeeds, one update adds the
    reward amount to [wallet.balance] and sets [rewardClaimed]; a second
    request then adds exactly one transaction of type ['reward'] with that
    amount; and one push request is posted exactly when the user has a
    push token.  Nothing else in the store changes.  In particular a user
    at 4999 followers with threshold 5000 is rewarded once
    [updateFollowerCounts] has counted the new follower before
    [checkFollowerReward] reads the count. *)
Theorem reward_granted_when_requests_succeed :
  (∀ (uid : string) (w : World) (d : UserDoc),
     users w !! uid = Some d →
     js_ge (js_num (followersCount d)) (threshold_of w) = true →
     rewardClaimed d = false →
     ∃ w', exec [] (checkFollowerReward uid) w = (inl tt, w') ∧
       users w' = <[uid := credited 1000 d]> (users w) ∧
       wallet_of uid w' = wallet_of uid w + 1000 ∧
       claimed_of uid w' = true ∧
       transactions w !! (uid, auto_id w) = None ∧
       transactions w' =
         <[(uid, auto_id w) := reward_tx 1000 (threshold_of w)]> (transactions w) ∧
       reward_transactions uid w' = S (reward_transactions uid w) ∧
       outbox w' = outbox w ++
         (if truthy_id (pushToken d)
          then [reward_message (default "" (pushToken d)) 1000 (threshold_of w)]
          else []) ∧
       same_rest w w')
  ∧
  (∀ (uid fid : string) (w : World) (d df : UserDoc),
     users w !! uid = Some d →
     users w !! fid = Some df →
     followersCount d = Some 4999 →
     threshold_of w = Some 5000 →
     rewardClaimed d = false →
     let w1 := deliver (CountUpdate (mkChange false true) uid fid []) w in
     let w2 := deliver (RewardCheck uid []) w1 in
     (∃ d2, users w2 !! uid = Some d2 ∧ followersCount d2 = Some 5000 ∧
            rewardClaimed d2 = true) ∧
     wallet_of uid w2 = wallet_of uid w + 1000 ∧
     reward_transactions uid w2 = S (reward_transactions uid w) ∧
     length (outbox w2) =
       (length (outbox w) + if truthy_id (pushToken d) then 1 else 0)%nat).
Proof.
  split.
  - intros uid w d Hd Hge Hc.
    destruct (reward_success_run uid w d Hd Hge Hc) as (w' & E & Hu & Ht & Ho & Hr).
    destruct (wallet_of_credited uid d 1000 w w' Hd Hu) as [Hw Hcl].
    exists w'. repeat split; try done; try apply Hr.
    + apply auto_id_fresh.
    + rewrite (reward_transactions_insert uid _ _ w w' (auto_id_fresh uid w) Ht).
      by rewrite decide_True.
  - intros uid fid w d df Hd Hdf Hfc Hthr Hc w1 w2.
    destruct (counts_success_run true uid fid w d df Hd Hdf)
      as (w1' & E1 & (d1 & Hd1 & Hfc1) & _ & Hfields & Ht1 & Hr1 & Ho1 & _).
    assert (Hw1 : w1 = w1') by (subst w1; cbn [deliver]; by rewrite E1).
    rewrite <- Hw1 in *. clear w1' E1 Hw1.
    destruct (Hfields uid) as [[E _]|(d0 & d1' & E0 & E1 & Hwb & Hcl & Hpt & _)];
      [congruence|].
    assert (d0 = d) as -> by congruence. assert (d1' = d1) as -> by congruence.
    assert (Hthr1 : threshold_of w1 = Some 5000).
    { unfold threshold_of in *. destruct Hr1 as (_ & _ & -> & _). done. }
    rewrite Hfc in Hfc1. cbn in Hfc1.
    assert (Hge : js_ge (js_num (followersCount d1)) (threshold_of w1) = true)
      by by rewrite Hthr1, Hfc1.
    assert (Hc1 : rewardClaimed d1 = false) by congruence.
    destruct (reward_success_run uid w1 d1 Hd1 Hge Hc1) as (w2' & E2 & Hu & Ht & Ho & Hr).
    assert (Hw2 : w2 = w2') by (subst w2; cbn [deliver]; by rewrite E2).
    rewrite <- Hw2 in *. clear w2' E2 Hw2.
    destruct (wallet_of_credited uid d1 1000 w1 w2 Hd1 Hu) as [Hw Hcl2].
    split; [|split; [|split]].
    + exists (credited 1000 d1). rewrite Hu, lookup_insert_eq. done.
    + rewrite Hw. unfold wallet_of. rewrite Hd1, Hd. cbn. by rewrite Hwb.
    + rewrite (reward_transactions_insert uid _ _ w1 w2 (auto_id_fresh uid w1) Ht).
      rewrite decide_True by done. unfold reward_transactions, transactions_of.
      by rewrite Ht1.
    + rewrite Ho, length_app, Ho1, Hpt. by destruct (truthy_id (pushToken d)).
Qed.

Lemma reward_granted_when_requests_succeed_witness :
  (∃ w', exec [] (checkFollowerReward "bea") two_users = (inl tt, w') ∧
     wallet_of "bea" w' = 1020 ∧ claimed_of "bea" w' = true ∧
     reward_transactions "bea" w' = 1%nat ∧ length (outbox w') = 1%nat)
  ∧
  (let almost := mkUser (Some 4999) None None false None true [] in
   let w := set_users (<["cy" := almost]>) two_users in
   let w2 := deliver (RewardCheck "cy" [])
               (deliver (CountUpdate (mkChange false true) "cy" "ann" []) w) in
   wallet_of "cy" w2 = 1000 ∧ reward_transactions "cy" w2 = 1%nat).
Proof.
  destruct reward_granted_when_requests_succeed as [HA HB]. split.
  - destruct (HA "bea" two_users bea) as (w' & E & _ & Hw & Hc & _ & _ & Hn & Ho & _).
    + reflexivity.
    + reflexivity.
    + reflexivity.
    + exists w'. split; [exact E|]. split; [exact Hw|]. split; [exact Hc|].
      split; [exact Hn|]. rewrite Ho. reflexivity.
  - intros almost w w2.
    destruct (HB "cy" "ann" w almost ann) as (_ & Hw & Hn & _).
    + reflexivity.
    + reflexivity.
    + reflexivity.
    + reflexivity.
    + reflexivity.
    + split; [exact Hw | exact Hn].
Defined.

(** C2 fails on the code: the claim has the credit, the flag, the
    transaction record and the notification happen atomically, and the
    handler issues the reward update and the transaction record as two
    requests, outside any batch or transaction.  When the second one
    fails, [bea] (at the threshold, flag unset, with a push token) keeps
    the credit and the flag, and gets no transaction record and no
    notification; the flag then keeps every later invocation from adding
    them. *)
Lemma reward_update_and_record_not_atomic :
  let w' := (exec [false; false; false; true] (checkFollowerReward "bea") two_users).2 in
  users two_users !! "bea" = Some bea ∧
  js_ge (js_num (followersCount bea)) (threshold_of two_users) = true ∧
  rewardClaimed bea = false ∧
  wallet_of "bea" w' = wallet_of "bea" two_users + 1000 ∧
  claimed_of "bea" w' = true ∧
  reward_transactions "bea" w' = 0%nat ∧
  transactions w' = ∅ ∧
  outbox w' = [].
Proof. vm_compute. repeat split. Qed.

(** ** At most one reward when deliveries do not overlap *)

(** One delivery either leaves the wallet, the flag and the transactions
    of [uid] alone, or it is the one that credits [uid]. *)
Lemma deliver_step uid dl w :
  let w' := deliver dl w in
  (wallet_of uid w' = wallet_of uid w ∧ claimed_of uid w' = claimed_of uid w ∧
   transactions_of uid w' = transactions_of uid w)
  ∨ (claimed_of uid w = false ∧ claimed_of uid w' = true ∧
     wallet_of uid w' = wallet_of uid w + 1000 ∧
     (transactions_of uid w' = transactions_of uid w
      ∨ ∃ i tx, transactions_of uid w !! (uid, i) = None ∧
          transactions_of uid w' = <[(uid, i) := tx]> (transactions_of uid w))).
Proof.
  destruct dl as [u fs|c u f fs]; cbn [deliver].
  - destruct (reward_run fs u w) as (w' & -> & _ & [[Hu Ht]|(d & Hd & Hc & _ & Hu & Ht)]);
      cbn [snd].
    { left. unfold wallet_of, claimed_of, transactions_of. by rewrite Hu, Ht. }
    destruct (decide (u = uid)) as [->|Hne].
    + right. destruct (wallet_of_credited uid d 1000 w w' Hd Hu) as [Hw Hcl].
      split; [unfold claimed_of; by rewrite Hd|]. split; [done|]. split; [done|].
      destruct Ht as [Ht|Ht].
      * left. unfold transactions_of. by rewrite Ht.
      * right. exists (auto_id w), (reward_tx 1000 (threshold_of w)). split.
        -- unfold transactions_of. apply map_lookup_filter_None. left.
           apply auto_id_fresh.
        -- by apply transactions_of_insert.
    + left. unfold wallet_of, claimed_of.
      rewrite (credited_other u uid d 1000 w w') by done.
      split; [done|]. split; [done|].
      destruct Ht as [Ht|Ht].
      * unfold transactions_of. by rewrite Ht.
      * eapply transactions_of_insert_other; [done|exact Ht|apply auto_id_fresh].
  - destruct (counts_run fs c u f w) as (w' & -> & _ & Ht & _ & Hf). cbn [snd].
    left. destruct (Hf uid) as [Hw Hc]. unfold wallet_of, claimed_of, transactions_of.
    rewrite Ht, Hc. split; [|done].
    destruct (users w' !! uid), (users w !! uid); cbn in *; congruence.
Qed.

Lemma deliver_all_steps uid ds w :
  let w' := deliver_all ds w in
  (wallet_of uid w' = wallet_of uid w ∧ claimed_of uid w' = claimed_of uid w ∧
   transactions_of uid w' = transactions_of uid w)
  ∨ (claimed_of uid w = false ∧ claimed_of uid w' = true ∧
     wallet_of uid w' = wallet_of uid w + 1000 ∧
     (transactions_of uid w' = transactions_of uid w
      ∨ ∃ i tx, transactions_of uid w !! (uid, i) = None ∧
          transactions_of uid w' = <[(uid, i) := tx]> (transactions_of uid w))).
Proof.
  revert w. induction ds as [|dl ds IH]; intros w.
  { by left. }
  change (deliver_all (dl :: ds) w) with (deliver_all ds (deliver dl w)). cbv zeta.
  destruct (deliver_step uid dl w) as [(Hw1 & Hc1 & Ht1)|(Hc0 & Hc1 & Hw1 & Ht1)];
    destruct (IH (deliver dl w)) as [(Hw2 & Hc2 & Ht2)|(Hc2 & Hc3 & Hw2 & Ht2)].
  - left. repeat split; congruence.
  - right. rewrite <- Hc1, <- Hw1, <- Ht1. done.
  - right. split; [done|]. split; [congruence|]. split; [congruence|].
    by rewrite Ht2.
  - congruence.
Qed.

(** The guard against a second reward holds between invocations that
    do not overlap: for every user and every sequence of deliveries of
    the two follower-edge triggers that do not overlap (each runs to its
    end before the next starts; duplicates, other users and failing
    requests included), the wallet is credited at most once and by the
    reward amount, at most one transaction of type ['reward'] is added,
    and once [rewardClaimed] is true the wallet, the flag and the
    transactions of the user stay as they are. *)
Theorem reward_at_most_once_sequentially :
  ∀ (uid : string) (ds : list Delivery) (w : World),
    let w' := deliver_all ds w in
    (wallet_of uid w' = wallet_of uid w ∨ wallet_of uid w' = wallet_of uid w + 1000) ∧
    (reward_transactions uid w' ≤ S (reward_transactions uid w))%nat ∧
    (claimed_of uid w = true →
       wallet_of uid w' = wallet_of uid w ∧ claimed_of uid w' = true ∧
       transactions_of uid w' = transactions_of uid w).
Proof.
  intros uid ds w w'. subst w'.
  destruct (deliver_all_steps uid ds w) as [(Hw & Hc & Ht)|(Hc0 & Hc & Hw & Ht)].
  - split; [by left|]. split.
    + unfold reward_transactions. rewrite Ht. lia.
    + intros Hcl. repeat split; congruence.
  - split; [by right|]. split; [|congruence].
    unfold reward_transactions. destruct Ht as [->|(i & tx & Hnone & ->)]; [lia|].
    destruct (decide (tx_type tx = "reward")).
    + rewrite map_filter_insert_True by done.
      rewrite map_size_insert_None; [lia|]. apply map_lookup_filter_None. by left.
    + rewrite map_filter_insert_False by done. rewrite delete_id; [lia|done].
Qed.

Lemma reward_at_most_once_sequentially_witness :
  let claimed := (exec [] (checkFollowerReward "bea") two_users).2 in
  let w' := deliver_all [RewardCheck "bea" []; RewardCheck "bea" [false; true];
                         CountUpdate (mkChange false true) "bea" "ann" [];
                         RewardCheck "bea" []] claimed in
  claimed_of "bea" claimed = true ∧
  wallet_of "bea" w' = 1020 ∧ claimed_of "bea" w' = true ∧
  transactions_of "bea" w' = transactions_of "bea" claimed.
Proof.
  intros claimed w'.
  destruct (reward_at_most_once_sequentially "bea"
              [RewardCheck "bea" []; RewardCheck "bea" [false; true];
               CountUpdate (mkChange false true) "bea" "ann" [];
               RewardCheck "bea" []] claimed) as (_ & _ & H).
  assert (Hc : claimed_of "bea" claimed = true) by (vm_compute; reflexivity).
  destruct (H Hc) as (Hw & Hcl & Ht).
  split; [exact Hc|]. split; [|split; [exact Hcl | exact Ht]].
  change (wallet_of "bea" w' = wallet_of "bea" claimed) in Hw.
  rewrite Hw. vm_compute. reflexivity.
Defined.

(** C1 fails on the code: the handler reads [rewardClaimed], tests it
    and sets it in separate requests, with no transaction around them.
    When two invocations for [bea] overlap and both read the user document
    before either writes, both pass the test "for the first time", both
    credit the wallet and both add a transaction record: 2000 instead of
    1000, two records and two notifications. *)
Lemma reward_twice_when_deliveries_overlap :
  let w' := (interleave [0; 1; 0; 1; 0; 1; 0; 1; 0; 1; 0; 1; 0; 1]%nat
               [checkFollowerReward "bea"; checkFollowerReward "bea"] two_users).2 in
  claimed_of "bea" two_users = false ∧
  wallet_of "bea" w' = wallet_of "bea" two_users + 2000 ∧
  reward_transactions "bea" w' = 2%nat ∧
  length (outbox w') = 2%nat.
Proof. vm_compute. repeat split. Qed.

(** ** The reward amount *)

(** C5, as amended: the amount credited to [wallet.balance] and recorded
    in the transaction is the constant 1000 of the handler, whatever
    [settings/rewardRule] holds in its [rewardAmount] field: the handler
    reads only [followerThreshold] from that record.  Every run changes a
    wallet by 0 or by 1000 and every record it adds is a ['reward'] of
    1000; and the run that meets no failing request, for a user at the
    threshold with the flag unset, credits 1000 and records 1000. *)
Theorem reward_amount_is_the_constant :
  (∀ (fs : list bool) (uid v : string) (w : World),
     let w' := (exec fs (checkFollowerReward uid) w).2 in
     (wallet_of v w' = wallet_of v w ∨ wallet_of v w' = wallet_of v w + 1000) ∧
     ∀ k tx, transactions w' !! k = Some tx → transactions w !! k = None →
             tx_type tx = "reward" ∧ tx_amount tx = 1000)
  ∧
  (∀ (uid : string) (w : World) (d : UserDoc) (thr configured : option Z),
     rewardRule w = Some (mkRule thr configured) →
     users w !! uid = Some d →
     js_ge (js_num (followersCount d)) thr = true →
     rewardClaimed d = false →
     let w' := (exec [] (checkFollowerReward uid) w).2 in
     wallet_of uid w' = wallet_of uid w + 1000 ∧
     (tx_amount <$> transactions w' !! (uid, auto_id w)) = Some 1000).
Proof.
  split.
  - intros fs uid v w w'. subst w'.
    destruct (reward_run fs uid w) as (w' & -> & _ & [[Hu Ht]|(d & Hd & Hc & _ & Hu & Ht)]);
      cbn [snd].
    { split; [left; unfold wallet_of; by rewrite Hu|]. intros k tx. rewrite Ht. congruence. }
    split.
    + destruct (decide (v = uid)) as [->|Hne].
      * right. by apply (wallet_of_credited uid d 1000 w w').
      * left. unfold wallet_of. by rewrite (credited_other uid v d 1000 w w').
    + intros k tx. destruct Ht as [->| ->]; [congruence|].
      destruct (decide (k = (uid, auto_id w))) as [->|Hne].
      * rewrite lookup_insert_eq. intros [= <-] _. done.
      * rewrite lookup_insert_ne by done. congruence.
  - intros uid w d thr configured Hrule Hd Hge Hc w'. subst w'.
    assert (Hthr : threshold_of w = thr) by (unfold threshold_of; by rewrite Hrule).
    rewrite <- Hthr in Hge.
    destruct (reward_success_run uid w d Hd Hge Hc) as (w' & -> & Hu & Ht & _).
    cbn [snd]. split.
    + by apply (wallet_of_credited uid d 1000 w w').
    + by rewrite Ht, lookup_insert_eq.
Qed.

Lemma reward_amount_is_the_constant_witness :
  let w' := (exec [] (checkFollowerReward "bea") two_users_rule_250).2 in
  wallet_of "bea" w' = 1020 ∧
  (tx_amount <$> transactions w' !! ("bea", auto_id two_users_rule_250)) = Some 1000.
Proof.
  destruct reward_amount_is_the_constant as [_ H].
  destruct (H "bea" two_users_rule_250 bea (Some 5000) (Some 250)) as [Hw Ht].
  - reflexivity.
  - reflexivity.
  - reflexivity.
  - reflexivity.
  - split; [exact Hw | exact Ht].
Defined.

(** C5 as stated fails: with [rewardAmount = 250] configured, [bea] is
    credited 1000 and the transaction records 1000. *)
Lemma configured_reward_amount_is_ignored :
  let w' := (exec [] (checkFollowerReward "bea") two_users_rule_250).2 in
  (rewardRule two_users_rule_250 ≫= rule_rewardAmount) = Some 250 ∧
  wallet_of "bea" w' - wallet_of "bea" two_users_rule_250 = 1000 ∧
  (tx_amount <$> transactions w' !! ("bea", 0%nat)) = Some 1000 ∧
  (1000 ≠ 250).
Proof. vm_compute. repeat split. discriminate. Qed.

(** ** The message preview *)

Lemma truthy_id_Some s : s ≠ "" → truthy_id (Some s) = true.
Proof. intros H. cbn. apply negb_true_iff, String.eqb_neq, H. Qed.

Lemma preview_long t :
  (50 < length t)%nat → preview t = take 50 t ++ [46; 46; 46]%N.
Proof.
  intros H. unfold preview, js_length. rewrite bool_decide_true by lia. done.
Qed.

Lemma preview_short t : (length t ≤ 50)%nat → preview t = t.
Proof.
  intros H. unfold preview, js_length. by rewrite bool_decide_false by lia.
Qed.

(** C6: for a message whose recipient (the first participant of the chat
    that is not the sender) has a push token and notifications enabled,
    the handler posts one notification to that token; its body is the
    first 50 UTF-16 code units of the text followed by ['...'] when the
    text is longer than 50, and the text itself otherwise. *)
Theorem message_preview_is_truncated :
  ∀ (chatId : string) (messageData : Message) (w : World) (chatData : Chat)
    (recipientId : string) (recipientData : UserDoc) (token : string),
    chats w !! chatId = Some chatData →
    find (λ id, negb (String.eqb id (senderId messageData))) (participants chatData)
      = Some recipientId →
    recipientId ≠ "" →
    users w !! recipientId = Some recipientData →
    pushToken recipientData = Some token →
    token ≠ "" →
    settings_notifications recipientData = true →
    ∃ m, outbox (exec [] (sendMessageNotification chatId messageData) w).2
           = outbox w ++ [m] ∧
      to m = token ∧
      ((50 < length (text messageData))%nat →
         body m = take 50 (text messageData) ++ [46; 46; 46]%N) ∧
      ((length (text messageData) ≤ 50)%nat → body m = text messageData).
Proof.
  intros chatId messageData w chatData recipientId recipientData token
    Hchat Hfind Hrid Hrec Htok Htokne Hnotif.
  exists (message_notification token chatId messageData).
  split; [|split; [done|split; [apply preview_long|apply preview_short]]].
  unfold sendMessageNotification. prog_simpl. cbn [exec tail].
  unfold get_chat at 1. rewrite Hchat. prog_simpl.
  rewrite Hfind, (truthy_id_Some _ Hrid). cbn [negb default from_option id]. prog_simpl.
  cbn [exec tail]. unfold get_user at 1. cbn [get_chat snd]. rewrite Hrec. prog_simpl.
  rewrite Htok, (truthy_id_Some _ Htokne), Hnotif. cbn [negb orb default from_option id].
  unfold sendPushNotification. prog_simpl. cbn [exec tail].
  unfold gateway_fetch. cbn [get_user snd].
  destruct (gateway w); prog_simpl; cbn [exec tail response_json]; prog_simpl; done.
Qed.

Lemma message_preview_is_truncated_witness :
  let long := mkMessage "ann" (Some (utf16 "Ann")) (replicate 120 97%N) in
  let short := mkMessage "ann" None (utf16 "hello") in
  let w := set_chats (<["ann_bea" := mkChat ["ann"; "bea"] []]>) two_users in
  (body <$> outbox (exec [] (sendMessageNotification "ann_bea" long) w).2)
    = [replicate 50 97%N ++ [46; 46; 46]%N] ∧
  (body <$> outbox (exec [] (sendMessageNotification "ann_bea" short) w).2)
    = [utf16 "hello"].
Proof.
  intros long short w. split.
  - destruct (message_preview_is_truncated "ann_bea" long w (mkChat ["ann"; "bea"] [])
                "bea" bea "ExponentPushToken[bea]") as (m & -> & _ & Hlong & _).
    + reflexivity.
    + reflexivity.
    + discriminate.
    + reflexivity.
    + reflexivity.
    + discriminate.
    + reflexivity.
    + change (outbox w) with (@nil PushMessage). cbn [app fmap list_fmap].
      rewrite Hlong; [reflexivity|]. cbn. lia.
  - destruct (message_preview_is_truncated "ann_bea" short w (mkChat ["ann"; "bea"] [])
                "bea" bea "ExponentPushToken[bea]") as (m & -> & _ & _ & Hshort).
    + reflexivity.
    + reflexivity.
    + discriminate.
    + reflexivity.
    + reflexivity.
    + discriminate.
    + reflexivity.
    + change (outbox w) with (@nil PushMessage). cbn [app fmap list_fmap].
      rewrite Hshort; [reflexivity|]. cbn. lia.
Defined.

(** ** Batches, document by document *)

Lemma apply_write_doc_at b w w' r :
  apply_write b w = Some w' → doc_at r w' = doc_step r (doc_at r w) b.
Proof.
  intros H. unfold doc_step. destruct (decide (touches b = r)) as [<-|Hne].
  - destruct b as [r0|uid us|c uid]; cbn in *.
    + injection H as <-.
      destruct r0; cbn; rewrite ?lookup_delete_eq; try done.
      all: rewrite decide_False; [done|].
      all: rewrite elem_of_difference, elem_of_singleton; tauto.
    + destruct (users w !! uid) as [d|] eqn:E; [|done]. cbn in H. injection H as <-.
      cbn. by rewrite lookup_insert_eq.
    + destruct (chats w !! c) as [ch|] eqn:E; [|done]. cbn in H. injection H as <-.
      cbn. by rewrite lookup_insert_eq.
  - destruct b as [r0|uid us|c uid]; cbn in *.
    + injection H as <-.
      destruct r0, r; cbn; try done.
      all: try (rewrite lookup_delete_ne by congruence; done).
      all: repeat destruct (decide _) as [?|?]; try done; exfalso.
      all: repeat match goal with
             | H : _ ∈ _ ∖ _ |- _ => apply elem_of_difference in H as [? ?]
             | H : _ ∉ _ ∖ _ |- _ => rewrite elem_of_difference, elem_of_singleton in H
             end; try done.
      all: match goal with H : ¬ (_ ∧ _) |- _ => apply H; split; [done|congruence] end.
    + destruct (users w !! uid) as [d|] eqn:E; [|done]. cbn in H. injection H as <-.
      destruct r; cbn; try done. rewrite lookup_insert_ne by congruence. done.
    + destruct (chats w !! c) as [ch|] eqn:E; [|done]. cbn in H. injection H as <-.
      destruct r; cbn; try done. rewrite lookup_insert_ne by congruence. done.
Qed.

Lemma apply_batch_doc_at bs w wb r :
  apply_batch bs w = Some wb → doc_at r wb = foldl (doc_step r) (doc_at r w) bs.
Proof.
  revert w. induction bs as [|b bs IH]; intros w H; cbn in *.
  - by injection H as <-.
  - destruct (apply_write b w) as [w1|] eqn:E; [|done]. cbn in H.
    rewrite (IH _ H). by rewrite (apply_write_doc_at _ _ _ r E).
Qed.

Lemma fold_none r bs : foldl (doc_step r) None bs = None.
Proof.
  induction bs as [|b bs IH]; [done|]. cbn. unfold doc_step at 2.
  destruct (decide _); [|done]. by destruct b.
Qed.

Lemma fold_untouched r o bs :
  (∀ b, b ∈ bs → touches b ≠ r) → foldl (doc_step r) o bs = o.
Proof.
  induction bs as [|b bs IH]; intros H; [done|]. cbn. unfold doc_step at 2.
  rewrite decide_False by (apply H; left).
  apply IH. intros b' Hb'. apply H. by right.
Qed.

Lemma fold_deleted r o bs :
  BDelete r ∈ bs → foldl (doc_step r) o bs = None.
Proof.
  intros Hin. apply list_elem_of_split in Hin as (l1 & l2 & ->).
  rewrite foldl_app. cbn. unfold doc_step at 2. rewrite decide_True by done.
  cbn. apply fold_none.
Qed.

(** Documents other than users and chats are deleted or left alone. *)
Lemma fold_kept r o bs x :
  foldl (doc_step r) o bs = Some x →
  (∀ d, x ≠ DUser d) → (∀ c, x ≠ DChat c) →
  o = Some x.
Proof.
  revert o. induction bs as [|b bs IH]; intros o H Hu Hc; [done|].
  cbn in H. apply IH in H; [|done..].
  unfold doc_step in H. destruct (decide _); [|done].
  destruct b, o as [[]|]; cbn in H; try done; naive_solver.
Qed.

(** ** What the queries of the purge return *)

Lemma elem_posts_by U w p :
  p ∈ posts_by U w ↔ ∃ post, posts w !! p = Some post ∧ post_userId post = U.
Proof.
  unfold posts_by. rewrite list_elem_of_fmap. split.
  - intros ([k post] & -> & H). apply elem_of_map_to_list, map_lookup_filter_Some in H.
    by exists post.
  - intros (post & H1 & H2). exists (p, post). split; [done|].
    by apply elem_of_map_to_list, map_lookup_filter_Some.
Qed.

Lemma elem_comments_by U w k :
  k ∈ comments_by U w ↔ ∃ c, comments w !! k = Some c ∧ comment_userId c = U.
Proof.
  unfold comments_by. rewrite list_elem_of_fmap. split.
  - intros ([k' c] & -> & H). apply elem_of_map_to_list, map_lookup_filter_Some in H.
    by exists c.
  - intros (c & H1 & H2). exists (k, c). split; [done|].
    by apply elem_of_map_to_list, map_lookup_filter_Some.
Qed.

Lemma elem_chats_with U w c ch :
  (c, ch) ∈ chats_with U w ↔ chats w !! c = Some ch ∧ U ∈ participants ch.
Proof.
  unfold chats_with. by rewrite elem_of_map_to_list, map_lookup_filter_Some.
Qed.

Lemma elem_following_of U w e : e ∈ following_of U w ↔ e ∈ following w ∧ e.1 = U.
Proof. unfold following_of. rewrite elem_of_elements, elem_of_filter. tauto. Qed.

Lemma elem_followers_of U w e : e ∈ followers_of U w ↔ e ∈ followers w ∧ e.1 = U.
Proof. unfold followers_of. rewrite elem_of_elements, elem_of_filter. tauto. Qed.

Lemma elem_transaction_ids_of U w k :
  k ∈ transaction_ids_of U w ↔ ∃ tx, transactions w !! k = Some tx ∧ k.1 = U.
Proof.
  unfold transaction_ids_of. rewrite list_elem_of_fmap. split.
  - intros ([k' tx] & -> & H). apply elem_of_map_to_list, map_lookup_filter_Some in H.
    by exists tx.
  - intros (tx & H1 & H2). exists (k, tx). split; [done|].
    by apply elem_of_map_to_list, map_lookup_filter_Some.
Qed.

Lemma elem_chat_writes U l b :
  b ∈ chat_writes U l ↔
  ∃ c ch, (c, ch) ∈ l ∧
    b = if bool_decide (length (participants ch) = 1%nat)
        then BDelete (ChatRef c) else BArrayRemove c U.
Proof.
  unfold chat_writes. rewrite list_elem_of_fmap. split.
  - intros ([c ch] & -> & H). by exists c, ch.
  - intros (c & ch & H & ->). by exists (c, ch).
Qed.

(** Every write of the purge is addressed to a document of the user. *)
Lemma purge_batch_touches U w b : b ∈ purge_batch U w → owned_by U w (touches b).
Proof.
  unfold purge_batch. rewrite !elem_of_app, !list_elem_of_fmap, elem_chat_writes.
  intros [[[[[[H|H]|H]|H]|H]|H]|H].
  - apply list_elem_of_singleton in H as ->. done.
  - destruct H as (p & -> & H). apply elem_posts_by in H as (post & H1 & H2).
    cbn. by rewrite H1, <- H2.
  - destruct H as ([p c] & -> & H). apply elem_comments_by in H as (cm & H1 & H2).
    cbn. by rewrite H1, <- H2.
  - destruct H as (c & ch & H & ->). apply elem_chats_with in H.
    case_bool_decide; cbn; eauto.
  - destruct H as (e & -> & H). by apply elem_following_of in H as [_ H].
  - destruct H as (e & -> & H). by apply elem_followers_of in H as [_ H].
  - destruct H as (k & -> & H). by apply elem_transaction_ids_of in H as (tx & _ & H).
Qed.

(** Every document the user owns, chats apart, is deleted by the purge. *)
Lemma purge_batch_deletes U w r :
  owned_by U w r → (∀ c, r ≠ ChatRef c) → is_Some (doc_at r w) ∨ r = UserRef U →
  BDelete r ∈ purge_batch U w.
Proof.
  intros Hown Hnc Hex. unfold purge_batch.
  rewrite !elem_of_app, !list_elem_of_fmap.
  destruct r as [u|p|p c|c|o t|u f|u i]; cbn in Hown.
  - subst u. do 6 left. by apply list_elem_of_singleton.
  - do 5 left. right. exists p. split; [done|]. apply elem_posts_by.
    destruct (posts w !! p) as [post|]; [|done]. exists post. naive_solver.
  - do 4 left. right. exists (p, c). split; [done|]. apply elem_comments_by.
    destruct (comments w !! (p, c)) as [cm|]; [|done]. exists cm. naive_solver.
  - by destruct (Hnc c).
  - do 2 left. right. exists (o, t). split; [done|]. apply elem_following_of.
    destruct Hex as [Hex|Hex]; [|done]. cbn in Hex.
    destruct (decide _); [done|by destruct Hex].
  - left. right. exists (u, f). split; [done|]. apply elem_followers_of.
    destruct Hex as [Hex|Hex]; [|done]. cbn in Hex.
    destruct (decide _); [done|by destruct Hex].
  - right. exists (u, i). split; [done|]. apply elem_transaction_ids_of.
    destruct Hex as [Hex|Hex]; [|done]. cbn in Hex.
    destruct (transactions w !! (u, i)) as [tx|]; [|by destruct Hex]. by exists tx.
Qed.

(** A batch writes Firestore documents only, and no message. *)
Lemma apply_batch_frame bs w wb :
  apply_batch bs w = Some wb →
  credentials wb = credentials w ∧ bucket wb = bucket w ∧ messages wb = messages w ∧
  rewardRule wb = rewardRule w ∧ outbox wb = outbox w ∧ console wb = console w ∧
  gateway wb = gateway w.
Proof.
  revert w. induction bs as [|b bs IH]; intros w H; cbn in H.
  - by injection H as <-.
  - destruct (apply_write b w) as [w1|] eqn:E; [|done]. cbn in H.
    destruct (IH _ H) as (-> & -> & -> & -> & -> & -> & ->).
    destruct b as [[]|uid us|c uid]; cbn in E.
    1-7: by injection E as <-.
    + destruct (users w !! uid); [|done]. cbn in E. by injection E as <-.
    + destruct (chats w !! c); [|done]. cbn in E. by injection E as <-.
Qed.

(** ** The runs of the purge *)

(** Worlds that differ in the bucket only. *)
Lemma set_bucket_ext f g w :
  f (bucket w) = g (bucket w) → set_bucket f w = set_bucket g w.
Proof. intros H. unfold set_bucket. by rewrite H. Qed.

Lemma set_bucket_same f w : f (bucket w) = bucket w → set_bucket f w = w.
Proof. intros H. destruct w. unfold set_bucket. cbn in *. by rewrite H. Qed.

(** What is left of a bucket once every object under a prefix is gone. *)
Lemma bucket_without_prefix pre (b : gset string) :
  b ∖ list_to_set (elements (filter (λ name, String.prefix pre name = true) b))
  = filter (λ name, String.prefix pre name = false) b.
Proof.
  rewrite list_to_set_elements_L. apply set_eq. intros name.
  rewrite elem_of_difference, !elem_of_filter.
  destruct (String.prefix pre name); intuition congruence.
Qed.

(** The deletes of [deleteFiles], inside the [try] block of the caller:
    either every object of the list is gone and the caller goes on, or
    some set of them is gone and the handler runs. *)
Lemma delete_each_run {B} names : ∀ fs error (k : unit → Prog B) h w,
  ∃ fs' (gone : gset string),
    (∀ name, name ∈ gone → name ∈ names) ∧
    ((error = None ∧ gone = list_to_set names ∧
      exec fs (try_catch (bind (delete_each names error) k) h) w
      = exec fs' (try_catch (k tt) h) (set_bucket (λ b, b ∖ gone) w))
     ∨ ∃ e, exec fs (try_catch (bind (delete_each names error) k) h) w
            = exec fs' (h e) (set_bucket (λ b, b ∖ gone) w)).
Proof.
  assert (Hsame : ∀ err : option JsError,
            match err with Some _ => err | None => err end = err) by by intros [].
  assert (Hjoin : ∀ name (gone : gset string) w,
            set_bucket (λ b, b ∖ gone) (set_bucket (λ b, b ∖ {[name]}) w)
            = set_bucket (λ b, b ∖ ({[name]} ∪ gone)) w).
  { intros name gone w. unfold set_bucket. cbn. f_equal. apply set_eq. intros x.
    rewrite !elem_of_difference, elem_of_union. tauto. }
  induction names as [|name names IH]; intros fs error k h w.
  - exists fs, ∅. split; [intros x Hx; by apply elem_of_empty in Hx|].
    rewrite (set_bucket_same (λ b, b ∖ ∅) w) by apply difference_empty_L.
    destruct error as [e|]; cbn [delete_each bind try_catch]; [right; by exists e|by left].
  - cbn [delete_each bind try_catch].
    destruct fs as [|[] fs]; cbn [exec tail delete_object]; rewrite ?Hsame.
    + destruct (IH [] error k h (set_bucket (λ b, b ∖ {[name]}) w))
        as (fs' & gone & Hsub & H).
      exists fs', ({[name]} ∪ gone). split.
      { intros x [->%elem_of_singleton|Hx]%elem_of_union; [left|right; by apply Hsub]. }
      rewrite Hjoin in H.
      destruct H as [(-> & -> & H)|(e & H)]; [by left|right; by exists e].
    + destruct (IH fs (match error with Some _ => error | None => Some Unavailable end)
                  k h w) as (fs' & gone & Hsub & H).
      exists fs', gone. split; [intros x Hx; right; by apply Hsub|].
      destruct H as [(Herr & _)|(e & H)]; [by destruct error|right; by exists e].
    + destruct (IH fs error k h (set_bucket (λ b, b ∖ {[name]}) w))
        as (fs' & gone & Hsub & H).
      exists fs', ({[name]} ∪ gone). split.
      { intros x [->%elem_of_singleton|Hx]%elem_of_union; [left|right; by apply Hsub]. }
      rewrite Hjoin in H.
      destruct H as [(-> & -> & H)|(e & H)]; [by left|right; by exists e].
Qed.

(** A run of [deleteUserAccount] for a signed-in caller stops in one of
    four places: before the commit took effect, after the commit with
    some of the files gone, after the files, or at the end. *)
Lemma purge_run fs data U w :
  let res := exec fs (deleteUserAccount data (Some U)) w in
  let files_gone :=
    set_bucket (filter (λ name, String.prefix (user_prefix U) name = false)) in
  (∃ e, res = (inr purge_failed, log (LogError "Error deleting user account:" e) w))
  ∨ ∃ wb, apply_batch (purge_batch U w) w = Some wb ∧
      ((∃ e (gone : gset string),
          (∀ name, name ∈ gone →
                   name ∈ bucket wb ∧ String.prefix (user_prefix U) name = true) ∧
          res = (inr purge_failed,
                 log (LogError "Error deleting user account:" e)
                   (set_bucket (λ b, b ∖ gone) wb)))
       ∨ (∃ e, res = (inr purge_failed,
                      log (LogError "Error deleting user account:" e) (files_gone wb)))
       ∨ (U ∈ credentials w ∧
          res = (inl {| success := true |},
                 log (LogInfo "User account successfully deleted")
                   (set_credentials (λ s, s ∖ {[U]}) (files_gone wb))))).
Proof.
  intros res files_gone. subst res.
  unfold deleteUserAccount, deleteFiles. prog_simpl.
  next_request; [left; eauto|]. cbn [query_posts fst snd]. prog_simpl.
  next_request; [left; eauto|]. cbn [query_comments fst snd]. prog_simpl.
  next_request; [left; eauto|]. cbn [query_chats fst snd]. prog_simpl.
  next_request; [left; eauto|]. cbn [list_following fst snd]. prog_simpl.
  next_request; [left; eauto|]. cbn [list_followers fst snd]. prog_simpl.
  next_request; [left; eauto|]. cbn [list_transactions fst snd]. prog_simpl.
  next_request; [left; eauto|].
  fold (purge_batch U w).
  destruct (commit_all_or_nothing (purge_batch U w) w) as [(wb & Hb & ->)|[_ ->]];
    prog_simpl; [|left; eauto].
  right. exists wb. split; [done|].
  next_request.
  { left. exists Unavailable, ∅. split; [set_solver|].
    by rewrite (set_bucket_same (λ b, b ∖ ∅) wb) by apply difference_empty_L. }
  cbn [list_objects fst snd]. prog_simpl.
  match goal with
  | |- context [exec ?fs0 (try_catch (bind (delete_each ?names None) ?k) ?h) wb] =>
      destruct (delete_each_run names fs0 None k h wb) as (fs1 & gone & Hsub & H)
  end.
  destruct H as [(_ & -> & ->)|(e & ->)].
  - rewrite (set_bucket_ext _ (filter (λ name, String.prefix (user_prefix U) name = false)) wb)
      by apply bucket_without_prefix.
    prog_simpl.
    next_request; [right; left; eauto|].
    unfold deleteUser. cbn [credentials set_bucket].
    case_bool_decide as Hin; prog_simpl.
    + right. right. split; [|done].
      by destruct (apply_batch_frame _ _ _ Hb) as (<- & _).
    + right. left. eauto.
  - prog_simpl. left. exists e, gone. split; [|done].
    intros name Hin. apply Hsub, elem_of_elements, elem_of_filter in Hin. tauto.
Qed.

(** After the commit a document that is neither a user nor a chat is one
    that was there before, unchanged, and that the purged user does not
    own. *)
Lemma purge_removes U w wb r x :
  apply_batch (purge_batch U w) w = Some wb →
  doc_at r wb = Some x →
  (∀ d, x ≠ DUser d) → (∀ c, x ≠ DChat c) →
  doc_at r w = Some x ∧ ¬ owned_by U w r.
Proof.
  intros Hb Hx Hu Hc.
  rewrite (apply_batch_doc_at _ _ _ r Hb) in Hx.
  pose proof (fold_kept _ _ _ _ Hx Hu Hc) as Hw.
  split; [done|]. intros Hown.
  assert (Hnc : ∀ c, r ≠ ChatRef c).
  { intros c ->. cbn in Hw. destruct (chats w !! c); [|done]. cbn in Hw.
    injection Hw as <-. by eapply Hc. }
  assert (Hin : BDelete r ∈ purge_batch U w).
  { apply purge_batch_deletes; [done|done|]. left. by rewrite Hw. }
  by rewrite (fold_deleted _ _ _ Hin) in Hx.
Qed.

Lemma purge_removes_user U w wb :
  apply_batch (purge_batch U w) w = Some wb → users wb !! U = None.
Proof.
  intros Hb. pose proof (apply_batch_doc_at _ _ _ (UserRef U) Hb) as H.
  rewrite fold_deleted in H.
  - cbn in H. by destruct (users wb !! U).
  - apply purge_batch_deletes; [done|done|by right].
Qed.

(** C8: when [deleteUserAccount] returns [{success: true}] for user [U],
    the profile document of [U], every post and every comment with
    [userId = U], every document of the [following], [followers] and
    [transactions] collections of [U], every stored object under
    [users/U/] and the credential of [U] are gone. *)
Theorem purge_leaves_nothing_of_the_user :
  ∀ (fs : list bool) (data : list (string * jsstring)) (U : string) (w w' : World),
    exec fs (deleteUserAccount data (Some U)) w = (inl {| success := true |}, w') →
    users w' !! U = None ∧
    (∀ p post, posts w' !! p = Some post → post_userId post ≠ U) ∧
    (∀ k c, comments w' !! k = Some c → comment_userId c ≠ U) ∧
    (∀ t, (U, t) ∉ following w') ∧
    (∀ f, (U, f) ∉ followers w') ∧
    (∀ i, transactions w' !! (U, i) = None) ∧
    (∀ name, name ∈ bucket w' → String.prefix ("users/" +:+ U +:+ "/") name = false) ∧
    U ∉ credentials w'.
Proof.
  intros fs data U w w' Hrun.
  destruct (purge_run fs data U w) as [(e & H)|(wb & Hb & [(e & gone & Hgone & H)|[(e & H)|(_ & H)]])];
    rewrite Hrun in H; try done.
  injection H as ->. cbn.
  split; [exact (purge_removes_user U w wb Hb)|].
  split.
  { intros p post Hp Hown.
    destruct (purge_removes U w wb (PostRef p) (DPost post) Hb) as [Hw Hn]; try done.
    { cbn. by rewrite Hp. }
    apply Hn. cbn in *. destruct (posts w !! p) as [post'|]; [|done].
    cbn in *. congruence. }
  split.
  { intros [p c] cm Hc Hown.
    destruct (purge_removes U w wb (CommentRef p c) (DComment cm) Hb) as [Hw Hn]; try done.
    { cbn. by rewrite Hc. }
    apply Hn. cbn in *. destruct (comments w !! (p, c)) as [cm'|]; [|done].
    cbn in *. congruence. }
  split.
  { intros t Hin.
    destruct (purge_removes U w wb (FollowingRef U t) DEdge Hb) as [_ Hn]; try done.
    cbn. by rewrite decide_True. }
  split.
  { intros f Hin.
    destruct (purge_removes U w wb (FollowersRef U f) DEdge Hb) as [_ Hn]; try done.
    cbn. by rewrite decide_True. }
  split.
  { intros i. destruct (transactions wb !! (U, i)) as [tx|] eqn:Ht; [|done].
    destruct (purge_removes U w wb (TransactionRef U i) (DTransaction tx) Hb)
      as [_ Hn]; try done.
    cbn. by rewrite Ht. }
  split.
  { intros name Hin. by apply elem_of_filter in Hin as [Hp _]. }
  rewrite elem_of_difference, elem_of_singleton. tauto.
Qed.

Lemma purge_leaves_nothing_of_the_user_witness :
  let w' := (exec [] (deleteUserAccount [] (Some "ann")) social_world).2 in
  users w' !! "ann" = None ∧
  (∀ p post, posts w' !! p = Some post → post_userId post ≠ "ann") ∧
  (∀ i, transactions w' !! ("ann", i) = None) ∧
  "ann" ∉ credentials w'.
Proof.
  intros w'.
  destruct (purge_leaves_nothing_of_the_user [] [] "ann" social_world w')
    as (Hu & Hp & _ & _ & _ & Ht & _ & Hc).
  - vm_compute. reflexivity.
  - split; [exact Hu|]. split; [exact Hp|]. split; [exact Ht|exact Hc].
Defined.

(** ** The chats of the purged user *)

(** The write the loop issues for one chat of the snapshot. *)
Lemma chat_writes_app U l1 x l2 :
  chat_writes U (l1 ++ x :: l2)
  = chat_writes U l1
    ++ (if bool_decide (length (participants x.2) = 1%nat)
        then BDelete (ChatRef x.1) else BArrayRemove x.1 U)
    :: chat_writes U l2.
Proof. unfold chat_writes. by rewrite fmap_app. Qed.

Lemma chat_writes_untouched U l c :
  c ∉ l.*1 → ∀ b, b ∈ chat_writes U l → touches b ≠ ChatRef c.
Proof.
  intros Hc b Hb. apply elem_chat_writes in Hb as (c' & ch' & Hin & ->).
  assert (c' ≠ c).
  { intros ->. apply Hc. apply list_elem_of_fmap. by exists (c, ch'). }
  case_bool_decide; cbn; congruence.
Qed.

(** Of the whole batch only that write reaches the chat. *)
Lemma fold_purge_chat U w c ch o :
  chats w !! c = Some ch → U ∈ participants ch →
  foldl (doc_step (ChatRef c)) o (purge_batch U w)
  = effect (if bool_decide (length (participants ch) = 1%nat)
            then BDelete (ChatRef c) else BArrayRemove c U) o.
Proof.
  intros Hc HU.
  assert (Hin : (c, ch) ∈ chats_with U w) by by apply elem_chats_with.
  assert (Hnd : NoDup (chats_with U w).*1) by apply NoDup_fst_map_to_list.
  apply list_elem_of_split in Hin as (l1 & l2 & Hl). rewrite Hl in Hnd.
  rewrite fmap_app, fmap_cons in Hnd.
  apply NoDup_app in Hnd as (_ & Hdisj & Hnd2).
  apply NoDup_cons in Hnd2 as [Hn2 _].
  assert (Hn1 : c ∉ l1.*1).
  { intros H1. apply (Hdisj c H1). left. }
  assert (Hstep : ∀ o', doc_step (ChatRef c) o'
                          (if bool_decide (length (participants ch) = 1%nat)
                           then BDelete (ChatRef c) else BArrayRemove c U)
                        = effect (if bool_decide (length (participants ch) = 1%nat)
                                  then BDelete (ChatRef c) else BArrayRemove c U) o').
  { intros o'. unfold doc_step. rewrite decide_True; [done|]. by case_bool_decide. }
  assert (Hfirst : doc_step (ChatRef c) o (BDelete (UserRef U)) = o).
  { unfold doc_step. by rewrite decide_False. }
  unfold purge_batch. rewrite Hl, chat_writes_app, !foldl_app. cbn [foldl fst snd].
  rewrite Hfirst, Hstep.
  rewrite (fold_untouched (ChatRef c) o (BDelete ∘ PostRef <$> _)).
  2: { intros b Hb. apply list_elem_of_fmap in Hb as (x & -> & _). done. }
  rewrite (fold_untouched (ChatRef c) o (_ <$> comments_by U w)).
  2: { intros b Hb. apply list_elem_of_fmap in Hb as (x & -> & _). done. }
  rewrite (fold_untouched (ChatRef c) o (chat_writes U l1))
    by by apply chat_writes_untouched.
  rewrite (fold_untouched (ChatRef c) _ (chat_writes U l2))
    by by apply chat_writes_untouched.
  rewrite (fold_untouched (ChatRef c) _ (_ <$> following_of U w)).
  2: { intros b Hb. apply list_elem_of_fmap in Hb as (x & -> & _). done. }
  rewrite (fold_untouched (ChatRef c) _ (_ <$> followers_of U w)).
  2: { intros b Hb. apply list_elem_of_fmap in Hb as (x & -> & _). done. }
  rewrite (fold_untouched (ChatRef c) _ (_ <$> transaction_ids_of U w)).
  2: { intros b Hb. apply list_elem_of_fmap in Hb as (x & -> & _). done. }
  done.
Qed.

Lemma sole_participant (U : string) (l : list string) :
  NoDup l → U ∈ l → (∀ p, p ∈ l → p = U) → length l = 1%nat.
Proof.
  intros Hnd HU Hall. destruct l as [|a [|b l]]; [by apply elem_of_nil in HU|done|].
  exfalso. apply NoDup_cons in Hnd as [Hn _]. apply Hn.
  rewrite (Hall a) by left. rewrite <- (Hall b) by (right; left). left.
Qed.

Lemma other_participant (U : string) (l : list string) :
  U ∈ l → (∃ p, p ∈ l ∧ p ≠ U) → length l ≠ 1%nat.
Proof.
  intros HU (p & Hp & Hne) Hlen. destruct l as [|a [|b l]]; try done.
  apply list_elem_of_singleton in HU, Hp. congruence.
Qed.

(** C7: when the purge of [U] goes through, then for every chat [U]
    takes part in (its participants forming a set): if [U] is the only
    participant the chat document is deleted; otherwise the chat document
    stays, with [U] removed from its participants and every other
    participant and field kept; and no message of any chat is deleted. *)
Theorem purge_handles_chats :
  ∀ (fs : list bool) (data : list (string * jsstring)) (U : string) (w w' : World)
    (c : string) (ch : Chat),
    exec fs (deleteUserAccount data (Some U)) w = (inl {| success := true |}, w') →
    chats w !! c = Some ch →
    U ∈ participants ch →
    NoDup (participants ch) →
    ((∀ p, p ∈ participants ch → p = U) → chats w' !! c = None) ∧
    ((∃ p, p ∈ participants ch ∧ p ≠ U) →
       ∃ ch', chats w' !! c = Some ch' ∧
         (U ∉ participants ch') ∧
         (∀ p, p ≠ U → (p ∈ participants ch' ↔ p ∈ participants ch)) ∧
         lastMessage ch' = lastMessage ch) ∧
    messages w' = messages w.
Proof.
  intros fs data U w w' c ch Hrun Hc HU Hnd.
  destruct (purge_run fs data U w) as [(e & H)|(wb & Hb & [(e & gone & Hgone & H)|[(e & H)|(_ & H)]])];
    rewrite Hrun in H; try done.
  injection H as ->. cbn [chats messages log set_credentials set_bucket].
  pose proof (apply_batch_doc_at _ _ _ (ChatRef c) Hb) as Hdoc.
  rewrite (fold_purge_chat U w c ch _ Hc HU) in Hdoc. cbn [doc_at] in Hdoc.
  rewrite Hc in Hdoc. cbn [fmap option_fmap option_map] in Hdoc.
  split; [|split].
  - intros Hsole.
    rewrite bool_decide_true in Hdoc by (by apply (sole_participant U)).
    cbn in Hdoc. by destruct (chats wb !! c).
  - intros Hother.
    rewrite bool_decide_false in Hdoc by (by apply (other_participant U)).
    cbn in Hdoc. destruct (chats wb !! c) as [ch'|]; [|done].
    injection Hdoc as ->. eexists. split; [done|]. cbn. unfold arrayRemove.
    split; [|split; [|done]].
    + rewrite list_elem_of_filter. tauto.
    + intros p Hp. rewrite list_elem_of_filter. tauto.
  - by destruct (apply_batch_frame _ _ _ Hb) as (_ & _ & -> & _).
Qed.

Lemma purge_handles_chats_witness :
  let w' := (exec [] (deleteUserAccount [] (Some "ann")) social_world).2 in
  chats w' !! "ann_zoe" = None ∧
  (participants <$> chats w' !! "ann_bea") = Some ["bea"] ∧
  messages w' = messages social_world.
Proof.
  intros w'.
  destruct (purge_handles_chats [] [] "ann" social_world w'
              "ann_zoe" (mkChat ["ann"] (utf16 "bye"))) as (Hsole & _ & Hm).
  { vm_compute. reflexivity. }
  { reflexivity. }
  { apply list_elem_of_singleton. reflexivity. }
  { apply NoDup_singleton. }
  destruct (purge_handles_chats [] [] "ann" social_world w'
              "ann_bea" (mkChat ["ann"; "bea"] (utf16 "hi"))) as (_ & Hother & _).
  { vm_compute. reflexivity. }
  { reflexivity. }
  { left. }
  { apply NoDup_cons. split; [|apply NoDup_singleton].
    intros H. apply list_elem_of_singleton in H. discriminate H. }
  split.
  - apply Hsole. intros p Hp. apply list_elem_of_singleton in Hp. exact Hp.
  - split; [|exact Hm]. vm_compute. reflexivity.
Defined.

(** ** Who may purge whom *)

Lemma purge_batch_frames U w wb r :
  apply_batch (purge_batch U w) w = Some wb → ¬ owned_by U w r →
  doc_at r wb = doc_at r w.
Proof.
  intros Hb Hr. rewrite (apply_batch_doc_at _ _ _ r Hb).
  apply fold_untouched. intros b Hin <-. by apply Hr, purge_batch_touches.
Qed.

Lemma doc_at_log r l w : doc_at r (log l w) = doc_at r w.
Proof. by destruct r. Qed.
Lemma doc_at_set_bucket r f w : doc_at r (set_bucket f w) = doc_at r w.
Proof. by destruct r. Qed.
Lemma doc_at_set_credentials r f w : doc_at r (set_credentials f w) = doc_at r w.
Proof. by destruct r. Qed.

(** C9: without an authenticated caller [deleteUserAccount] is the
    ['unauthenticated'] error and nothing else: it issues no request and
    leaves the world as it was.  With a caller [U], whatever the payload,
    the run ends in [{success: true}] or in the ['internal'] error, and it
    writes only documents of [U] (and chats [U] takes part in), deletes
    only objects under [users/U/] and only the credential of [U]. *)
Theorem purge_is_for_the_caller_only :
  (∀ (data : list (string * jsstring)),
     deleteUserAccount data None
     = Throw (HttpsError unauthenticated "User must be authenticated")
     ∧ ∀ fs w, exec fs (deleteUserAccount data None) w
               = (inr (HttpsError unauthenticated "User must be authenticated"), w))
  ∧
  (∀ (fs : list bool) (data : list (string * jsstring)) (U : string) (w : World),
     let res := exec fs (deleteUserAccount data (Some U)) w in
     (res.1 = inl {| success := true |}
      ∨ res.1 = inr (HttpsError internal "Failed to delete user account")) ∧
     (∀ data', deleteUserAccount data' (Some U) = deleteUserAccount data (Some U)) ∧
     (∀ r, ¬ owned_by U w r → doc_at r res.2 = doc_at r w) ∧
     (∀ v, v ≠ U → (v ∈ credentials res.2 ↔ v ∈ credentials w)) ∧
     (∀ name, String.prefix ("users/" +:+ U +:+ "/") name = false →
              (name ∈ bucket res.2 ↔ name ∈ bucket w)) ∧
     messages res.2 = messages w).
Proof.
  split; [done|].
  intros fs data U w res. subst res.
  destruct (purge_run fs data U w) as [(e & ->)|(wb & Hb & [(e & gone & Hgone & ->)|[(e & ->)|(_ & ->)]])];
    cbn [fst snd].
  { split; [by right|]. by repeat split. }
  all: destruct (apply_batch_frame _ _ _ Hb) as (Hcr & Hbk & Hms & _).
  all: split; [by (left + right)|]; split; [done|].
  all: split; [intros r Hr; rewrite ?doc_at_log, ?doc_at_set_credentials, ?doc_at_set_bucket;
               by apply (purge_batch_frames U)|].
  all: cbn [credentials bucket messages log set_credentials set_bucket].
  all: rewrite ?Hcr, ?Hbk, ?Hms.
  - split; [done|]. split; [|done]. intros name Hname.
    rewrite elem_of_difference. split; [tauto|]. intros Hin. split; [done|].
    intros Hg. apply Hgone in Hg as [_ Hp]. unfold user_prefix in Hp. congruence.
  - split; [done|]. split; [|done]. intros name Hname.
    rewrite elem_of_filter. unfold user_prefix. tauto.
  - split.
    { intros v Hv. rewrite elem_of_difference, elem_of_singleton. tauto. }
    split; [|done]. intros name Hname.
    rewrite elem_of_filter. unfold user_prefix. tauto.
Qed.

Lemma purge_is_for_the_caller_only_witness :
  exec [] (deleteUserAccount [] None) social_world
    = (inr (HttpsError unauthenticated "User must be authenticated"), social_world)
  ∧
  (let res := exec [false; false; false; false; false; false; false; true]
                (deleteUserAccount [("uid", utf16 "bea")] (Some "ann")) social_world in
   res.1 = inr (HttpsError internal "Failed to delete user account") ∧
   users res.2 !! "bea" = Some bea ∧ "bea" ∈ credentials res.2 ∧
   "users/bea/avatar.jpg" ∈ bucket res.2).
Proof.
  destruct purge_is_for_the_caller_only as [Hnone Hsome]. split.
  - apply (Hnone []).
  - intros res.
    destruct (Hsome [false; false; false; false; false; false; false; true]
                [("uid", utf16 "bea")] "ann" social_world)
      as (_ & _ & Hdoc & Hcr & Hbk & _).
    split; [vm_compute; reflexivity|]. split; [|split].
    + assert (Hinj : ∀ o o' : option UserDoc, DUser <$> o = DUser <$> o' → o = o').
      { intros [d|] [d'|] E; cbn in E; congruence. }
      transitivity (users social_world !! "bea"); [|reflexivity].
      apply Hinj, (Hdoc (UserRef "bea")). cbn. discriminate.
    + apply Hcr; [discriminate|]. vm_compute. reflexivity.
    + apply Hbk; [reflexivity|]. vm_compute. reflexivity.
Defined.

(** ** The counters against the edges *)

(** C4 fails on the code: [ann] follows [cy] once, from a world where
    counters and edges agree.  The client flow writes both edge documents
    and increments [followingCount] of [ann] itself (its increment of
    [followersCount] of [cy] is refused by the rules); the reconciler,
    triggered by the new [followers] document, increments both counters
    again.  [ann] ends with one [following] edge and [followingCount = 2]. *)
Theorem follow_counts_the_edge_twice :
  let w' := (follow_and_settle "ann" "cy" false newcomers).2 in
  (count_following "ann" newcomers = 0 ∧
   (users newcomers !! "ann" ≫= followingCount) = Some 0 ∧
   count_followers "cy" newcomers = 0 ∧
   (users newcomers !! "cy" ≫= followersCount) = Some 0) ∧
  (count_following "ann" w' = 1 ∧
   (users w' !! "ann" ≫= followingCount) = Some 2 ∧
   count_followers "cy" w' = 1 ∧
   (users w' !! "cy" ≫= followersCount) = Some 1) ∧
  console w' = [LogError "Error updating follow status:" PermissionDenied].
Proof. vm_compute. repeat split. Qed.

(** The client flow of a first follow, under the rules: both edges are
    written, the follower's own [followingCount] is incremented, the
    increment of the other user's [followersCount] is refused. *)
Lemma handleFollow_first_follow me userId w dme :
  me ≠ userId →
  users w !! me = Some dme →
  exec [] (handleFollow me userId false false) w
  = (inl false,
     log (LogError "Error updating follow status:" PermissionDenied)
       (set_users (<[me := apply_updates [Increment FollowingCount 1] dme]>)
          (set_followers (λ s, s ∪ {[(userId, me)]})
             (set_following (λ s, s ∪ {[(me, userId)]}) w)))).
Proof.
  intros Hne Hme.
  assert (Hrule : String.eqb me userId = false) by by apply String.eqb_neq.
  unfold handleFollow. prog_simpl. cbn [exec tail].
  unfold client_set_following, guarded, rule_following. rewrite String.eqb_refl.
  prog_simpl. cbn [exec tail].
  unfold client_set_followers, guarded, rule_followers.
  prog_simpl. cbn [exec tail].
  unfold client_update_user at 1. unfold guarded, rule_user. rewrite String.eqb_refl.
  unfold update_user at 1. cbn [users set_followers set_following]. rewrite Hme.
  prog_simpl. cbn [exec tail].
  unfold client_update_user, guarded, rule_user. rewrite Hrule.
  prog_simpl. done.
Qed.

(** The double count in general: after a first follow of [userId] by
    another existing user [me], and the triggers it fires, [me] has gained
    one [following] edge and 2 in [followingCount]. *)
Lemma follow_counts_twice me userId w dme du :
  me ≠ userId →
  users w !! me = Some dme →
  users w !! userId = Some du →
  (userId, me) ∉ followers w →
  let w' := (follow_and_settle me userId false w).2 in
  (me, userId) ∈ following w' ∧ (userId, me) ∈ followers w' ∧
  (users w' !! me ≫= followingCount) = Some (js_num (followingCount dme) + 2) ∧
  (users w' !! userId ≫= followersCount) = Some (js_num (followersCount du) + 1).
Proof.
  intros Hne Hme Hu Hedge w'. subst w'. unfold follow_and_settle.
  rewrite (handleFollow_first_follow me userId w dme Hne Hme).
  set (w1 := log _ _).
  assert (Hbefore : bool_decide ((userId, me) ∈ followers w) = false)
    by by apply bool_decide_eq_false.
  assert (Hafter : bool_decide ((userId, me) ∈ followers w1) = true).
  { apply bool_decide_eq_true. cbn. apply elem_of_union_r, elem_of_singleton. done. }
  rewrite Hbefore, Hafter. cbn [after_exists before_exists andb negb snd].
  assert (Hme1 : users w1 !! me = Some (apply_updates [Increment FollowingCount 1] dme))
    by (cbn; apply lookup_insert_eq).
  assert (Hu1 : users w1 !! userId = Some du)
    by (cbn; by rewrite lookup_insert_ne).
  destruct (counts_success_run true userId me w1 du _ Hu1 Hme1)
    as (w2 & -> & (du2 & Hu2 & Hfc2) & (dme2 & Hme2 & Hfg2) & _ & _ & Hr2 & _).
  cbn [snd].
  destruct (reward_run [] userId w2) as (w3 & -> & Hr3 & Husers). cbn [snd].
  assert (Hrest : same_rest w1 w3) by by eapply same_rest_trans.
  destruct Hrest as (-> & -> & _).
  split; [cbn; apply elem_of_union_r, elem_of_singleton; done|].
  split; [cbn; apply elem_of_union_r, elem_of_singleton; done|].
  cbn in Hfg2. destruct Husers as [[-> _]|(d & Hd & _ & _ & -> & _)].
  - rewrite Hme2, Hu2. cbn. rewrite Hfg2, Hfc2. split; f_equal; lia.
  - rewrite lookup_insert_ne by done. rewrite lookup_insert_eq, Hme2. cbn.
    assert (d = du2) as -> by congruence.
    rewrite Hfg2, Hfc2. split; f_equal; lia.
Qed.

(** * Further properties of the functions *)

(** ** checkFollowerReward: when nothing is due *)

Lemma reward_not_due_run fs uid w :
  reward_due uid w = false →
  (exec fs (checkFollowerReward uid) w).1 = inl tt ∧
  same_store w (exec fs (checkFollowerReward uid) w).2 ∧
  outbox (exec fs (checkFollowerReward uid) w).2 = outbox w.
Proof.
  intros Hdue. unfold reward_due in Hdue.
  unfold checkFollowerReward. prog_simpl. next_request.
  { by repeat split. }
  unfold get_user. cbn [fst snd].
  destruct (users w !! uid) as [d|] eqn:Hd; prog_simpl.
  2: { by repeat split. }
  next_request.
  { by repeat split. }
  unfold get_rewardRule. prog_simpl.
  match goal with |- context [js_ge _ ?b] => change b with (threshold_of w) end.
  rewrite Hdue. prog_simpl. by repeat split.
Qed.

(** When the test of the handler fails (no user document, a count below
    the threshold, a threshold that is [undefined], or a reward already
    claimed) no run writes anything or posts anything. *)
Theorem no_reward_when_not_due :
  ∀ (fs : list bool) (uid : string) (w : World),
    reward_due uid w = false →
    let res := exec fs (checkFollowerReward uid) w in
    res.1 = inl tt ∧ same_store w res.2 ∧ outbox res.2 = outbox w.
Proof. intros fs uid w Hdue. by apply reward_not_due_run. Qed.

Lemma no_reward_when_not_due_witness :
  let res := exec [] (checkFollowerReward "ann") two_users in
  res.1 = inl tt ∧ same_store two_users res.2 ∧ outbox res.2 = outbox two_users.
Proof.
  apply (no_reward_when_not_due [] "ann" two_users). reflexivity.
Defined.

(** A [settings/rewardRule] document without [followerThreshold] turns
    the reward off for every user and every count; only a missing document
    means 5000. *)
Theorem no_reward_without_configured_threshold :
  ∀ (fs : list bool) (uid : string) (w : World) (s : RewardRule),
    rewardRule w = Some s →
    followerThreshold s = None →
    let res := exec fs (checkFollowerReward uid) w in
    same_store w res.2 ∧ outbox res.2 = outbox w.
Proof.
  intros fs uid w s Hrule Hthr.
  apply (reward_not_due_run fs uid w).
  unfold reward_due, threshold_of. rewrite Hrule, Hthr.
  by destruct (users w !! uid).
Qed.

Lemma no_reward_without_configured_threshold_witness :
  let w := mkWorld (users two_users) ∅ ∅ ∅ (Some (mkRule None (Some 250)))
             ∅ ∅ ∅ ∅ ∅ ∅ [] [] ReceiptOk in
  let res := exec [] (checkFollowerReward "bea") w in
  users w !! "bea" = Some bea ∧ same_store w res.2 ∧ outbox res.2 = outbox w.
Proof.
  intros w res. split; [reflexivity|].
  apply (no_reward_without_configured_threshold [] "bea" w (mkRule None (Some 250)));
    reflexivity.
Defined.

(** ** The follower-edge triggers: what they never touch *)

(** The fields of a user document no trigger writes. *)
Lemma counts_run_fields fs c userId followerId w v :
  let w' := (exec fs (updateFollowerCounts c userId followerId) w).2 in
  (users w !! v = None ∧ users w' !! v = None)
  ∨ ∃ d d', users w !! v = Some d ∧ users w' !! v = Some d' ∧
      wallet_balance d' = wallet_balance d ∧ rewardClaimed d' = rewardClaimed d ∧
      pushToken d' = pushToken d ∧ settings_notifications d' = settings_notifications d ∧
      profile d' = profile d.
Proof.
  intros w'. subst w'.
  assert (Hsame : ∀ w0 : World, users w0 = users w →
            (users w !! v = None ∧ users w0 !! v = None)
            ∨ ∃ d d', users w !! v = Some d ∧ users w0 !! v = Some d' ∧
                wallet_balance d' = wallet_balance d ∧ rewardClaimed d' = rewardClaimed d ∧
                pushToken d' = pushToken d ∧
                settings_notifications d' = settings_notifications d ∧
                profile d' = profile d).
  { intros w0 ->. destruct (users w !! v) as [d|]; [right|by left].
    by exists d, d. }
  unfold updateFollowerCounts. prog_simpl. next_request.
  { by apply Hsame. }
  destruct (commit_all_or_nothing (follower_count_batch c userId followerId) w)
    as [(wb & Hb & ->)|[_ ->]]; prog_simpl.
  2: { by apply Hsame. }
  unfold follower_count_batch in Hb.
  destruct (after_exists c), (before_exists c); cbn [andb negb] in Hb.
  1,4: injection Hb as <-; by apply Hsame.
  all: destruct (count_batch_fields _ _ _ _ _ v Hb)
         as [(d & d' & E & E' & Hw & Hc & Hp & Hs & Hpr & _)|[E E']]; [right|by left].
  all: by exists d, d'.
Qed.

(** One delivery keeps every user document in place with its token,
    notification setting and profile, keeps every transaction record as
    it is, and leaves every other collection alone. *)
Lemma deliver_keeps dl w :
  let w' := deliver dl w in
  (∀ v, (users w !! v = None ∧ users w' !! v = None)
        ∨ ∃ d d', users w !! v = Some d ∧ users w' !! v = Some d' ∧
            pushToken d' = pushToken d ∧
            settings_notifications d' = settings_notifications d ∧
            profile d' = profile d) ∧
  (∀ k tx, transactions w !! k = Some tx → transactions w' !! k = Some tx) ∧
  same_rest w w'.
Proof.
  destruct dl as [u fs|c u f fs]; cbn [deliver].
  - destruct (reward_run fs u w) as (w' & -> & Hr & [[Hu Ht]|(d & Hd & _ & _ & Hu & Ht)]);
      cbn [snd].
    + split; [|split; [by rewrite Ht|done]].
      intros v. rewrite Hu. destruct (users w !! v) as [d|]; [right|by left].
      by exists d, d.
    + split; [|split; [|done]].
      * intros v. rewrite Hu. destruct (decide (v = u)) as [->|Hne].
        -- right. exists d, (credited 1000 d). by rewrite lookup_insert_eq.
        -- rewrite lookup_insert_ne by done.
           destruct (users w !! v) as [d0|]; [right|by left]. by exists d0, d0.
      * intros k tx Hk. destruct Ht as [->| ->]; [done|].
        rewrite lookup_insert_ne; [done|]. intros <-.
        by rewrite auto_id_fresh in Hk.
  - destruct (counts_run fs c u f w) as (w' & E & Hr & Ht & _).
    split; [|split; [rewrite E; cbn [snd]; by rewrite Ht|by rewrite E]].
    intros v. destruct (counts_run_fields fs c u f w v)
      as [[E1 E2]|(d & d' & E1 & E2 & _ & _ & Hp & Hs & Hpr)]; [by left|right].
    by exists d, d'.
Qed.

(** However often and in whatever order the two follower-edge triggers
    are delivered, with whatever failures: no user document appears or
    disappears, no push token, notification setting or profile field
    changes, no existing transaction record is changed or deleted, and
    no other collection, file or credential is touched. *)
Theorem triggers_keep_documents :
  ∀ (ds : list Delivery) (w : World),
    let w' := deliver_all ds w in
    (∀ v, (users w !! v = None ∧ users w' !! v = None)
          ∨ ∃ d d', users w !! v = Some d ∧ users w' !! v = Some d' ∧
              pushToken d' = pushToken d ∧
              settings_notifications d' = settings_notifications d ∧
              profile d' = profile d) ∧
    (∀ k tx, transactions w !! k = Some tx → transactions w' !! k = Some tx) ∧
    same_rest w w'.
Proof.
  intros ds. induction ds as [|dl ds IH]; intros w.
  - cbn. split; [|split; [done|apply same_rest_refl]].
    intros v. destruct (users w !! v) as [d|]; [right|by left].
    by exists d, d.
  - change (deliver_all (dl :: ds) w) with (deliver_all ds (deliver dl w)). cbv zeta.
    destruct (deliver_keeps dl w) as (Hu1 & Ht1 & Hr1).
    destruct (IH (deliver dl w)) as (Hu2 & Ht2 & Hr2).
    split; [|split; [auto|by eapply same_rest_trans]].
    intros v. destruct (Hu1 v) as [[E1 E2]|(d & d1 & E1 & E2 & Hp & Hs & Hpr)];
      destruct (Hu2 v) as [[E3 E4]|(d1' & d2 & E3 & E4 & Hp2 & Hs2 & Hpr2)];
      try congruence.
    + by left.
    + right. exists d, d2. assert (d1' = d1) as -> by congruence.
      repeat split; congruence.
Qed.

(** ** sendMessageNotification: every run *)

(** A call of the push helper at the end of a [try] block: it returns,
    with the same documents and at most its own request in the outbox. *)
Lemma push_run fs m (h : JsError → Prog unit) w :
  ∃ w', exec fs (try_catch (sendPushNotification m) h) w = (inl tt, w') ∧
    same_store w w' ∧ (outbox w' = outbox w ∨ outbox w' = outbox w ++ [m]).
Proof.
  unfold sendPushNotification. prog_simpl. next_request.
  { eexists. split; [done|]. split; [by repeat split|by left]. }
  unfold gateway_fetch. destruct (gateway w); prog_simpl.
  2-4: next_request.
  all: eexists; (split; [reflexivity|]); cbn [response_json fst snd]; prog_simpl.
  all: split; [by repeat split|by right].
Qed.

(** Every run of [sendMessageNotification] returns normally and writes
    no document; it posts nothing, or one notification, and then only
    under the conditions the handler tests. *)
Lemma message_run fs chatId messageData w :
  ∃ w', exec fs (sendMessageNotification chatId messageData) w = (inl tt, w') ∧
    same_store w w' ∧
    (outbox w' = outbox w
     ∨ ∃ chatData recipientId recipientData token,
         chats w !! chatId = Some chatData ∧
         find (λ id, negb (String.eqb id (senderId messageData))) (participants chatData)
           = Some recipientId ∧
         recipientId ≠ "" ∧
         users w !! recipientId = Some recipientData ∧
         pushToken recipientData = Some token ∧ token ≠ "" ∧
         settings_notifications recipientData = true ∧
         outbox w' = outbox w ++ [message_notification token chatId messageData]).
Proof.
  unfold sendMessageNotification. prog_simpl. next_request.
  { eexists. split; [done|]. split; [by repeat split|by left]. }
  unfold get_chat. cbn [fst snd].
  destruct (chats w !! chatId) as [chatData|] eqn:Hchat; prog_simpl.
  2: { eexists. split; [done|]. split; [by repeat split|by left]. }
  destruct (find _ (participants chatData)) as [rid|] eqn:Hfind; cbn [truthy_id negb].
  2: { prog_simpl. eexists. split; [done|]. split; [by repeat split|by left]. }
  destruct (String.eqb rid "") eqn:Hrid; cbn [negb]; prog_simpl.
  { eexists. split; [done|]. split; [by repeat split|by left]. }
  apply String.eqb_neq in Hrid.
  cbn [default from_option id]. next_request.
  { eexists. split; [done|]. split; [by repeat split|by left]. }
  unfold get_user. cbn [fst snd].
  destruct (users w !! rid) as [d|] eqn:Hd; prog_simpl.
  2: { eexists. split; [done|]. split; [by repeat split|by left]. }
  destruct (pushToken d) as [tok|] eqn:Htok; cbn [truthy_id negb orb].
  2: { prog_simpl. eexists. split; [done|]. split; [by repeat split|by left]. }
  destruct (String.eqb tok "") eqn:Htokne; cbn [negb orb]; prog_simpl.
  { eexists. split; [done|]. split; [by repeat split|by left]. }
  apply String.eqb_neq in Htokne.
  destruct (settings_notifications d) eqn:Hn; cbn [negb]; prog_simpl.
  2: { eexists. split; [done|]. split; [by repeat split|by left]. }
  cbn [default from_option id].
  match goal with |- context [exec ?f (try_catch (sendPushNotification ?m) ?h) ?w0] =>
    destruct (push_run f m h w0) as (w' & -> & Hs & Ho) end.
  exists w'. split; [done|]. split; [done|].
  destruct Ho as [Ho|Ho]; [by left|right].
  exists chatData, rid, d, tok. by repeat split.
Qed.

(** [sendMessageNotification] never fails and never writes: every run,
    whatever requests fail, returns normally, leaves every document, file
    and credential as it was, and posts at most one notification. *)
Theorem message_handler_only_notifies :
  ∀ (fs : list bool) (chatId : string) (messageData : Message) (w : World),
    let res := exec fs (sendMessageNotification chatId messageData) w in
    res.1 = inl tt ∧ same_store w res.2 ∧
    (outbox res.2 = outbox w ∨ ∃ m, outbox res.2 = outbox w ++ [m]).
Proof.
  intros fs chatId messageData w res. subst res.
  destruct (message_run fs chatId messageData w) as (w' & -> & Hs & Ho). cbn [fst snd].
  split; [done|]. split; [done|].
  destruct Ho as [Ho|(_ & _ & _ & tok & _ & _ & _ & _ & _ & _ & _ & Ho)]; eauto.
Qed.

(** A notification is posted only for a message in an existing chat, and
    it goes to the push token of the first participant other than the
    sender, whose notifications are on; it is tagged with the chat and the
    sender, and titled with the sender name, or ['New Message'] when the
    name is missing or empty. *)
Theorem message_notification_goes_to_the_other_participant :
  ∀ (fs : list bool) (chatId : string) (messageData : Message) (w : World)
    (m : PushMessage),
    outbox (exec fs (sendMessageNotification chatId messageData) w).2 = outbox w ++ [m] →
    ∃ chatData recipientId recipientData,
      chats w !! chatId = Some chatData ∧
      find (λ id, negb (String.eqb id (senderId messageData))) (participants chatData)
        = Some recipientId ∧
      recipientId ∈ participants chatData ∧
      recipientId ≠ senderId messageData ∧
      users w !! recipientId = Some recipientData ∧
      pushToken recipientData = Some (to m) ∧
      settings_notifications recipientData = true ∧
      data m = MessageData chatId (senderId messageData) ∧
      title m = match senderName messageData with
                | Some (c :: name) => c :: name
                | _ => utf16 "New Message"
                end.
Proof.
  intros fs chatId messageData w m Hout.
  destruct (message_run fs chatId messageData w) as (w' & E & _ & Ho).
  rewrite E in Hout. cbn [snd] in Hout.
  destruct Ho as [Ho|(chatData & rid & d & tok & Hc & Hf & Hne & Hd & Ht & _ & Hn & Ho)].
  { rewrite Ho in Hout. apply (f_equal length) in Hout. rewrite length_app in Hout.
    cbn in Hout. lia. }
  rewrite Ho in Hout. apply app_inj_tail in Hout as [_ <-].
  exists chatData, rid, d. split; [done|]. split; [done|].
  apply find_some in Hf as [Hin Hneq].
  split; [by apply list_elem_of_In|]. split.
  { apply negb_true_iff, String.eqb_neq in Hneq. done. }
  repeat split; try done.
  cbn. by destruct (senderName messageData) as [[|c name]|].
Qed.

Lemma message_notification_goes_to_the_other_participant_witness :
  let msg := mkMessage "ann" (Some []) (utf16 "hello") in
  let w := set_chats (<["ann_bea" := mkChat ["ann"; "bea"] []]>) two_users in
  ∃ m, outbox (exec [] (sendMessageNotification "ann_bea" msg) w).2 = [m] ∧
    to m = "ExponentPushToken[bea]" ∧ title m = utf16 "New Message".
Proof.
  intros msg w.
  assert (Hout : outbox (exec [] (sendMessageNotification "ann_bea" msg) w).2
                 = outbox w ++ [message_notification "ExponentPushToken[bea]" "ann_bea" msg])
    by (vm_compute; reflexivity).
  destruct (message_notification_goes_to_the_other_participant [] "ann_bea" msg w _ Hout)
    as (chatData & rid & d & _ & _ & _ & _ & _ & _ & _ & _ & Htitle).
  eexists. split; [exact Hout|]. split; [reflexivity|exact Htitle].
Defined.

(** The notification preference is respected: when the recipient the
    handler picks has notifications off, or no push token, no run posts
    anything. *)
Theorem no_notification_when_recipient_opted_out :
  ∀ (fs : list bool) (chatId : string) (messageData : Message) (w : World)
    (chatData : Chat) (recipientId : string) (recipientData : UserDoc),
    chats w !! chatId = Some chatData →
    find (λ id, negb (String.eqb id (senderId messageData))) (participants chatData)
      = Some recipientId →
    users w !! recipientId = Some recipientData →
    settings_notifications recipientData = false ∨ pushToken recipientData = None
      ∨ pushToken recipientData = Some "" →
    outbox (exec fs (sendMessageNotification chatId messageData) w).2 = outbox w.
Proof.
  intros fs chatId messageData w chatData rid d Hc Hf Hd Hoff.
  destruct (message_run fs chatId messageData w) as (w' & -> & _ & Ho). cbn [snd].
  destruct Ho as [Ho|(chatData' & rid' & d' & tok & Hc' & Hf' & _ & Hd' & Ht & Htne & Hn & _)];
    [done|].
  exfalso. assert (chatData' = chatData) as -> by congruence.
  assert (rid' = rid) as -> by congruence. assert (d' = d) as -> by congruence.
  destruct Hoff as [H|[H|H]]; congruence.
Qed.

Lemma no_notification_when_recipient_opted_out_witness :
  let quiet := mkUser (Some 1) (Some 1) (Some 0) false (Some "ExponentPushToken[cy]") false [] in
  let w := set_chats (<["ann_cy" := mkChat ["ann"; "cy"] []]>)
             (set_users (<["cy" := quiet]>) two_users) in
  outbox (exec [] (sendMessageNotification "ann_cy"
                     (mkMessage "ann" None (utf16 "hello"))) w).2 = [].
Proof.
  intros quiet w.
  apply (no_notification_when_recipient_opted_out [] "ann_cy" _ w
           (mkChat ["ann"; "cy"] []) "cy" quiet).
  - reflexivity.
  - reflexivity.
  - reflexivity.
  - left. reflexivity.
Defined.

(** ** updateFollowerCounts: edge cases and composition *)

Lemma counts_noop_run fs change userId followerId w :
  before_exists change = after_exists change →
  (exec fs (updateFollowerCounts change userId followerId) w).1 = inl tt ∧
  same_store w (exec fs (updateFollowerCounts change userId followerId) w).2 ∧
  outbox (exec fs (updateFollowerCounts change userId followerId) w).2 = outbox w.
Proof.
  intros Hsame.
  assert (Hbatch : follower_count_batch change userId followerId = []).
  { unfold follower_count_batch. rewrite Hsame. by destruct (after_exists change). }
  unfold updateFollowerCounts. rewrite Hbatch. prog_simpl. next_request.
  - by repeat split.
  - cbn. by repeat split.
Qed.

(** An event that is neither a creation nor a deletion (an edge document
    overwritten, as a repeated follow does) moves no counter: no run
    writes anything, whether the user documents exist or not. *)
Theorem edge_update_moves_no_counter :
  ∀ (fs : list bool) (change : Change) (userId followerId : string) (w : World),
    before_exists change = after_exists change →
    let res := exec fs (updateFollowerCounts change userId followerId) w in
    res.1 = inl tt ∧ same_store w res.2 ∧ outbox res.2 = outbox w.
Proof. intros fs change userId followerId w Hsame. by apply counts_noop_run. Qed.

Lemma edge_update_moves_no_counter_witness :
  let res := exec [] (updateFollowerCounts (mkChange true true) "bea" "ann") two_users in
  res.1 = inl tt ∧ same_store two_users res.2 ∧ outbox res.2 = outbox two_users.
Proof.
  apply (edge_update_moves_no_counter [] (mkChange true true) "bea" "ann" two_users).
  reflexivity.
Defined.



(** One delivery of a creation ([created = true]) or deletion event that
    meets no failure, as seen from any user document. *)
Lemma counts_step (created : bool) (userId followerId : string) (w : World) (du df : UserDoc) :
  users w !! userId = Some du →
  users w !! followerId = Some df →
  let change := if created then mkChange false true else mkChange true false in
  let δ := if created then 1 else -1 in
  let w' := deliver (CountUpdate change userId followerId []) w in
  (∀ v, (users w !! v = None ∧ users w' !! v = None)
        ∨ ∃ d d', users w !! v = Some d ∧ users w' !! v = Some d' ∧
            wallet_balance d' = wallet_balance d ∧ rewardClaimed d' = rewardClaimed d ∧
            pushToken d' = pushToken d ∧
            settings_notifications d' = settings_notifications d ∧
            profile d' = profile d ∧
            js_num (followersCount d') =
              js_num (followersCount d) + (if decide (v = userId) then δ else 0) ∧
            js_num (followingCount d') =
              js_num (followingCount d) + (if decide (v = followerId) then δ else 0)) ∧
  transactions w' = transactions w ∧ same_rest w w' ∧ outbox w' = outbox w.
Proof.
  intros Hu Hf change δ w'. subst w' change δ. cbn [deliver].
  destruct (counts_success_run created userId followerId w du df Hu Hf)
    as (w' & -> & (du' & Hu' & Hfc) & (df' & Hf' & Hfg) & Hfields & Ht & Hr & Ho & _).
  cbn [snd]. split; [|done].
  intros v. destruct (Hfields v)
    as [[E1 E2]|(d & d' & E1 & E2 & Hw & Hc & Hp & Hs & Hpr & Hnu & Hnf)]; [by left|right].
  exists d, d'. repeat (split; [done|]). split.
  - destruct (decide (v = userId)) as [->|Hne].
    + assert (d = du) as -> by congruence. assert (d' = du') as -> by congruence.
      by rewrite Hfc.
    + rewrite (Hnu Hne). lia.
  - destruct (decide (v = followerId)) as [->|Hne].
    + assert (d = df) as -> by congruence. assert (d' = df') as -> by congruence.
      by rewrite Hfg.
    + rewrite (Hnf Hne). lia.
Qed.

(** The same with the fields as they are stored: a counter the event
    moves is written as a number, also where the document had no such
    field. *)
Lemma counts_step_exact (created : bool) (userId followerId : string) (w : World)
    (du df : UserDoc) :
  users w !! userId = Some du →
  users w !! followerId = Some df →
  let change := if created then mkChange false true else mkChange true false in
  let δ := if created then 1 else -1 in
  let w' := deliver (CountUpdate change userId followerId []) w in
  (∀ v, (users w !! v = None ∧ users w' !! v = None)
        ∨ ∃ d d', users w !! v = Some d ∧ users w' !! v = Some d' ∧
            wallet_balance d' = wallet_balance d ∧ rewardClaimed d' = rewardClaimed d ∧
            pushToken d' = pushToken d ∧
            settings_notifications d' = settings_notifications d ∧
            profile d' = profile d ∧
            followersCount d' =
              (if decide (v = userId) then Some (js_num (followersCount d) + δ)
               else followersCount d) ∧
            followingCount d' =
              (if decide (v = followerId) then Some (js_num (followingCount d) + δ)
               else followingCount d)) ∧
  transactions w' = transactions w ∧ same_rest w w' ∧ outbox w' = outbox w.
Proof.
  intros Hu Hf change δ w'. subst w' change δ. cbn [deliver].
  destruct (counts_success_run created userId followerId w du df Hu Hf)
    as (w' & -> & (du' & Hu' & Hfc) & (df' & Hf' & Hfg) & Hfields & Ht & Hr & Ho & _).
  cbn [snd]. split; [|done].
  intros v. destruct (Hfields v)
    as [[E1 E2]|(d & d' & E1 & E2 & Hw & Hc & Hp & Hs & Hpr & Hnu & Hnf)]; [by left|right].
  exists d, d'. repeat (split; [done|]). split.
  - destruct (decide (v = userId)) as [->|Hne]; [|by apply Hnu].
    assert (d = du) as -> by congruence. assert (d' = du') as -> by congruence. done.
  - destruct (decide (v = followerId)) as [->|Hne]; [|by apply Hnf].
    assert (d = df) as -> by congruence. assert (d' = df') as -> by congruence. done.
Qed.

(** Follow then unfollow, as the reconciler sees it: a creation event
    followed by the deletion event for the same edge leaves
    [followersCount] of the followed user and [followingCount] of the
    follower at the number they had, stored as a number: a field the
    document lacked is now 0.  Every other field and every other document
    is as it was. *)
Theorem creation_then_deletion_restores_counters :
  ∀ (userId followerId : string) (w : World) (du df : UserDoc),
    users w !! userId = Some du →
    users w !! followerId = Some df →
    let w' := deliver_all [CountUpdate (mkChange false true) userId followerId [];
                           CountUpdate (mkChange true false) userId followerId []] w in
    (∀ v, (users w !! v = None ∧ users w' !! v = None)
          ∨ ∃ d d', users w !! v = Some d ∧ users w' !! v = Some d' ∧
              followersCount d' =
                (if decide (v = userId) then Some (js_num (followersCount d))
                 else followersCount d) ∧
              followingCount d' =
                (if decide (v = followerId) then Some (js_num (followingCount d))
                 else followingCount d) ∧
              wallet_balance d' = wallet_balance d ∧ rewardClaimed d' = rewardClaimed d ∧
              pushToken d' = pushToken d ∧
              settings_notifications d' = settings_notifications d ∧
              profile d' = profile d) ∧
    transactions w' = transactions w ∧ same_rest w w' ∧ outbox w' = outbox w.
Proof.
  intros userId followerId w du df Hu Hf w'. subst w'. cbn [deliver_all foldl].
  destruct (counts_step_exact true userId followerId w du df Hu Hf)
    as (H1 & Ht1 & Hr1 & Ho1).
  set (w1 := deliver _ w) in *.
  destruct (H1 userId) as [[E _]|(d & du1 & E & Hu1 & _)]; [congruence|].
  destruct (H1 followerId) as [[E' _]|(d' & df1 & E' & Hf1 & _)]; [congruence|].
  destruct (counts_step_exact false userId followerId w1 du1 df1 Hu1 Hf1)
    as (H2 & Ht2 & Hr2 & Ho2).
  split; [|split; [congruence|split; [by eapply same_rest_trans|congruence]]].
  intros v.
  destruct (H1 v) as [[E1 E2]|(d0 & d1 & E1 & E2 & Hw & Hc & Hp & Hs & Hpr & Hfc & Hfg)];
    destruct (H2 v) as [[E3 E4]|(d1' & d2 & E3 & E4 & Hw2 & Hc2 & Hp2 & Hs2 & Hpr2 & Hfc2 & Hfg2)];
    try congruence; [by left|right].
  assert (d1' = d1) as -> by congruence.
  exists d0, d2. split; [done|]. split; [done|].
  split.
  { rewrite Hfc2, Hfc. destruct (decide (v = userId)); [|done]. cbn. f_equal. lia. }
  split.
  { rewrite Hfg2, Hfg. destruct (decide (v = followerId)); [|done]. cbn. f_equal. lia. }
  repeat split; congruence.
Qed.

Lemma creation_then_deletion_restores_counters_witness :
  let w' := deliver_all [CountUpdate (mkChange false true) "cy" "ann" [];
                         CountUpdate (mkChange true false) "cy" "ann" []]
              (set_users (λ _, {[ "ann" := ann;
                                  "cy" := mkUser None None None false None true [] ]})
                 empty_world) in
  ∃ d', users w' !! "cy" = Some d' ∧
        followersCount d' = Some 0 ∧ followingCount d' = None.
Proof.
  intros w'.
  destruct (creation_then_deletion_restores_counters "cy" "ann"
              (set_users (λ _, {[ "ann" := ann;
                                  "cy" := mkUser None None None false None true [] ]})
                 empty_world)
              (mkUser None None None false None true []) ann)
    as (H & _); [reflexivity|reflexivity|].
  destruct (H "cy") as [[E _]|(d & d' & E1 & E2 & Hfc & Hfg & _)]; [discriminate E|].
  injection E1 as <-. exists d'. split; [exact E2|]. split; [exact Hfc|exact Hfg].
Defined.

(** The reconciler is not idempotent and has no floor: the same creation
    event delivered [n] times adds [n] to both counters, the same deletion
    event delivered [n] times subtracts [n], below 0 if need be. *)
Theorem repeated_delivery_counts_every_time :
  ∀ (n : nat) (created : bool) (userId followerId : string) (w : World) (du df : UserDoc),
    users w !! userId = Some du →
    users w !! followerId = Some df →
    let change := if created then mkChange false true else mkChange true false in
    let δ := if created then 1 else -1 in
    let w' := deliver_all (replicate n (CountUpdate change userId followerId [])) w in
    ∃ du' df', users w' !! userId = Some du' ∧ users w' !! followerId = Some df' ∧
      js_num (followersCount du') = js_num (followersCount du) + δ * Z.of_nat n ∧
      js_num (followingCount df') = js_num (followingCount df) + δ * Z.of_nat n.
Proof.
  intros n created userId followerId. induction n as [|n IH]; intros w du df Hu Hf change δ w'.
  - exists du, df. subst w'. cbn. repeat split; try done; lia.
  - subst w'. cbn [replicate].
    change (deliver_all (?d :: ?ds) w) with (deliver_all ds (deliver d w)).
    destruct (counts_step created userId followerId w du df Hu Hf) as (H1 & _).
    fold change in H1. set (w1 := deliver _ w) in *.
    destruct (H1 userId) as [[E _]|(d & du1 & E & Hu1 & _ & _ & _ & _ & _ & Hfc & _)];
      [congruence|].
    destruct (H1 followerId) as [[E' _]|(d' & df1 & E' & Hf1 & _ & _ & _ & _ & _ & _ & Hfg)];
      [congruence|].
    assert (d = du) as -> by congruence. assert (d' = df) as -> by congruence.
    destruct (IH w1 du1 df1 Hu1 Hf1) as (du' & df' & Hu' & Hf' & Hn1 & Hn2).
    exists du', df'. split; [done|]. split; [done|].
    rewrite decide_True in Hfc by done. rewrite decide_True in Hfg by done.
    fold δ in Hn1, Hn2, Hfc, Hfg. split; lia.
Qed.

Lemma repeated_delivery_counts_every_time_witness :
  let w' := deliver_all (replicate 3 (CountUpdate (mkChange true false) "ann" "bea" []))
              two_users in
  ∃ du' df', users w' !! "ann" = Some du' ∧ users w' !! "bea" = Some df' ∧
    js_num (followersCount du') = -3 ∧ js_num (followingCount df') = 0.
Proof.
  intros w'.
  destruct (repeated_delivery_counts_every_time 3 false "ann" "bea" two_users ann bea)
    as (du' & df' & Hu & Hf & Hn1 & Hn2).
  - reflexivity.
  - reflexivity.
  - exists du', df'. split; [exact Hu|]. split; [exact Hf|].
    split; [exact Hn1 | exact Hn2].
Defined.

(** ** deleteUserAccount: the batch always applies *)

Lemma touches_chat_writes U l : touches <$> chat_writes U l = ChatRef <$> l.*1.
Proof.
  unfold chat_writes. rewrite <- !list_fmap_compose. apply list_fmap_ext.
  intros i [c ch] _. cbn. by case_bool_decide.
Qed.

(** No two writes of the purge are addressed to the same document. *)
Lemma purge_batch_targets_distinct U w : NoDup (touches <$> purge_batch U w).
Proof.
  unfold purge_batch. rewrite !fmap_app, touches_chat_writes, <- !list_fmap_compose.
  repeat (apply NoDup_app; split; [|split]).
  all: try (apply NoDup_fmap_2;
            [ intros x y; cbn; (try destruct x, y); cbn; congruence | ]).
  all: try apply NoDup_fst_map_to_list.
  all: try apply NoDup_elements.
  all: try apply NoDup_singleton.
  all: try (rewrite (list_fmap_compose fst ChatRef); apply NoDup_fmap_2;
            [ intros ?? [=]; done | apply NoDup_fst_map_to_list ]).
  all: intros x; rewrite ?elem_of_app, ?list_elem_of_fmap, ?list_elem_of_singleton.
  all: intros H H'.
  all: repeat match goal with
         | H : _ ∨ _ |- _ => destruct H as [H|H]
         | H : ∃ _, _ |- _ => destruct H as (? & ? & ?)
         | H : _ ∈ [_] |- _ => apply list_elem_of_singleton in H
         end; cbn in *; subst; cbn in *; congruence.
Qed.

Lemma apply_write_ready b w : ready b w → is_Some (apply_write b w).
Proof.
  destruct b as [r|uid us|c uid]; cbn; [done| |].
  - destruct (users w !! uid); [done|]. by intros [? ?].
  - destruct (chats w !! c); [done|]. by intros [? ?].
Qed.

(** A batch whose writes go to distinct documents and each find what
    they need is committed. *)
Lemma apply_batch_ready bs w :
  NoDup (touches <$> bs) → (∀ b, b ∈ bs → ready b w) → is_Some (apply_batch bs w).
Proof.
  revert w. induction bs as [|b bs IH]; intros w Hnd Hready; [done|].
  rewrite fmap_cons in Hnd. apply NoDup_cons in Hnd as [Hnin Hnd].
  destruct (apply_write_ready b w) as [w1 E]; [apply Hready; left|].
  cbn. rewrite E. cbn. apply IH; [done|].
  intros b' Hb'. assert (Hr := Hready b' ltac:(by right)).
  destruct b' as [r|uid us|c uid]; [done| |]; unfold ready in *.
  all: rewrite (apply_write_doc_at _ _ _ _ E); unfold doc_step.
  all: rewrite decide_False; [done|].
  all: intros Heq; apply Hnin; rewrite Heq; apply list_elem_of_fmap; eauto.
Qed.

Lemma purge_batch_applies U w : is_Some (apply_batch (purge_batch U w) w).
Proof.
  apply apply_batch_ready; [apply purge_batch_targets_distinct|].
  intros b Hb. unfold purge_batch in Hb.
  rewrite !elem_of_app, !list_elem_of_fmap, elem_chat_writes in Hb.
  destruct Hb as [[[[[[H|H]|H]|H]|H]|H]|H].
  - by apply list_elem_of_singleton in H as ->.
  - by destruct H as (? & -> & _).
  - by destruct H as (? & -> & _).
  - destruct H as (c & ch & Hin & ->). apply elem_chats_with in Hin as [Hc _].
    case_bool_decide; [done|]. unfold ready. cbn. by rewrite Hc.
  - by destruct H as (? & -> & _).
  - by destruct H as (? & -> & _).
  - by destruct H as (? & -> & _).
Qed.

(** What the committed batch leaves in Firestore. *)
Lemma purge_commit_effects U w wb :
  apply_batch (purge_batch U w) w = Some wb → documents_purged U wb.
Proof.
  intros Hb. split; [exact (purge_removes_user U w wb Hb)|].
  split.
  { intros p post Hp Hown.
    destruct (purge_removes U w wb (PostRef p) (DPost post) Hb) as [Hw Hn]; try done.
    { cbn. by rewrite Hp. }
    apply Hn. cbn in *. destruct (posts w !! p) as [post'|]; [|done].
    cbn in *. congruence. }
  split.
  { intros [p c] cm Hc Hown.
    destruct (purge_removes U w wb (CommentRef p c) (DComment cm) Hb) as [Hw Hn]; try done.
    { cbn. by rewrite Hc. }
    apply Hn. cbn in *. destruct (comments w !! (p, c)) as [cm'|]; [|done].
    cbn in *. congruence. }
  split.
  { intros c ch' Hc HU.
    pose proof (apply_batch_doc_at _ _ _ (ChatRef c) Hb) as Hdoc.
    cbn [doc_at] in Hdoc. rewrite Hc in Hdoc.
    destruct (chats w !! c) as [ch|] eqn:Hw.
    - destruct (decide (U ∈ participants ch)) as [Hin|Hnin].
      + rewrite (fold_purge_chat U w c ch _ Hw Hin) in Hdoc.
        case_bool_decide; cbn in Hdoc; [done|].
        injection Hdoc as ->. cbn in HU. unfold arrayRemove in HU.
        apply list_elem_of_filter in HU as [HU _]. done.
      + rewrite fold_untouched in Hdoc.
        * cbn in Hdoc. injection Hdoc as ->. done.
        * intros b Hb' Heq. apply purge_batch_touches in Hb'. rewrite Heq in Hb'.
          cbn in Hb'. destruct Hb' as (ch0 & E0 & Hin0). congruence.
    - cbn in Hdoc. by rewrite fold_none in Hdoc. }
  split.
  { intros t Hin.
    destruct (purge_removes U w wb (FollowingRef U t) DEdge Hb) as [_ Hn]; try done.
    cbn. by rewrite decide_True. }
  split.
  { intros f Hin.
    destruct (purge_removes U w wb (FollowersRef U f) DEdge Hb) as [_ Hn]; try done.
    cbn. by rewrite decide_True. }
  intros i. destruct (transactions wb !! (U, i)) as [tx|] eqn:Ht; [|done].
  destruct (purge_removes U w wb (TransactionRef U i) (DTransaction tx) Hb)
    as [_ Hn]; try done.
  cbn. by rewrite Ht.
Qed.

(** The run that meets no failing request. *)
(** [deleteFiles] when no request fails: every object of the list is
    deleted. *)
Lemma delete_each_no_faults {B} names : ∀ (k : unit → Prog B) h w,
  exec [] (try_catch (bind (delete_each names None) k) h) w
  = exec [] (try_catch (k tt) h) (set_bucket (λ b, b ∖ list_to_set names) w).
Proof.
  induction names as [|name names IH]; intros k h w.
  - cbn [delete_each bind try_catch list_to_set foldr].
    by rewrite (set_bucket_same (λ b, b ∖ ∅) w) by apply difference_empty_L.
  - cbn [delete_each bind try_catch exec tail delete_object]. rewrite IH.
    f_equal. unfold set_bucket. cbn. f_equal. apply set_eq. intros x.
    rewrite !elem_of_difference, elem_of_union. tauto.
Qed.

Lemma purge_run_no_faults data U w wb :
  apply_batch (purge_batch U w) w = Some wb →
  let files_gone :=
    set_bucket (filter (λ name, String.prefix (user_prefix U) name = false)) in
  exec [] (deleteUserAccount data (Some U)) w
  = if bool_decide (U ∈ credentials w)
    then (inl {| success := true |},
          log (LogInfo "User account successfully deleted")
            (set_credentials (λ s, s ∖ {[U]}) (files_gone wb)))
    else (inr purge_failed,
          log (LogError "Error deleting user account:" AuthUserNotFound) (files_gone wb)).
Proof.
  intros Hb files_gone. subst files_gone.
  destruct (apply_batch_frame _ _ _ Hb) as (Hcr & _).
  unfold deleteUserAccount, deleteFiles. prog_simpl.
  cbn [exec tail query_posts query_comments query_chats list_following list_followers
       list_transactions fst snd].
  prog_simpl. cbn [exec tail query_posts query_comments query_chats list_following
                   list_followers list_transactions fst snd].
  repeat (prog_simpl; cbn [exec tail query_posts query_comments query_chats list_following
                           list_followers list_transactions fst snd]).
  fold (purge_batch U w). unfold commit. rewrite Hb.
  prog_simpl. cbn [exec tail list_objects fst snd]. prog_simpl.
  rewrite delete_each_no_faults.
  rewrite (set_bucket_ext _ (filter (λ name, String.prefix (user_prefix U) name = false)) wb)
    by apply bucket_without_prefix.
  repeat (prog_simpl; cbn [exec tail fst snd]).
  unfold deleteUser. cbn [credentials set_bucket]. rewrite Hcr.
  case_bool_decide; prog_simpl; done.
Qed.

(** When no request fails in transit the purge commits its batch
    whatever the store holds, and it reports success exactly when the
    caller still has a credential; otherwise the answer is the
    ['internal'] error. *)
Theorem purge_succeeds_iff_credential :
  ∀ (data : list (string * jsstring)) (U : string) (w : World),
    let res := exec [] (deleteUserAccount data (Some U)) w in
    (res.1 = inl {| success := true |} ↔ U ∈ credentials w) ∧
    (res.1 = inr (HttpsError internal "Failed to delete user account")
       ↔ U ∉ credentials w) ∧
    users res.2 !! U = None.
Proof.
  intros data U w res. subst res.
  destruct (purge_batch_applies U w) as [wb Hb].
  rewrite (purge_run_no_faults data U w wb Hb).
  pose proof (purge_removes_user U w wb Hb) as Hu.
  case_bool_decide; cbn; (split; [|split]); try done; split; done.
Qed.

Lemma documents_purged_same U w w' :
  users w' = users w → posts w' = posts w → comments w' = comments w →
  chats w' = chats w → following w' = following w → followers w' = followers w →
  transactions w' = transactions w →
  documents_purged U w → documents_purged U w'.
Proof. unfold documents_purged. by intros -> -> -> -> -> -> ->. Qed.

(** ** deleteUserAccount: where a run can stop *)

(** The deletes of [deleteFiles] when exactly the deletes of the objects
    chosen by [kept] fail. *)
Lemma delete_each_keeping {B} (kept : string → bool) names :
  ∀ error (k : unit → Prog B) h w rest,
    exec ((kept <$> names) ++ rest) (try_catch (bind (delete_each names error) k) h) w
    = exec rest
        (try_catch
           (bind (delete_each []
                    match error with
                    | Some e => Some e
                    | None => if existsb kept names then Some Unavailable else None
                    end) k) h)
        (set_bucket (λ b, b ∖ list_to_set (filter (λ n, kept n = false) names)) w).
Proof.
  induction names as [|name names IH]; intros error k h w rest.
  - cbn [fmap list_fmap app existsb filter list_filter list_to_set foldr].
    rewrite (set_bucket_same (λ b, b ∖ ∅) w) by apply difference_empty_L.
    by destruct error.
  - cbn [fmap list_fmap app existsb delete_each bind try_catch].
    rewrite filter_cons. destruct (kept name) eqn:Hk.
    + cbn [exec orb]. rewrite IH. rewrite decide_False by done.
      by destruct error.
    + cbn [exec tail delete_object orb]. rewrite IH. rewrite decide_True by done.
      f_equal; [by destruct error|].
      unfold set_bucket. cbn. f_equal. apply set_eq. intros x.
      rewrite !elem_of_difference, elem_of_union. tauto.
Qed.

(** The run in which the listing of [deleteFiles] fails, after the
    commit. *)
Lemma purge_fails_at_listing data U w wb :
  apply_batch (purge_batch U w) w = Some wb →
  exec [false; false; false; false; false; false; false; true]
    (deleteUserAccount data (Some U)) w
  = (inr purge_failed, log (LogError "Error deleting user account:" Unavailable) wb).
Proof.
  intros Hb. unfold deleteUserAccount, deleteFiles.
  repeat (prog_simpl; cbn [exec tail query_posts query_comments query_chats list_following
                           list_followers list_transactions fst snd]).
  fold (purge_batch U w). unfold commit. rewrite Hb.
  by repeat (prog_simpl; cbn [exec tail fst snd]).
Qed.

(** The run in which the deletes of the objects chosen by [kept] fail,
    and then, when none was chosen, the request of [deleteUser]. *)
Lemma purge_fails_at_files data U w wb (kept : string → bool) :
  apply_batch (purge_batch U w) w = Some wb →
  let names := elements (filter (λ n, String.prefix (user_prefix U) n = true) (bucket wb)) in
  exec (false :: false :: false :: false :: false :: false :: false :: false
          :: (kept <$> names) ++ [true])
    (deleteUserAccount data (Some U)) w
  = (inr purge_failed,
     log (LogError "Error deleting user account:" Unavailable)
       (set_bucket (λ b, b ∖ list_to_set (filter (λ n, kept n = false) names)) wb)).
Proof.
  intros Hb names. unfold deleteUserAccount, deleteFiles.
  repeat (prog_simpl; cbn [exec tail query_posts query_comments query_chats list_following
                           list_followers list_transactions fst snd]).
  fold (purge_batch U w). unfold commit. rewrite Hb.
  prog_simpl. cbn [exec tail list_objects fst snd]. prog_simpl.
  rewrite delete_each_keeping. subst names. unfold user_prefix.
  destruct (existsb kept _); cbn [delete_each bind try_catch];
    by repeat (prog_simpl; cbn [exec tail fst snd]).
Qed.

(** Every run of the purge, whatever requests fail, ends in one of three
    kinds of state: nothing written; the documents gone, the credential
    in place and any part of the files of the user gone; or everything
    gone, which is the only state it reports as success. *)
Lemma purge_run_states fs data U w :
  let res := exec fs (deleteUserAccount data (Some U)) w in
  let failed := res.1 = inr (HttpsError internal "Failed to delete user account") in
  (failed ∧ same_store w res.2)
  ∨ (failed ∧ documents_purged U res.2 ∧ credentials res.2 = credentials w ∧
     ∀ name, name ∈ bucket res.2 →
             name ∈ bucket w)
  ∨ (res.1 = inl {| success := true |} ∧ purged U res.2).
Proof.
  intros res failed. subst res failed.
  destruct (purge_run fs data U w)
    as [(e & ->)|(wb & Hb & [(e & gone & Hgone & ->)|[(e & ->)|(_ & ->)]])]; cbn [fst snd].
  { left. split; [done|]. by repeat split. }
  all: pose proof (purge_commit_effects U w wb Hb) as Hdocs.
  all: destruct (apply_batch_frame _ _ _ Hb) as (Hcr & Hbk & _).
  - right. left. split; [done|]. split; [by apply (documents_purged_same U wb)|].
    split; [done|]. cbn. rewrite Hbk. intros name Hin.
    by apply elem_of_difference in Hin as [Hin _].
  - right. left. split; [done|]. split; [by apply (documents_purged_same U wb)|].
    split; [done|]. cbn. rewrite Hbk. intros name Hin.
    by apply elem_of_filter in Hin as [_ Hin].
  - right. right. split; [done|].
    split; [by apply (documents_purged_same U wb)|]. split.
    + intros name Hin. by apply elem_of_filter in Hin as [Hp _].
    + cbn. rewrite elem_of_difference, elem_of_singleton. tauto.
Qed.

(** The purge is not all-or-nothing.  The batch commit, the deletes of
    [deleteFiles] (one per object) and [deleteUser] are separate requests,
    and for every user with a document there are failing runs that leave
    the documents deleted with every file still there, with files gone
    except any one chosen object, and with every file gone and the
    credential still there.  No run leaves anything else: a failing run
    has written nothing, or has deleted the documents and some of the
    user's files and kept the credential. *)
Theorem purge_stops_between_stages :
  ∀ (data : list (string * jsstring)) (U : string) (w : World) (d : UserDoc),
    users w !! U = Some d →
    let run := λ fs, exec fs (deleteUserAccount data (Some U)) w in
    let failed := λ res : Res PurgeResult * World,
      res.1 = inr (HttpsError internal "Failed to delete user account") in
    (∃ fs, failed (run fs) ∧ users (run fs).2 !! U = None ∧
           documents_purged U (run fs).2 ∧
           bucket (run fs).2 = bucket w ∧ credentials (run fs).2 = credentials w) ∧
    (∀ name, name ∈ bucket w → String.prefix (user_prefix U) name = true →
       ∃ fs, failed (run fs) ∧ documents_purged U (run fs).2 ∧
             credentials (run fs).2 = credentials w ∧
             ∀ x, x ∈ bucket (run fs).2
                  ↔ x ∈ bucket w ∧ (String.prefix (user_prefix U) x = false ∨ x = name)) ∧
    (∃ fs, failed (run fs) ∧ documents_purged U (run fs).2 ∧
           files_purged U (run fs).2 ∧ credentials (run fs).2 = credentials w) ∧
    (∀ fs, (failed (run fs) ∧ same_store w (run fs).2)
           ∨ (failed (run fs) ∧ documents_purged U (run fs).2 ∧
              credentials (run fs).2 = credentials w ∧
              ∀ name, name ∈ bucket (run fs).2 → name ∈ bucket w)
           ∨ ((run fs).1 = inl {| success := true |} ∧ purged U (run fs).2)).
Proof.
  intros data U w d Hd run failed. subst run failed. cbn beta.
  destruct (purge_batch_applies U w) as [wb Hb].
  pose proof (purge_commit_effects U w wb Hb) as Hdocs.
  destruct (apply_batch_frame _ _ _ Hb) as (Hcr & Hbk & _).
  split; [|split; [|split]].
  - exists [false; false; false; false; false; false; false; true].
    rewrite (purge_fails_at_listing data U w wb Hb). cbn [fst snd].
    split; [done|]. split; [by destruct Hdocs|].
    split; [by apply (documents_purged_same U wb)|]. done.
  - intros name Hin Hname.
    exists (false :: false :: false :: false :: false :: false :: false :: false
              :: ((λ n, bool_decide (n = name))
                    <$> elements (filter (λ n, String.prefix (user_prefix U) n = true)
                                    (bucket wb)))
              ++ [true]).
    rewrite (purge_fails_at_files data U w wb (λ n, bool_decide (n = name)) Hb).
    cbn [fst snd]. split; [done|].
    split; [by apply (documents_purged_same U wb)|]. split; [done|].
    intros x. cbn [bucket log set_bucket]. rewrite Hbk.
    rewrite elem_of_difference, elem_of_list_to_set, list_elem_of_filter,
      elem_of_elements, elem_of_filter, bool_decide_eq_false.
    destruct (String.prefix (user_prefix U) x) eqn:Hx.
    + split.
      * intros [Hxin Hnot]. split; [done|]. right.
        destruct (decide (x = name)); [done|]. destruct Hnot. done.
      * intros [Hxin [?| ->]]; [done|]. split; [done|]. intros [Hne _]. done.
    + split; [intros [? _]; auto|]. intros [? _]. split; [done|].
      intros [_ [? _]]. done.
  - exists (false :: false :: false :: false :: false :: false :: false :: false
              :: ((λ _, false)
                    <$> elements (filter (λ n, String.prefix (user_prefix U) n = true)
                                    (bucket wb)))
              ++ [true]).
    rewrite (purge_fails_at_files data U w wb (λ _, false) Hb).
    cbn [fst snd]. split; [done|].
    split; [by apply (documents_purged_same U wb)|]. split; [|done].
    intros x. cbn [bucket log set_bucket].
    rewrite elem_of_difference, elem_of_list_to_set, list_elem_of_filter,
      elem_of_elements, elem_of_filter.
    intros [Hxin Hnot]. destruct (String.prefix (user_prefix U) x) eqn:Hx; [|done].
    destruct Hnot. done.
  - intros fs. apply purge_run_states.
Qed.

Lemma purge_stops_between_stages_witness :
  ∃ fs, let res := exec fs (deleteUserAccount [] (Some "ann")) social_world in
    res.1 = inr (HttpsError internal "Failed to delete user account") ∧
    users res.2 !! "ann" = None ∧
    documents_purged "ann" res.2 ∧
    bucket res.2 = bucket social_world ∧ credentials res.2 = credentials social_world.
Proof.
  apply (purge_stops_between_stages [] "ann" social_world ann). reflexivity.
Defined.

(** The ['internal'] error does not mean that nothing happened: when the
    caller has no credential (any more) and no request fails in transit,
    the purge deletes every document and file of the user and then
    reports the error. *)
Theorem purge_without_credential_still_purges :
  ∀ (data : list (string * jsstring)) (U : string) (w : World),
    U ∉ credentials w →
    let res := exec [] (deleteUserAccount data (Some U)) w in
    res.1 = inr (HttpsError internal "Failed to delete user account") ∧ purged U res.2.
Proof.
  intros data U w Hcred res. subst res.
  destruct (purge_batch_applies U w) as [wb Hb].
  rewrite (purge_run_no_faults data U w wb Hb).
  rewrite bool_decide_false by done. cbn [fst snd]. split; [done|].
  pose proof (purge_commit_effects U w wb Hb) as Hdocs.
  destruct (apply_batch_frame _ _ _ Hb) as (Hcr & _).
  split; [by apply (documents_purged_same U wb)|]. split.
  - intros name Hin. by apply elem_of_filter in Hin as [Hp _].
  - cbn. by rewrite Hcr.
Qed.

Lemma purge_without_credential_still_purges_witness :
  let w := set_credentials (λ _, {["bea"]}) social_world in
  let res := exec [] (deleteUserAccount [] (Some "ann")) w in
  users w !! "ann" = Some ann ∧
  res.1 = inr (HttpsError internal "Failed to delete user account") ∧ purged "ann" res.2.
Proof.
  intros w res. split; [reflexivity|].
  apply (purge_without_credential_still_purges [] "ann" w).
  intros H. change ("ann" ∈ ({["bea"]} : gset string)) in H.
  apply elem_of_singleton in H. discriminate H.
Defined.

(** After a successful purge the user sits in no chat any more: every
    chat that listed the user is deleted or lists the user no longer,
    however often the id occurred in its participants. *)
Theorem purged_user_is_in_no_chat :
  ∀ (fs : list bool) (data : list (string * jsstring)) (U : string) (w w' : World),
    exec fs (deleteUserAccount data (Some U)) w = (inl {| success := true |}, w') →
    ∀ c ch, chats w' !! c = Some ch → U ∉ participants ch.
Proof.
  intros fs data U w w' Hrun.
  destruct (purge_run fs data U w) as [(e & H)|(wb & Hb & [(e & gone & Hgone & H)|[(e & H)|(_ & H)]])];
    rewrite Hrun in H; try done.
  injection H as ->. cbn.
  by destruct (purge_commit_effects U w wb Hb) as (_ & _ & _ & Hch & _).
Qed.

Lemma purged_user_is_in_no_chat_witness :
  let w' := (exec [] (deleteUserAccount [] (Some "ann")) social_world).2 in
  (participants <$> chats w' !! "ann_bea") = Some ["bea"] ∧
  ∀ c ch, chats w' !! c = Some ch → "ann" ∉ participants ch.
Proof.
  intros w'. split; [vm_compute; reflexivity|].
  apply (purged_user_is_in_no_chat [] [] "ann" social_world w').
  vm_compute. reflexivity.
Defined.

(** ** deleteUserAccount: calling it again, and what it leaves stale *)

(** For a user of whom nothing is left the queries of the purge find
    nothing. *)
Lemma purged_batch U w :
  documents_purged U w → purge_batch U w = [BDelete (UserRef U)].
Proof.
  intros (Hu & Hp & Hc & Hch & Hfg & Hfr & Ht). unfold purge_batch.
  assert (posts_by U w = []) as ->.
  { apply elem_of_nil_inv. intros p Hin. apply elem_posts_by in Hin as (post & H1 & H2).
    by apply (Hp p post). }
  assert (comments_by U w = []) as ->.
  { apply elem_of_nil_inv. intros k Hin. apply elem_comments_by in Hin as (c & H1 & H2).
    by apply (Hc k c). }
  assert (chats_with U w = []) as ->.
  { apply elem_of_nil_inv. intros [c ch] Hin. apply elem_chats_with in Hin as [H1 H2].
    by apply (Hch c ch). }
  assert (following_of U w = []) as ->.
  { apply elem_of_nil_inv. intros [o t] Hin. apply elem_following_of in Hin as [H1 H2].
    cbn in H2. subst o. by apply (Hfg t). }
  assert (followers_of U w = []) as ->.
  { apply elem_of_nil_inv. intros [u f] Hin. apply elem_followers_of in Hin as [H1 H2].
    cbn in H2. subst u. by apply (Hfr f). }
  assert (transaction_ids_of U w = []) as ->.
  { apply elem_of_nil_inv. intros [u i] Hin.
    apply elem_transaction_ids_of in Hin as (tx & H1 & H2).
    cbn in H2. subst u. by rewrite Ht in H1. }
  done.
Qed.

(** On such a user every run of the purge fails and changes nothing. *)
Lemma purged_rerun fs data U w :
  purged U w →
  (exec fs (deleteUserAccount data (Some U)) w).1 = inr purge_failed ∧
  same_store w (exec fs (deleteUserAccount data (Some U)) w).2.
Proof.
  intros (Hdocs & Hfiles & Hcred).
  assert (Hbatch := purged_batch U w Hdocs).
  assert (Hfilter : filter (λ name, String.prefix (user_prefix U) name = false) (bucket w)
                    = bucket w).
  { apply set_eq. intros name. rewrite elem_of_filter. split; [tauto|].
    intros Hin. split; [by apply Hfiles|done]. }
  destruct (purge_run fs data U w)
    as [(e & ->)|(wb & Hb & [(e & gone & Hgone & ->)|[(e & ->)|(Hin & _)]])]; cbn [fst snd]; [| | |done].
  { split; [done|]. by repeat split. }
  all: rewrite Hbatch in Hb; cbn in Hb; injection Hb as <-.
  all: split; [done|].
  all: destruct Hdocs as (Hu & _).
  - assert (Hnone : bucket w ∖ gone = bucket w).
    { apply set_eq. intros name. rewrite elem_of_difference. split; [tauto|].
      intros Hin. split; [done|]. intros Hg. apply Hgone in Hg as [_ Hp].
      rewrite (Hfiles name Hin) in Hp. done. }
    repeat split; cbn; rewrite ?Hnone; try done. by rewrite delete_id.
  - repeat split; cbn; rewrite ?Hfilter; try done. by rewrite delete_id.
Qed.

(** The purge cannot be repeated: after a successful purge every further
    call for the same user, whatever its payload and whatever requests
    fail, answers the ['internal'] error and changes nothing. *)
Theorem second_purge_fails_and_changes_nothing :
  ∀ (fs fs' : list bool) (data data' : list (string * jsstring)) (U : string)
    (w w' : World),
    exec fs (deleteUserAccount data (Some U)) w = (inl {| success := true |}, w') →
    let res := exec fs' (deleteUserAccount data' (Some U)) w' in
    res.1 = inr (HttpsError internal "Failed to delete user account") ∧
    same_store w' res.2.
Proof.
  intros fs fs' data data' U w w' Hrun res. subst res.
  apply purged_rerun.
  destruct (purge_run fs data U w) as [(e & H)|(wb & Hb & [(e & gone & Hgone & H)|[(e & H)|(_ & H)]])];
    rewrite Hrun in H; try done.
  injection H as ->.
  pose proof (purge_commit_effects U w wb Hb) as Hdocs.
  split; [by apply (documents_purged_same U wb)|]. split.
  - intros name Hin. by apply elem_of_filter in Hin as [Hp _].
  - cbn. rewrite elem_of_difference, elem_of_singleton. tauto.
Qed.

Lemma second_purge_fails_and_changes_nothing_witness :
  let w' := (exec [] (deleteUserAccount [] (Some "ann")) social_world).2 in
  let res := exec [] (deleteUserAccount [] (Some "ann")) w' in
  res.1 = inr (HttpsError internal "Failed to delete user account") ∧
  same_store w' res.2.
Proof.
  intros w'.
  apply (second_purge_fails_and_changes_nothing [] [] [] [] "ann" social_world w').
  vm_compute. reflexivity.
Defined.

(** A handler run for a followed user who has no document writes nothing,
    whatever the event. *)
Lemma counts_without_followed_user fs c userId followerId w :
  users w !! userId = None →
  same_store w (exec fs (updateFollowerCounts c userId followerId) w).2.
Proof.
  intros Hnone. destruct c as [[] []].
  - by apply counts_noop_run.
  - destruct (counts_all_or_nothing fs false userId followerId w) as [H|([? Hu] & _)];
      [done|congruence].
  - destruct (counts_all_or_nothing fs true userId followerId w) as [H|([? Hu] & _)];
      [done|congruence].
  - by apply counts_noop_run.
Qed.

(** The purge leaves the other users with stale counters.  After a
    successful purge of [U], for every other user [f]: the document of
    [f], counters included, is as it was; the edge documents [f] holds
    about [U] are still there; and the deletion events of the edges of
    [U] cannot repair the counters, because the reconciler finds no
    document for [U] and writes nothing. *)
Theorem purge_leaves_the_other_side_stale :
  ∀ (fs : list bool) (data : list (string * jsstring)) (U : string) (w w' : World),
    exec fs (deleteUserAccount data (Some U)) w = (inl {| success := true |}, w') →
    ∀ f, f ≠ U →
      users w' !! f = users w !! f ∧
      ((f, U) ∈ following w' ↔ (f, U) ∈ following w) ∧
      ((f, U) ∈ followers w' ↔ (f, U) ∈ followers w) ∧
      ((U, f) ∉ followers w') ∧
      ∀ fs' change, same_store w' (deliver (CountUpdate change U f fs') w').
Proof.
  intros fs data U w w' Hrun f Hne.
  destruct (purge_run fs data U w) as [(e & H)|(wb & Hb & [(e & gone & Hgone & H)|[(e & H)|(_ & H)]])];
    rewrite Hrun in H; try done.
  injection H as ->.
  destruct (purge_commit_effects U w wb Hb) as (Hu & _ & _ & _ & _ & Hfr & _).
  assert (Hframe : ∀ r, ¬ owned_by U w r → doc_at r wb = doc_at r w)
    by (intros r; apply purge_batch_frames, Hb).
  cbn [users following followers log set_credentials set_bucket].
  split.
  { assert (H := Hframe (UserRef f) Hne). cbn in H.
    destruct (users wb !! f), (users w !! f); cbn in H; congruence. }
  split.
  { assert (H := Hframe (FollowingRef f U) Hne). cbn in H.
    repeat destruct (decide _); try done; tauto. }
  split.
  { assert (H := Hframe (FollowersRef f U) Hne). cbn in H.
    repeat destruct (decide _); try done; tauto. }
  split; [apply Hfr|].
  intros fs' change. cbn [deliver]. by apply counts_without_followed_user.
Qed.

Lemma purge_leaves_the_other_side_stale_witness :
  let w' := (exec [] (deleteUserAccount [] (Some "ann")) social_world).2 in
  users w' !! "bea" = Some bea ∧ ("bea", "ann") ∈ following w' ∧
  same_store w' (deliver (CountUpdate (mkChange true false) "ann" "bea" []) w').
Proof.
  intros w'.
  destruct (purge_leaves_the_other_side_stale [] [] "ann" social_world w')
    with (f := "bea") as (Hu & Hfg & _ & _ & Hev).
  - vm_compute. reflexivity.
  - discriminate.
  - split; [rewrite Hu; reflexivity|]. split; [|apply Hev].
    apply Hfg. vm_compute. reflexivity.
Defined.

(** ** The profile screen: what a tap leaves *)

(** Under the rules the [try] block of [handleFollow] never reaches
    [setIsFollowing] on another user's profile: the update of that user's
    document is refused, and every earlier failure is caught as well.  No
    run writes the other user's document. *)
Theorem follow_button_never_flips :
  ∀ (fs : list bool) (me userId : string) (isFollowing followLoading : bool) (w : World),
    me ≠ userId →
    let res := exec fs (handleFollow me userId isFollowing followLoading) w in
    res.1 = inl isFollowing ∧ users res.2 !! userId = users w !! userId.
Proof.
  intros fs me userId b loading w Hne.
  assert (Hrule : String.eqb me userId = false) by by apply String.eqb_neq.
  unfold handleFollow. destruct loading; [by prog_simpl|].
  assert (Hupd : ∀ us w0, users (client_update_user me me us w0).2 !! userId
                          = users w0 !! userId).
  { intros us w0. unfold client_update_user, guarded, rule_user, update_user.
    rewrite String.eqb_refl. destruct (users w0 !! me); [|done].
    cbn. by rewrite lookup_insert_ne. }
  assert (Hden : ∀ us w0, client_update_user me userId us w0 = (inr PermissionDenied, w0)).
  { intros us w0. unfold client_update_user, guarded, rule_user. by rewrite Hrule. }
  destruct b; prog_simpl.
  - next_request; [by cbn|].
    unfold client_delete_following, guarded, rule_following.
    rewrite String.eqb_refl. prog_simpl.
    next_request; [by cbn|].
    unfold client_delete_followers, guarded, rule_followers. prog_simpl.
    next_request; [by cbn|].
    set (w2 := set_followers _ _).
    assert (Hw2 : users w2 !! userId = users w !! userId) by done.
    specialize (Hupd [Increment FollowingCount (-1)] w2).
    destruct (client_update_user me me _ w2) as [[[]|e] w3]; prog_simpl;
      cbn [snd] in Hupd; [|cbn; by rewrite Hupd].
    next_request; [cbn; by rewrite Hupd|].
    rewrite Hden. prog_simpl. cbn. by rewrite Hupd.
  - next_request; [by cbn|].
    unfold client_set_following, guarded, rule_following.
    rewrite String.eqb_refl. prog_simpl.
    next_request; [by cbn|].
    unfold client_set_followers, guarded, rule_followers. prog_simpl.
    next_request; [by cbn|].
    set (w2 := set_followers _ _).
    assert (Hw2 : users w2 !! userId = users w !! userId) by done.
    specialize (Hupd [Increment FollowingCount 1] w2).
    destruct (client_update_user me me _ w2) as [[[]|e] w3]; prog_simpl;
      cbn [snd] in Hupd; [|cbn; by rewrite Hupd].
    next_request; [cbn; by rewrite Hupd|].
    rewrite Hden. prog_simpl. cbn. by rewrite Hupd.
Qed.

Lemma follow_button_never_flips_witness :
  let res := exec [] (handleFollow "ann" "cy" false false) newcomers in
  res.1 = inl false ∧ users res.2 !! "cy" = users newcomers !! "cy".
Proof. apply (follow_button_never_flips [] "ann" "cy" false false newcomers). done. Defined.

(** A tap that meets no failure in transit, on another user's profile:
    both edge documents are written, the caller's own counter is moved
    when the caller has a document, nothing else is. *)
Lemma handleFollow_tap me userId (b : bool) w :
  me ≠ userId →
  ∃ w1, exec [] (handleFollow me userId b false) w = (inl b, w1) ∧
    following w1 = (if b then following w ∖ {[(me, userId)]}
                    else following w ∪ {[(me, userId)]}) ∧
    followers w1 = (if b then followers w ∖ {[(userId, me)]}
                    else followers w ∪ {[(userId, me)]}) ∧
    users w1 = match users w !! me with
               | Some d =>
                   <[me := apply_updates
                             [Increment FollowingCount (if b then -1 else 1)] d]> (users w)
               | None => users w
               end ∧
    transactions w1 = transactions w ∧ rewardRule w1 = rewardRule w ∧
    chats w1 = chats w ∧ outbox w1 = outbox w.
Proof.
  intros Hne.
  assert (Hrule : String.eqb me userId = false) by by apply String.eqb_neq.
  unfold handleFollow.
  destruct b; prog_simpl; cbn [exec tail];
    unfold client_set_following, client_delete_following, guarded, rule_following;
    rewrite String.eqb_refl; prog_simpl; cbn [exec tail];
    unfold client_set_followers, client_delete_followers, guarded, rule_followers;
    prog_simpl; cbn [exec tail];
    unfold client_update_user at 1; unfold guarded, rule_user; rewrite String.eqb_refl;
    unfold update_user at 1; cbn [users set_followers set_following];
    destruct (users w !! me) as [dme|] eqn:Hme; prog_simpl;
    try (cbn [exec tail]; unfold client_update_user, guarded, rule_user; rewrite Hrule;
         prog_simpl);
    (eexists; split; [reflexivity|]); cbn; by rewrite ?Hme.
Qed.

(** One tap and the triggers it fires, between two existing users: the
    client moves the caller's [followingCount] by one, and the reconciler
    moves both counters again when the edge document was created or
    deleted.  A counter that is moved is stored as a number. *)
Lemma tap_settled me userId (b : bool) w dme du :
  me ≠ userId →
  users w !! me = Some dme →
  users w !! userId = Some du →
  let δ := if b then (if bool_decide ((userId, me) ∈ followers w) then -1 else 0)
           else (if bool_decide ((userId, me) ∈ followers w) then 0 else 1) in
  let w' := (follow_and_settle me userId b w).2 in
  following w' = (if b then following w ∖ {[(me, userId)]}
                  else following w ∪ {[(me, userId)]}) ∧
  followers w' = (if b then followers w ∖ {[(userId, me)]}
                  else followers w ∪ {[(userId, me)]}) ∧
  (∃ dme', users w' !! me = Some dme' ∧
     followingCount dme' =
       Some (js_num (followingCount dme) + (if b then -1 else 1) + δ) ∧
     followersCount dme' = followersCount dme) ∧
  (∃ du', users w' !! userId = Some du' ∧
     followersCount du' =
       (if δ =? 0 then followersCount du else Some (js_num (followersCount du) + δ)) ∧
     followingCount du' = followingCount du).
Proof.
  intros Hne Hme Hu δ w'. subst w' δ. unfold follow_and_settle.
  destruct (handleFollow_tap me userId b w Hne)
    as (w1 & -> & Hfg & Hfs & Hus & _).
  rewrite Hme in Hus.
  assert (Hafter : bool_decide ((userId, me) ∈ followers w1) = negb b).
  { rewrite Hfs. destruct b; cbn.
    - apply bool_decide_eq_false. rewrite elem_of_difference, elem_of_singleton. tauto.
    - apply bool_decide_eq_true. apply elem_of_union_r, elem_of_singleton. done. }
  rewrite Hafter.
  assert (Hme1 : users w1 !! me
                 = Some (apply_updates [Increment FollowingCount (if b then -1 else 1)] dme))
    by (rewrite Hus; apply lookup_insert_eq).
  assert (Hu1 : users w1 !! userId = Some du)
    by (rewrite Hus; by rewrite lookup_insert_ne).
  assert (Hc1 : followingCount
                  (apply_updates [Increment FollowingCount (if b then -1 else 1)] dme)
                = Some (js_num (followingCount dme) + (if b then -1 else 1))) by done.
  assert (Hc2 : followersCount
                  (apply_updates [Increment FollowingCount (if b then -1 else 1)] dme)
                = followersCount dme) by done.
  set (dme1 := apply_updates _ dme) in *. clearbody dme1.
  assert (Hkeep : ∀ w2 (du2 dme2 : UserDoc),
            users w2 !! userId = Some du2 → users w2 !! me = Some dme2 →
            (∀ v, (users w1 !! v = None ∧ users w2 !! v = None)
                  ∨ ∃ d d', users w1 !! v = Some d ∧ users w2 !! v = Some d' ∧
                      wallet_balance d' = wallet_balance d ∧
                      rewardClaimed d' = rewardClaimed d ∧
                      pushToken d' = pushToken d ∧
                      settings_notifications d' = settings_notifications d ∧
                      profile d' = profile d ∧
                      (v ≠ userId → followersCount d' = followersCount d) ∧
                      (v ≠ me → followingCount d' = followingCount d)) →
            followersCount dme2 = followersCount dme1 ∧
            followingCount du2 = followingCount du).
  { intros w2 du2 dme2 Hu2 Hme2 Hfields. split.
    - destruct (Hfields me) as [[E _]|(d & d' & E1 & E2 & _ & _ & _ & _ & _ & Hk & _)];
        [congruence|].
      assert (d = dme1) as -> by congruence. assert (d' = dme2) as -> by congruence.
      by apply Hk.
    - destruct (Hfields userId) as [[E _]|(d & d' & E1 & E2 & _ & _ & _ & _ & _ & _ & Hk)];
        [congruence|].
      assert (d = du) as -> by congruence. assert (d' = du2) as -> by congruence.
      apply Hk. done. }
  destruct (bool_decide ((userId, me) ∈ followers w)) eqn:Hpresent; destruct b;
    cbn [negb andb after_exists before_exists snd Z.eqb].
  - (* unfollow of an existing edge: a deletion event *)
    destruct (counts_success_run false userId me w1 du dme1 Hu1 Hme1)
      as (w2 & -> & (du2 & Hu2 & Hfc2) & (dme2 & Hme2 & Hfg2) & Hfields & _ & Hr2 & _).
    cbn [snd]. destruct Hr2 as (-> & -> & _).
    destruct (Hkeep w2 du2 dme2 Hu2 Hme2 Hfields) as [Hk1 Hk2].
    split; [done|]. split; [done|]. split.
    + exists dme2. split; [done|]. rewrite Hfg2, Hc1. cbn. split; [f_equal; lia|congruence].
    + exists du2. split; [done|]. rewrite Hfc2. done.
  - (* follow of an existing edge: an update event *)
    destruct (counts_noop_run [] (mkChange true true) userId me w1 eq_refl)
      as (_ & (Hus2 & _ & Hr2) & _).
    destruct Hr2 as (-> & -> & _). rewrite Hus2.
    split; [done|]. split; [done|]. split.
    + exists dme1. split; [done|]. rewrite Hc1. split; [f_equal; lia|done].
    + exists du. done.
  - (* unfollow without an edge: an event of neither kind *)
    destruct (counts_noop_run [] (mkChange false false) userId me w1 eq_refl)
      as (_ & (Hus2 & _ & Hr2) & _).
    destruct Hr2 as (-> & -> & _). rewrite Hus2.
    split; [done|]. split; [done|]. split.
    + exists dme1. split; [done|]. rewrite Hc1. split; [f_equal; lia|done].
    + exists du. done.
  - (* first follow: a creation event, then the reward check *)
    destruct (counts_success_run true userId me w1 du dme1 Hu1 Hme1)
      as (w2 & -> & (du2 & Hu2 & Hfc2) & (dme2 & Hme2 & Hfg2) & Hfields & _ & Hr2 & _).
    cbn [snd].
    destruct (Hkeep w2 du2 dme2 Hu2 Hme2 Hfields) as [Hk1 Hk2].
    destruct (reward_run [] userId w2) as (w3 & -> & Hr3 & Husers). cbn [snd].
    assert (Hrest : same_rest w1 w3) by by eapply same_rest_trans.
    destruct Hrest as (-> & -> & _).
    split; [done|]. split; [done|].
    destruct Husers as [[-> _]|(d & Hd & _ & _ & -> & _)].
    + split.
      * exists dme2. split; [done|]. rewrite Hfg2, Hc1. cbn.
        split; [f_equal; lia|congruence].
      * exists du2. split; [done|]. rewrite Hfc2. done.
    + assert (d = du2) as -> by congruence. split.
      * exists dme2. rewrite lookup_insert_ne by done. split; [done|].
        rewrite Hfg2, Hc1. cbn. split; [f_equal; lia|congruence].
      * exists (credited 1000 du2). rewrite lookup_insert_eq. split; [done|].
        cbn [credited followersCount followingCount]. rewrite Hfc2. done.
Qed.

(** After a tap that meets no failure the button shows the opposite of
    what the store holds: the tap wrote (or removed) the caller's
    [following] document but kept [isFollowing], and [checkFollowStatus],
    run when the screen is opened again, reads the document. *)
Theorem button_disagrees_with_the_store :
  ∀ (me userId : string) (isFollowing : bool) (w : World),
    me ≠ userId →
    let tap := exec [] (handleFollow me userId isFollowing false) w in
    tap.1 = inl isFollowing ∧
    (exec [] (checkFollowStatus me userId isFollowing) tap.2).1 = inl (negb isFollowing).
Proof.
  intros me userId b w Hne.
  destruct (handleFollow_tap me userId b w Hne) as (w1 & E & Hfg & _).
  cbn zeta. rewrite E. cbn [fst snd]. split; [done|].
  unfold checkFollowStatus. prog_simpl. cbn [exec tail].
  unfold client_get_following, guarded, rule_following. rewrite String.eqb_refl.
  prog_simpl. f_equal. rewrite Hfg. destruct b; cbn.
  - apply bool_decide_eq_false. rewrite elem_of_difference, elem_of_singleton. tauto.
  - apply bool_decide_eq_true. apply elem_of_union_r, elem_of_singleton. done.
Qed.

Lemma button_disagrees_with_the_store_witness :
  let tap := exec [] (handleFollow "ann" "cy" false false) newcomers in
  tap.1 = inl false ∧
  (exec [] (checkFollowStatus "ann" "cy" false) tap.2).1 = inl true.
Proof. apply (button_disagrees_with_the_store "ann" "cy" false newcomers). done. Defined.

(** A follow and the unfollow that undoes it, each with the triggers it
    fires, bring the edges back and leave the two counters they move at
    the number they had: the two counts of the follow (+2 for the caller)
    are taken back by the two of the unfollow.  The moved counters are
    stored as numbers (a field the document lacked is now 0); the other
    two counter fields are as they were. *)
Theorem follow_then_unfollow_restores :
  ∀ (me userId : string) (w : World) (dme du : UserDoc),
    me ≠ userId →
    users w !! me = Some dme →
    users w !! userId = Some du →
    (me, userId) ∉ following w →
    (userId, me) ∉ followers w →
    let w' := (follow_and_settle me userId true
                 (follow_and_settle me userId false w).2).2 in
    following w' = following w ∧ followers w' = followers w ∧
    (∃ dme', users w' !! me = Some dme' ∧
       followingCount dme' = Some (js_num (followingCount dme)) ∧
       followersCount dme' = followersCount dme) ∧
    (∃ du', users w' !! userId = Some du' ∧
       followersCount du' = Some (js_num (followersCount du)) ∧
       followingCount du' = followingCount du).
Proof.
  intros me userId w dme du Hne Hme Hu Hfg Hfs w'. subst w'.
  destruct (tap_settled me userId false w dme du Hne Hme Hu)
    as (Hfg1 & Hfs1 & (dme1 & Hme1 & Hc1 & Hk1) & (du1 & Hu1 & Hc2 & Hk2)).
  rewrite bool_decide_eq_false_2 in Hc1, Hc2 by done. cbn [Z.eqb] in Hc2.
  set (w1 := (follow_and_settle me userId false w).2) in *.
  destruct (tap_settled me userId true w1 dme1 du1 Hne Hme1 Hu1)
    as (Hfg2 & Hfs2 & (dme2 & Hme2 & Hc3 & Hk3) & (du2 & Hu2 & Hc4 & Hk4)).
  rewrite bool_decide_eq_true_2 in Hc3, Hc4
    by (rewrite Hfs1; apply elem_of_union_r, elem_of_singleton; done).
  cbn [Z.eqb] in Hc4.
  rewrite Hfg2, Hfs2, Hfg1, Hfs1.
  split.
  { apply set_eq. intros x.
    rewrite elem_of_difference, elem_of_union, elem_of_singleton.
    split; [intros [[?| ->] ?]; done|]. intros Hx. split; [by left|]. by intros ->. }
  split.
  { apply set_eq. intros x.
    rewrite elem_of_difference, elem_of_union, elem_of_singleton.
    split; [intros [[?| ->] ?]; done|]. intros Hx. split; [by left|]. by intros ->. }
  split.
  - exists dme2. split; [done|]. rewrite Hc3, Hc1. cbn. split; [f_equal; lia|congruence].
  - exists du2. split; [done|]. rewrite Hc4, Hc2. cbn. split; [f_equal; lia|congruence].
Qed.

Lemma follow_then_unfollow_restores_witness :
  let w' := (follow_and_settle "ann" "cy" true
               (follow_and_settle "ann" "cy" false newcomers).2).2 in
  following w' = following newcomers ∧ followers w' = followers newcomers ∧
  (∃ dme', users w' !! "ann" = Some dme' ∧
     followingCount dme' = Some (js_num (followingCount ann)) ∧
     followersCount dme' = followersCount ann) ∧
  (∃ du', users w' !! "cy" = Some du' ∧
     followersCount du' = Some (js_num (followersCount ann)) ∧
     followingCount du' = followingCount ann).
Proof.
  apply (follow_then_unfollow_restores "ann" "cy" newcomers ann ann);
    [done| vm_compute; reflexivity | vm_compute; reflexivity
    | vm_compute; intros H; discriminate H | vm_compute; intros H; discriminate H].
Defined.





(** ** The profile screen: opening a chat *)


(** The chat id does not depend on who opens the chat. *)
Theorem chat_id_is_symmetric :
  ∀ a b : string, chat_id a b = chat_id b a.
Proof.
  intros a b. unfold chat_id, sort2, String.ltb.
  rewrite (String.compare_antisym b a).
  destruct (String.compare a b) eqn:E; cbn; try reflexivity.
  apply String.compare_eq_iff in E. by subst.
Qed.

Lemma join_inj (x y x' y' : string) :
  no_separator x = true → no_separator x' = true →
  (x ++ "_" ++ y = x' ++ "_" ++ y')%string → x = x' ∧ y = y'.
Proof.
  revert x'. induction x as [|c x IH]; intros [|c' x'] Hx Hx' E; cbn in *.
  - by injection E.
  - injection E as <- _. by rewrite Ascii.eqb_refl in Hx'.
  - injection E as -> _. by rewrite Ascii.eqb_refl in Hx.
  - injection E as -> E. apply andb_prop in Hx as [_ Hx]. apply andb_prop in Hx' as [_ Hx'].
    destruct (IH x' Hx Hx' E) as [-> ->]. done.
Qed.

(** Two pairs of users share a chat document only when they are the same
    pair: for ids without the separator the chat id determines the two
    ids, in either order. *)
Theorem chat_id_identifies_the_pair :
  ∀ a b c d : string,
    no_separator a = true → no_separator b = true →
    no_separator c = true → no_separator d = true →
    chat_id a b = chat_id c d →
    (a = c ∧ b = d) ∨ (a = d ∧ b = c).
Proof.
  intros a b c d Ha Hb Hc Hd. unfold chat_id, sort2.
  destruct (String.ltb b a), (String.ltb d c); cbn [String.concat]; intros E;
    apply join_inj in E as [-> ->]; auto.
Qed.

Lemma chat_id_identifies_the_pair_witness :
  ("ann" = "bea" ∧ "bea" = "ann")%string ∨ ("ann" = "ann" ∧ "bea" = "bea")%string.
Proof.
  apply (chat_id_identifies_the_pair "ann" "bea" "bea" "ann"); reflexivity.
Defined.

(** ** The wallet screen against the handler *)

(** When [settings/rewardRule] is missing, or holds a threshold other
    than 0, the wallet screen shows no remaining followers exactly when
    the count passes the test of [checkFollowerReward]. *)
Theorem wallet_progress_agrees_with_the_handler :
  ∀ (w : World) (count : option Z),
    (rewardRule w = None
     ∨ ∃ s t, rewardRule w = Some s ∧ followerThreshold s = Some t ∧ t ≠ 0) →
    remainingFollowers (rewardRule w) count = 0
    ↔ js_ge (js_num count) (threshold_of w) = true.
Proof.
  intros w count H. unfold remainingFollowers, screen_threshold, threshold_of.
  destruct H as [->|(s & t & -> & -> & Ht)]; cbn [js_ge].
  - rewrite bool_decide_eq_true. lia.
  - rewrite bool_decide_eq_true. destruct t; [done| |]; lia.
Qed.

Lemma wallet_progress_agrees_with_the_handler_witness :
  remainingFollowers (rewardRule two_users_rule_250) (Some 5000) = 0
  ↔ js_ge (js_num (Some 5000)) (threshold_of two_users_rule_250) = true.
Proof.
  apply (wallet_progress_agrees_with_the_handler two_users_rule_250 (Some 5000)).
  right. exists (mkRule (Some 5000) (Some 250)), 5000. repeat split. lia.
Defined.

(** A [settings/rewardRule] document without [followerThreshold] makes
    the two disagree: the screen falls back to 5000 ([|| 5000]) and shows
    the milestone as reached from 5000 followers on, while the handler
    compares with [undefined] and never rewards. *)
Theorem wallet_progress_disagrees_on_fallback :
  ∀ (w : World) (s : RewardRule) (count : Z),
    rewardRule w = Some s →
    followerThreshold s = None →
    5000 ≤ count →
    remainingFollowers (rewardRule w) (Some count) = 0 ∧
    js_ge (js_num (Some count)) (threshold_of w) = false.
Proof.
  intros w s count Hs Ht Hc. unfold remainingFollowers, screen_threshold, threshold_of.
  rewrite Hs, Ht. cbn [js_ge js_num default from_option id].
  split; [lia|done].
Qed.

Lemma wallet_progress_disagrees_on_fallback_witness :
  let w := mkWorld ∅ ∅ ∅ ∅ (Some (mkRule None None)) ∅ ∅ ∅ ∅ ∅ ∅ [] [] ReceiptOk in
  remainingFollowers (rewardRule w) (Some 6000) = 0 ∧
  js_ge (js_num (Some 6000)) (threshold_of w) = false.
Proof.
  apply (wallet_progress_disagrees_on_fallback
           (mkWorld ∅ ∅ ∅ ∅ (Some (mkRule None None)) ∅ ∅ ∅ ∅ ∅ ∅ [] [] ReceiptOk)
           (mkRule None None) 6000); [reflexivity|reflexivity|lia].
Defined.

(** ** checkFollowerReward and updateFollowerCounts: the order of the triggers *)

(** The two triggers of a new [followers] document run independently.
    When [checkFollowerReward] is delivered before [updateFollowerCounts]
    has counted the follower that brings the user to the threshold, it
    reads the old count and grants nothing: after both deliveries the
    user is at the threshold, the reward is due and it is not granted. *)
Theorem reward_missed_when_checked_before_counted :
  ∀ (uid fid : string) (w : World) (d df : UserDoc) (t : Z),
    users w !! uid = Some d →
    users w !! fid = Some df →
    threshold_of w = Some t →
    js_num (followersCount d) = t - 1 →
    rewardClaimed d = false →
    let w' := deliver_all [RewardCheck uid [];
                           CountUpdate (mkChange false true) uid fid []] w in
    (users w' !! uid ≫= followersCount) = Some t ∧
    reward_due uid w' = true ∧
    claimed_of uid w' = false ∧
    wallet_of uid w' = wallet_of uid w ∧
    transactions w' = transactions w ∧
    outbox w' = outbox w.
Proof.
  intros uid fid w d df t Hd Hdf Hthr Hcount Hcl w'. subst w'.
  cbn [deliver_all foldl deliver].
  assert (Hdue : reward_due uid w = false).
  { unfold reward_due. rewrite Hd, Hthr, Hcount. cbn.
    rewrite bool_decide_eq_false_2 by lia. done. }
  destruct (reward_not_due_run [] uid w Hdue) as (_ & (Hus & Htx & Hrest) & Hout).
  set (w1 := (exec [] (checkFollowerReward uid) w).2) in *.
  assert (Hd1 : users w1 !! uid = Some d) by by rewrite Hus.
  assert (Hdf1 : users w1 !! fid = Some df) by by rewrite Hus.
  destruct (counts_success_run true uid fid w1 d df Hd1 Hdf1)
    as (w2 & -> & (d2 & Hd2 & Hfc2) & _ & Hfields & Ht2 & Hr2 & Ho2 & _).
  cbn [snd].
  destruct (Hfields uid) as [[E _]|(d0 & d2' & E0 & E2 & Hwb & Hc2 & _)]; [congruence|].
  assert (d0 = d) as -> by congruence. assert (d2' = d2) as -> by congruence.
  assert (Hthr2 : threshold_of w2 = Some t).
  { unfold threshold_of in *. destruct Hr2 as (_ & _ & -> & _).
    destruct Hrest as (_ & _ & -> & _). done. }
  assert (Hcount2 : followersCount d2 = Some t) by (rewrite Hfc2, Hcount; f_equal; lia).
  split; [by rewrite Hd2|].
  split.
  { unfold reward_due. rewrite Hd2, Hthr2, Hcount2, Hc2, Hcl. cbn.
    rewrite bool_decide_eq_true_2 by lia. done. }
  split; [unfold claimed_of; rewrite Hd2; cbn; congruence|].
  split; [unfold wallet_of; rewrite Hd2, Hd; cbn; by rewrite Hwb|].
  split; congruence.
Qed.

Lemma reward_missed_when_checked_before_counted_witness :
  let w' := deliver_all [RewardCheck "cy" [];
                         CountUpdate (mkChange false true) "cy" "ann" []] almost_there in
  (users w' !! "cy" ≫= followersCount) = Some 5000 ∧
  reward_due "cy" w' = true ∧
  claimed_of "cy" w' = false ∧
  wallet_of "cy" w' = wallet_of "cy" almost_there ∧
  transactions w' = transactions almost_there ∧
  outbox w' = outbox almost_there.
Proof.
  apply (reward_missed_when_checked_before_counted "cy" "ann" almost_there
           (mkUser (Some 4999) (Some 0) (Some 0) false None true [("username", utf16 "cy")])
           ann 5000); reflexivity.
Defined.

(** ** Numbers in the reward texts *)

(** [Number::toString] on thresholds of different sizes: every digit
    below [2^53], the shortest digits that round to the number above it,
    the exponent form from [10^21] on. *)
Lemma number_to_string_samples :
  number_to_string 5000 = "5000" ∧
  number_to_string (-7) = "-7" ∧
  number_to_string (2 ^ 53) = "9007199254740992" ∧
  number_to_string (2 ^ 60) = "1152921504606847000" ∧
  number_to_string (10 ^ 21) = "1e+21" ∧
  number_to_string (15 * 10 ^ 20) = "1.5e+21" ∧
  number_to_string (2 ^ 70) = "1.1805916207174113e+21" ∧
  reward_description (Some (10 ^ 21))
  = utf16 "Milestone reward for reaching 1e+21 followers".
Proof. vm_compute. repeat split. Qed.
